(** * obs_config: creation of parent/child packages in OBS

    A shallow embedding of [misc/obs/obs_config.py] and the properties of
    its reconciliation loop.  The Python object [ohpc_obs_tool] becomes a
    record threaded through a small state-and-exit monad; everything the
    script does to the outside (log lines, file probes, temporary files,
    [osc] invocations) is appended to a trace, and everything it learns
    from the outside comes from a [Platform]. *)

From stdpp Require Import base option strings list gmap sets.

Local Open Scope string_scope.

(** ** Strings as Python uses them *)

Module Py.

(** The characters a Rocq literal cannot hold directly. *)
Definition dq : string := String (Ascii.ascii_of_nat 34) EmptyString.
Definition nl : string := String (Ascii.ascii_of_nat 10) EmptyString.

(** [s.startswith(p)] *)
Definition startswith (s p : string) : bool := String.prefix p s.

(** [s[n:]] *)
Fixpoint drop_chars (n : nat) (s : string) : string :=
  match n, s with
  | S k, String _ s' => drop_chars k s'
  | _, _ => s
  end.

(** [str.lower], on ASCII letters. *)
Definition lower_ascii (c : Ascii.ascii) : Ascii.ascii :=
  let n := Ascii.nat_of_ascii c in
  if (65 <=? n)%nat && (n <=? 90)%nat then Ascii.ascii_of_nat (n + 32) else c.

Fixpoint lower (s : string) : string :=
  match s with
  | EmptyString => EmptyString
  | String c s' => String (lower_ascii c) (lower s')
  end.

(** [s.replace(old, new)] for a non-empty [old]: leftmost occurrences,
    not overlapping.  [skip] counts the characters of an occurrence
    that is being stepped over. *)
Fixpoint replace_from (old new s : string) (skip : nat) : string :=
  match s with
  | EmptyString => EmptyString
  | String c s' =>
      match skip with
      | S k => replace_from old new s' k
      | O =>
          if String.prefix old s
          then new +:+ replace_from old new s' (String.length old - 1)
          else String c (replace_from old new s' 0)
      end
  end.

Definition replace (s old new : string) : string := replace_from old new s 0.

(** [s * n] *)
Fixpoint times (s : string) (n : nat) : string :=
  match n with
  | O => EmptyString
  | S k => s +:+ times s k
  end.

(** [l.remove(x)] when [x] is in [l]: the first occurrence goes. *)
Fixpoint list_remove (x : string) (l : list string) : list string :=
  match l with
  | [] => []
  | y :: l' => if String.eqb y x then l' else y :: list_remove x l'
  end.

Definition percent : Ascii.ascii := Ascii.ascii_of_nat 37.

(** The number of conversion specifiers of a [%]-format string: every
    [%] starts one, except that [%%] is a literal percent sign. *)
Fixpoint specifiers (fmt : string) : nat :=
  match fmt with
  | EmptyString => 0
  | String c tl =>
      if Ascii.eqb c percent then
        match tl with
        | EmptyString => 1
        | String c' rest =>
            if Ascii.eqb c' percent then specifiers rest else S (specifiers tl)
        end
      else specifiers tl
  end.

End Py.

(** ** What the run leaves behind *)

(** An argument of a [%]-format. *)
Inductive pyarg :=
| AStr (s : string)
| AInt (n : nat)
| ABool (b : bool)
| AList (l : list string).

(** A log message: the format string of the source with its arguments. *)
Definition message : Type := string * list pyarg.

(** The root logger is set to [INFO]; [logging.debug] calls emit nothing
    and are left out of the embedding. *)
Inductive level := INFO | ERROR_level.

(** One word of an [osc] command line.  A temporary file is named by what
    was written to it. *)
Inductive carg :=
| Word (s : string)
| TmpName (contents : string).

(** The arguments of one [addPackage] call. *)
Record addPackage_args := AddPackage {
  ap_package : string;
  ap_parent : bool;
  ap_isCompilerDep : bool;
  ap_compiler : option string;
  ap_parentName : option string;
  ap_gitName : option string
}.

Inductive event :=
| ELog (lvl : level) (msg : message)       (* logging.info / logging.error *)
| EIsFile (path : string)                  (* os.path.isfile *)
| EOpenRead (path : string)                (* open(path,'r').read() *)
| EConfigRead (path : string)              (* ConfigParser.read *)
| ETempFile (contents : string)            (* NamedTemporaryFile, written and flushed *)
| ECheckOutput (cmd : list carg)           (* subprocess.check_output *)
| EAddPackage (a : addPackage_args).       (* entry of addPackage *)

Inductive exn :=
| TypeError | ValueError | AssertionError | UnboundLocalError
| NoSectionError | NoOptionError | LiteralEvalError | XMLParseError
| ReError.

(** How a computation ends: it returns, [sys.exit(arg)] was called, or an
    exception went uncaught. *)
Inductive outcome (A : Type) :=
| Ret (a : A)
| SystemExit (arg : option nat)
| Raise (e : exn).
Arguments Ret {A} a.
Arguments SystemExit {A} arg.
Arguments Raise {A} e.


(** ** The configuration file, once read *)

(** A [ConfigParser] after [read]: sections in file order, each with its
    options in file order, values as [get] returns them (after
    interpolation and comment stripping).  No [DEFAULT] section. *)
Definition ConfigParser : Type := list (string * list (string * string)).

Fixpoint assoc {V} (k : string) (l : list (string * V)) : option V :=
  match l with
  | [] => None
  | (k', v) :: l' => if String.eqb k k' then Some v else assoc k l'
  end.

Module configparser.

Definition sections (c : ConfigParser) : list string := map fst c.

Definition has_option (c : ConfigParser) (section option : string) : bool :=
  match assoc section c with
  | Some opts => bool_decide (is_Some (assoc option opts))
  | None => false
  end.

Definition get (c : ConfigParser) (section option : string) : exn + string :=
  match assoc section c with
  | None => inl NoSectionError
  | Some opts =>
      match assoc option opts with
      | None => inl NoOptionError
      | Some v => inr v
      end
  end.

Definition options (c : ConfigParser) (section : string) : exn + list string :=
  match assoc section c with
  | None => inl NoSectionError
  | Some opts => inr (map fst opts)
  end.

(** [BOOLEAN_STATES] *)
Definition convert_to_boolean (value : string) : exn + bool :=
  let v := Py.lower value in
  if bool_decide (v ∈ ["1"; "yes"; "true"; "on"]) then inr true
  else if bool_decide (v ∈ ["0"; "no"; "false"; "off"]) then inr false
  else inl ValueError.

(** [getboolean(section, option, fallback=fb)]: the fallback covers a
    missing section or option, not a malformed value. *)
Definition getboolean (c : ConfigParser) (section option : string) (fallback : bool)
  : exn + bool :=
  match get c section option with
  | inl _ => inr fallback
  | inr v => convert_to_boolean v
  end.

End configparser.

(** What [ConfigParser.read] does to a fresh parser: it fills it, or it
    raises and leaves in it what was read before the error. *)
Inductive read_result :=
| ReadOk (c : ConfigParser)
| ReadDuplicateSection (partial : ConfigParser)
| ReadFails (partial : ConfigParser).

(** ** The outside world *)

Class Platform := {
  (** [os.path.isfile] *)
  isfile : string → bool;
  (** the text of a file that exists *)
  file_text : string → string;
  (** [ConfigParser.read] of a file *)
  configparser_read : string → read_result;
  (** [ast.literal_eval] on an option value holding a list of strings;
      [None] when it raises *)
  literal_eval : string → option (list string);
  (** [re.search(pattern, s)] tested for truth; [None] when the pattern
      does not compile and the call raises [re.error] *)
  re_search : string → string → option bool;
  (** [subprocess.check_output]: its output, or [None] when it raises.
      The answer may depend on everything that happened before. *)
  check_output : list event → list carg → option string;
  (** the [name] attributes of the [entry] elements of an XML answer;
      [None] when [ElementTree.fromstring] raises *)
  xml_entry_names : string → option (list string)
}.

(** ** The tool object and the monad it lives in *)

(** global config settings *)
Definition obsurl : string := "https://build.openhpc.community".
Definition version_in_progress : string := "1.3.7".
Definition configFile : string := "config".

(** The attributes of [ohpc_obs_tool].  Those that [__init__] sets to
    [None] or leaves unset hold an empty placeholder until [parseConfig]
    assigns them: [main] calls [parseConfig] before any method that reads
    them, and [parseConfig] assigns them all or exits. *)
Record ohpc_obs_tool := Tool {
  vip : string;
  buildConfig : ConfigParser;
  parentCompiler : string;
  parentMPI : string;
  dryRun : bool;
  buildsToCancel : list string;
  branchVer : string;
  microVer : string;
  obsProject : string;
  serviceFile : string;
  linkFile_compiler : string;
  compilerFamilies : list string;
  MPIFamilies : list string;
  NoBuildPatterns : gmap string (list string);
  groups : list (string * list string)
}.

Definition set_buildConfig (v : ConfigParser) (o : ohpc_obs_tool) :=
  Tool (vip o) v (parentCompiler o) (parentMPI o) (dryRun o) (buildsToCancel o)
    (branchVer o) (microVer o) (obsProject o) (serviceFile o) (linkFile_compiler o)
    (compilerFamilies o) (MPIFamilies o) (NoBuildPatterns o) (groups o).
Definition set_parentCompiler (v : string) (o : ohpc_obs_tool) :=
  Tool (vip o) (buildConfig o) v (parentMPI o) (dryRun o) (buildsToCancel o)
    (branchVer o) (microVer o) (obsProject o) (serviceFile o) (linkFile_compiler o)
    (compilerFamilies o) (MPIFamilies o) (NoBuildPatterns o) (groups o).
Definition set_parentMPI (v : string) (o : ohpc_obs_tool) :=
  Tool (vip o) (buildConfig o) (parentCompiler o) v (dryRun o) (buildsToCancel o)
    (branchVer o) (microVer o) (obsProject o) (serviceFile o) (linkFile_compiler o)
    (compilerFamilies o) (MPIFamilies o) (NoBuildPatterns o) (groups o).
Definition set_dryRun (v : bool) (o : ohpc_obs_tool) :=
  Tool (vip o) (buildConfig o) (parentCompiler o) (parentMPI o) v (buildsToCancel o)
    (branchVer o) (microVer o) (obsProject o) (serviceFile o) (linkFile_compiler o)
    (compilerFamilies o) (MPIFamilies o) (NoBuildPatterns o) (groups o).
Definition set_buildsToCancel (v : list string) (o : ohpc_obs_tool) :=
  Tool (vip o) (buildConfig o) (parentCompiler o) (parentMPI o) (dryRun o) v
    (branchVer o) (microVer o) (obsProject o) (serviceFile o) (linkFile_compiler o)
    (compilerFamilies o) (MPIFamilies o) (NoBuildPatterns o) (groups o).
Definition set_serviceFile (v : string) (o : ohpc_obs_tool) :=
  Tool (vip o) (buildConfig o) (parentCompiler o) (parentMPI o) (dryRun o) (buildsToCancel o)
    (branchVer o) (microVer o) (obsProject o) v (linkFile_compiler o)
    (compilerFamilies o) (MPIFamilies o) (NoBuildPatterns o) (groups o).
Definition set_linkFile_compiler (v : string) (o : ohpc_obs_tool) :=
  Tool (vip o) (buildConfig o) (parentCompiler o) (parentMPI o) (dryRun o) (buildsToCancel o)
    (branchVer o) (microVer o) (obsProject o) (serviceFile o) v
    (compilerFamilies o) (MPIFamilies o) (NoBuildPatterns o) (groups o).
Definition set_compilerFamilies (v : list string) (o : ohpc_obs_tool) :=
  Tool (vip o) (buildConfig o) (parentCompiler o) (parentMPI o) (dryRun o) (buildsToCancel o)
    (branchVer o) (microVer o) (obsProject o) (serviceFile o) (linkFile_compiler o)
    v (MPIFamilies o) (NoBuildPatterns o) (groups o).
Definition set_MPIFamilies (v : list string) (o : ohpc_obs_tool) :=
  Tool (vip o) (buildConfig o) (parentCompiler o) (parentMPI o) (dryRun o) (buildsToCancel o)
    (branchVer o) (microVer o) (obsProject o) (serviceFile o) (linkFile_compiler o)
    (compilerFamilies o) v (NoBuildPatterns o) (groups o).
Definition set_NoBuildPatterns (v : gmap string (list string)) (o : ohpc_obs_tool) :=
  Tool (vip o) (buildConfig o) (parentCompiler o) (parentMPI o) (dryRun o) (buildsToCancel o)
    (branchVer o) (microVer o) (obsProject o) (serviceFile o) (linkFile_compiler o)
    (compilerFamilies o) (MPIFamilies o) v (groups o).
Definition set_groups (v : list (string * list string)) (o : ohpc_obs_tool) :=
  Tool (vip o) (buildConfig o) (parentCompiler o) (parentMPI o) (dryRun o) (buildsToCancel o)
    (branchVer o) (microVer o) (obsProject o) (serviceFile o) (linkFile_compiler o)
    (compilerFamilies o) (MPIFamilies o) (NoBuildPatterns o) v.

(** The process: the one tool object and the trace so far, oldest event
    first. *)
Record world := World {
  self : ohpc_obs_tool;
  trace : list event
}.

Definition M (A : Type) : Type := world → outcome A * world.

Definition ret {A} (a : A) : M A := λ w, (Ret a, w).

Definition bind {A B} (c : M A) (k : A → M B) : M B :=
  λ w, match c w with
       | (Ret a, w') => k a w'
       | (SystemExit arg, w') => (SystemExit arg, w')
       | (Raise e, w') => (Raise e, w')
       end.

Notation "'let*' x ':=' c 'in' k" := (bind c (λ x, k))
  (at level 10, x name, c at level 200, k at level 200).

Definition raise {A} (e : exn) : M A := λ w, (Raise e, w).
Definition sys_exit {A} (arg : option nat) : M A := λ w, (SystemExit arg, w).
Definition emit (e : event) : M unit := λ w, (Ret tt, World (self w) (trace w ++ [e])).
Definition get_self : M ohpc_obs_tool := λ w, (Ret (self w), w).
Definition update (f : ohpc_obs_tool → ohpc_obs_tool) : M unit :=
  λ w, (Ret tt, World (f (self w)) (trace w)).

(** A value or the exception an expression raised. *)
Definition lift {A} (r : exn + A) : M A :=
  match r with inl e => raise e | inr a => ret a end.

(** [try: body / except: handler], the bare [except] that catches
    whatever ends [body] early. *)
Definition try_except {A} (body handler : M A) : M A :=
  λ w, match body w with
       | (Ret a, w') => (Ret a, w')
       | (_, w') => handler w'
       end.

(** [for x in l: body x] *)
Fixpoint for_each {A} (l : list A) (body : A → M unit) : M unit :=
  match l with
  | [] => ret tt
  | x :: l' => let* _ := body x in for_each l' body
  end.

(** [fmt % args]: a [TypeError] unless the arguments are as many as the
    conversion specifiers. *)
Definition pct (fmt : string) (args : list pyarg) : M message :=
  if Nat.eqb (Py.specifiers fmt) (length args) then ret (fmt, args) else raise TypeError.
Infix "%%" := pct (at level 40, no associativity).

Definition logging_info (m : message) : M unit := emit (ELog INFO m).
Definition logging_error (m : message) : M unit := emit (ELog ERROR_level m).

(** Simple error wrapper to include exit *)
Definition ERROR {A} (output : message) : M A :=
  let* _ := logging_error output in
  sys_exit None.

(** ** The methods of [ohpc_obs_tool] *)

Section Methods.

Context `{Platform}.

Definition os_path_isfile (path : string) : M bool :=
  let* _ := emit (EIsFile path) in
  ret (isfile path).

Definition open_read (path : string) : M string :=
  let* _ := emit (EOpenRead path) in
  ret (file_text path).

(** [try: s = subprocess.check_output(command) / except: ...] up to the
    handler: [None] when the call raised. *)
Definition subprocess_check_output (command : list carg) : M (option string) :=
  λ w, (Ret (check_output (trace w) command), World (self w) (trace w ++ [ECheckOutput command])).

Definition NamedTemporaryFile (contents : string) : M carg :=
  let* _ := emit (ETempFile contents) in
  ret (TmpName contents).

Definition ast_literal_eval (r : exn + string) : exn + list string :=
  match r with
  | inl e => inl e
  | inr v => match literal_eval v with
             | Some l => inr l
             | None => inl LiteralEvalError
             end
  end.

(** [__init__]: [VersionInfo.parse("1.3.7")] has major 1, minor 3 and
    patch 7. *)
Definition init : M unit :=
  let* m := (Py.nl +:+ "Version in Progress = %s") %% [AStr version_in_progress] in
  let* _ := logging_info m in
  let branchVer := "1" +:+ "." +:+ "3" in
  let microVer := "7" in
  let* m := "--> Branch version  = %s" %% [AStr branchVer] in
  let* _ := logging_info m in
  let* m := "--> Micro release   = %s" %% [AStr microVer] in
  let* _ := logging_info m in
  let obsProject := "OpenHPC:" +:+ branchVer +:+ ":Update" +:+ microVer +:+ ":Factory" in
  let* _ := update (λ _, Tool version_in_progress [] EmptyString EmptyString true []
                            branchVer microVer obsProject EmptyString EmptyString
                            [] [] ∅ []) in
  let* m := "--> OBS project     = %s" %% [AStr obsProject] in
  logging_info m.

(** The two loops of [parseConfig] that list the families, the parent
    being the object at index 0. *)
Definition log_families (families : list string) : M unit :=
  for_each (imap (λ i family, (i, family)) families) (λ '(i, family),
    let* output := "--> %s" %% [AStr family] in
    let output := if Nat.eqb i 0 then (fst output +:+ " (parent)", snd output) else output in
    logging_info output).

(** [d[k] = v] on a dict kept in insertion order *)
Fixpoint dict_set {V} (k : string) (v : V) (d : list (string * V)) : list (string * V) :=
  match d with
  | [] => [(k, v)]
  | (k', v') :: d' => if String.eqb k k' then (k', v) :: d' else (k', v') :: dict_set k v d'
  end.

Definition parseConfig (configFile : option string) : M unit :=
  match configFile with
  | None => raise AssertionError
  | Some configFile =>
    let* m := (Py.nl +:+ "Reading config information from file = %s") %% [AStr configFile] in
    let* _ := logging_info m in
    let* present := os_path_isfile configFile in
    if present then
      let* _ := emit (EConfigRead configFile) in
      let* _ :=
        match configparser_read configFile with
        | ReadOk c => update (set_buildConfig c)
        | ReadDuplicateSection partial =>
            let* _ := update (set_buildConfig partial) in
            let* m := (Py.nl +:+ "ERROR: Duplicate section detected in configfile: %s")
                        %% [AStr configFile] in
            ERROR m
        | ReadFails partial =>
            let* _ := update (set_buildConfig partial) in
            let* m := "ERROR; Unable to parse runtime config file: %s" %% [AStr configFile] in
            ERROR m
        end in
      let* _ := logging_info ("--> file parsing ok", []) in
      (* read global settings for this version in progress; the local
         [vip] of the source is [version_in_progress] *)
      let* _ :=
        try_except
          (let* o := get_self in
           let cfg := buildConfig o in
           let* v := lift (configparser.getboolean cfg "global" "dry_run" true) in
           let* _ := update (set_dryRun v) in
           let* v := lift (configparser.get cfg "global" "service_template") in
           let* _ := update (set_serviceFile v) in
           let* v := lift (configparser.get cfg "global" "link_compiler_template") in
           let* _ := update (set_linkFile_compiler v) in
           let* v := lift (ast_literal_eval (configparser.get cfg version_in_progress "compiler_families")) in
           let* _ := update (set_compilerFamilies v) in
           let* v := lift (ast_literal_eval (configparser.get cfg version_in_progress "mpi_families")) in
           update (set_MPIFamilies v))
          (let* m := "Unable to parse global settings for %s" %% [AStr version_in_progress] in
           ERROR m) in
      let* o := get_self in
      let* _ := if Nat.ltb 0 (length (compilerFamilies o)) then ret tt
                else raise AssertionError in
      let* _ := if Nat.ltb 0 (length (MPIFamilies o)) then ret tt
                else raise AssertionError in
      let* _ := update (set_parentCompiler (default EmptyString (head (compilerFamilies o)))) in
      let* _ := update (set_parentMPI (default EmptyString (head (MPIFamilies o)))) in
      let* m := "--> (global) dry run              = %s" %% [ABool (dryRun o)] in
      let* _ := logging_info m in
      let* m := "--> (global) service template     = %s" %% [AStr (serviceFile o)] in
      let* _ := logging_info m in
      let* m := "--> (global) link template (comp) = %s" %% [AStr (linkFile_compiler o)] in
      let* _ := logging_info m in
      let* m := (Py.nl +:+ "Compiler families (%s):") %% [AStr (vip o)] in
      let* _ := logging_info m in
      let* _ := log_families (compilerFamilies o) in
      let* m := (Py.nl +:+ "MPI families (%s):") %% [AStr (vip o)] in
      let* _ := logging_info m in
      let* _ := log_families (MPIFamilies o) in
      let* _ := logging_info (EmptyString, []) in
      (* parse skip patterns *)
      let* _ := update (set_NoBuildPatterns ∅) in
      let* _ :=
        if configparser.has_option (buildConfig o) (vip o) "skip_aarch" then
          let* v := lift (ast_literal_eval (configparser.get (buildConfig o) version_in_progress "skip_aarch")) in
          update (λ o, set_NoBuildPatterns (<["aarch64" := v]> (NoBuildPatterns o)) o)
        else ret tt in
      let* _ :=
        if configparser.has_option (buildConfig o) (vip o) "skip_x86" then
          let* v := lift (ast_literal_eval (configparser.get (buildConfig o) version_in_progress "skip_x86")) in
          update (λ o, set_NoBuildPatterns (<["x86_64" := v]> (NoBuildPatterns o)) o)
        else ret tt in
      let* _ := logging_info ("Architecture skip patterns:", []) in
      let* o := get_self in
      let* _ :=
        for_each ["aarch64"; "x86_64"] (λ pattern,
          match NoBuildPatterns o !! pattern with
          | Some pats =>
              let* m := "--> arch = %6s, pattern(s) to skip = %s" %% [AStr pattern; AList pats] in
              logging_info m
          | None => ret tt
          end) in
      (* cache group definition(s) *)
      let* _ := update (set_groups []) in
      let* group_names :=
        try_except
          (let* names := lift (configparser.options (buildConfig o) "groups") in
           if Nat.ltb 0 (length names) then ret names else raise AssertionError)
          (ERROR ("Unable to parse [group] names", [])) in
      let* m := "--> (global) %i package groups defined:" %% [AInt (length group_names)] in
      let* _ := logging_info m in
      (* read in components assigned to each group *)
      let* _ :=
        for_each group_names (λ group,
          let* components :=
            try_except
              (lift (ast_literal_eval (configparser.get (buildConfig o) "groups" group)))
              (ERROR ("Unable to parse component groups", [])) in
          update (λ o, set_groups (dict_set group components (groups o)) o)) in
      let* o := get_self in
      let* _ :=
        for_each group_names (λ group,
          let* m := "    --> %-20s: %2i components included"
                      %% [AStr group; AInt (length (default [] (assoc group (groups o))))] in
          logging_info m) in
      logging_info (EmptyString, [])
    else
      ERROR ("--> unable to access input file", [])
  end.

(** query components defined in config file for version in progress *)
Definition query_components (o : ohpc_obs_tool) : list string :=
  let sections := configparser.sections (buildConfig o) in
  let ver_delim := vip o +:+ "/" in
  (* prune global section *)
  let sections := if bool_decide (vip o ∈ sections)
                  then Py.list_remove (vip o) sections else sections in
  (* prune if component is not associated with this version in progress *)
  let sections := filter (λ key, Is_true (Py.startswith key ver_delim)) sections in
  (* strip the version in progress off *)
  map (λ key, Py.drop_chars (String.length ver_delim) key) sections.

(** query all packages currently defined for given version in obs *)
Definition queryOBSPackages : M (gset string) :=
  let* o := get_self in
  let* m := "[queryOBSPackages]: checking for packages currently defined in OBS (%s)"
              %% [AStr (vip o)] in
  let* _ := logging_info m in
  let command := [Word "osc"; Word "api"; Word "-X"; Word "GET";
                  Word ("/source/" +:+ obsProject o)] in
  let* s := subprocess_check_output command in
  let* s := match s with
            | Some s => ret s
            | None => ERROR ("Unable to queryPackages from obs", [])
            end in
  let* names := match xml_entry_names s with
                | Some names => ret names
                | None => raise XMLParseError
                end in
  let packages : gset string := list_to_set names in
  let* m := "[queryOBSPackages]: %i packages defined" %% [AInt (size packages)] in
  let* _ := logging_info m in
  ret packages.

(** check if package is standalone (ie, not compiler or MPI dependent) *)
Definition isStandalone (package : string) : M bool :=
  let* o := get_self in
  let* compiler_dep :=
    lift (configparser.getboolean (buildConfig o) (vip o +:+ "/" +:+ package) "compiler_dep" false) in
  let* mpi_dep :=
    lift (configparser.getboolean (buildConfig o) (vip o +:+ "/" +:+ package) "mpi_dep" false) in
  if compiler_dep || mpi_dep then ret false else ret true.

(** check if package is compiler dependent (ie, depends on compiler
    family, but not MPI) *)
Definition isCompilerDep (package : string) : M bool :=
  let* o := get_self in
  let* compiler_dep :=
    lift (configparser.getboolean (buildConfig o) (vip o +:+ "/" +:+ package) "compiler_dep" false) in
  let* mpi_dep :=
    lift (configparser.getboolean (buildConfig o) (vip o +:+ "/" +:+ package) "mpi_dep" false) in
  if compiler_dep && negb mpi_dep then ret true else ret false.

(** check if package is MPI dependent (implies compiler toolchain
    dependency) *)
Definition isMPIDep (package : string) : M bool :=
  let* o := get_self in
  let* mpi_dep :=
    lift (configparser.getboolean (buildConfig o) (vip o +:+ "/" +:+ package) "mpi_dep" false) in
  if mpi_dep then ret true else ret false.

(** The [for group in self.groups] scan of [checkPackageGroup]. *)
Fixpoint group_scan (package : string) (gs : list (string * list string)) : option string :=
  match gs with
  | [] => None
  | (group, members) :: gs' =>
      if bool_decide (package ∈ members) then Some group else group_scan package gs'
  end.

(** check which group a package belongs to *)
Definition checkPackageGroup (package : string) : M string :=
  let* o := get_self in
  match group_scan package (groups o) with
  | Some group => ret group
  | None =>
      let* m := "package %s not assocated with any groups, please check config"
                  %% [AStr package] in
      ERROR m
  end.

(** update dryrun options *)
Definition overrideDryRun : M unit := update (set_dryRun false).

(** return parent compiler *)
Definition getParentCompiler : M string :=
  let* o := get_self in ret (parentCompiler o).

(** The [for pattern in self.NoBuildPatterns[arch]] loop of
    [disableBuild]: it returns at the first pattern found, and a pattern
    that does not compile ends it with [re.error]. *)
Fixpoint search_patterns (package : string) (patterns : list string) : exn + bool :=
  match patterns with
  | [] => inr false
  | pattern :: patterns' =>
      match re_search pattern package with
      | None => inl ReError
      | Some true => inr true
      | Some false => search_patterns package patterns'
      end
  end.

(** check package against skip build patterns *)
Definition disableBuild (o : ohpc_obs_tool) (package arch : string) : exn + bool :=
  match NoBuildPatterns o !! arch with
  | None => inr false
  | Some patterns => search_patterns package patterns
  end.

(** query compiler family builds for given package. Default to global
    settings unless overridden by package specific settings *)
Definition queryCompilers (package : string) : M (list string) :=
  let* o := get_self in
  let compiler_families := compilerFamilies o in
  (* check if any override options *)
  if configparser.has_option (buildConfig o) (vip o +:+ "/" +:+ package) "compiler_families" then
    let* compiler_families :=
      lift (ast_literal_eval
              (configparser.get (buildConfig o) (vip o +:+ "/" +:+ package) "compiler_families")) in
    let* m := (Py.nl +:+ "--> override of default compiler families requested for package = %s")
                %% [AStr package] in
    let* _ := logging_info m in
    let* m := ("--> families %s" +:+ Py.nl) %% [AList compiler_families] in
    let* _ := logging_info m in
    ret compiler_families
  else ret compiler_families.

(** Step 1 of [addPackage], up to [fp.flush()]: what is written to the
    [_meta] file of a new package, the build architectures being
    enabled or disabled by the skip patterns.  ([pad] is 15.) *)
Definition addPackage_meta (o : ohpc_obs_tool) (package : string) : M string :=
  let fp := "<package name = " +:+ Py.dq +:+ package +:+ Py.dq +:+ " project="
              +:+ Py.dq +:+ obsProject o +:+ Py.dq +:+ ">" +:+ Py.nl in
  let fp := fp +:+ "<title/>" +:+ Py.nl in
  let fp := fp +:+ "<description/>" in
  let fp := fp +:+ "<build>" +:+ Py.nl in
  (* check skip pattern to define build architectures *)
  let* disabled := lift (disableBuild o package "aarch64") in
  let* fp :=
    if disabled then
      let* _ := logging_info (Py.times " " 15
                   +:+ "--> disabling aarch64 build per pattern match request", []) in
      ret (fp +:+ "<disable arch=" +:+ Py.dq +:+ "aarch64" +:+ Py.dq +:+ "/>" +:+ Py.nl)
    else
      ret (fp +:+ "<enable arch=" +:+ Py.dq +:+ "aarch64" +:+ Py.dq +:+ "/>" +:+ Py.nl) in
  let* disabled := lift (disableBuild o package "x86_64") in
  let* fp :=
    if disabled then
      let* _ := logging_info (Py.times " " 15
                   +:+ "--> disabling x86_64 build per pattern match request", []) in
      ret (fp +:+ "<disable arch=" +:+ Py.dq +:+ "x86_64" +:+ Py.dq +:+ "/>" +:+ Py.nl)
    else
      ret (fp +:+ "<enable arch=" +:+ Py.dq +:+ "x86_64" +:+ Py.dq +:+ "/>" +:+ Py.nl) in
  let fp := fp +:+ "</build>" +:+ Py.nl in
  let fp := fp +:+ "</package>" +:+ Py.nl in
  ret fp.

(** add specified package to OBS *)
Definition addPackage (package : string) (parent isCompilerDep : bool)
    (compiler parentName gitName : option string) : M unit :=
  let* _ := emit (EAddPackage (AddPackage package parent isCompilerDep compiler parentName gitName)) in
  let* o := get_self in
  (* verify we have template _service file *)
  let* present := os_path_isfile (serviceFile o) in
  let* contents :=
    if present then open_read (serviceFile o)
    else
      let* m := "Unable to read _service file template" %% [AStr (serviceFile o)] in
      ERROR m in
  let pad := 15 in
  (* verify we have a group definition for the parent package *)
  let* group :=
    if parent then
      let* group := match gitName with
                    | Some gitName => checkPackageGroup gitName
                    | None => checkPackageGroup package
                    end in
      ret (Some group)
    else ret None in
  (* Step 1: create _meta file for obs package (this defines new obs package) *)
  let* fp := addPackage_meta o package in
  let* fp_name := NamedTemporaryFile fp in
  let command := [Word "osc"; Word "api"; Word "-f"; fp_name; Word "-X"; Word "PUT";
                  Word ("/source/" +:+ obsProject o +:+ "/" +:+ package +:+ "/_meta")] in
  let* _ :=
    if dryRun o then
      let* m := (Py.nl +:+ Py.times " " pad +:+ "--> (dryrun) requesting addition of package: %s")
                  %% [AStr package] in
      logging_info m
    else ret tt in
  let* _ :=
    if negb (dryRun o) then
      let* s := subprocess_check_output command in
      match s with
      | Some _ => ret tt
      | None =>
          let* m := (Py.nl +:+ "Unable to add new package (%s) to OBS") %% [AStr package] in
          ERROR m
      end
    else ret tt in
  (* add marker file indicating this is a new OBS addition ready to be
     rebuilt (nothing in file, simply a marker) *)
  let* fp_name := NamedTemporaryFile EmptyString in
  let markerFile := "_obs_config_ready_for_build" in
  let command := [Word "osc"; Word "api"; Word "-f"; fp_name; Word "-X"; Word "PUT";
                  Word ("/source/" +:+ obsProject o +:+ "/" +:+ package +:+ "/" +:+ markerFile)] in
  let* _ :=
    if dryRun o then
      let* m := (Py.times " " pad +:+ "--> (dryrun) requesting addition of %s file for package: %s")
                  %% [AStr markerFile; AStr package] in
      logging_info m
    else ret tt in
  let* _ :=
    if negb (dryRun o) then
      let* s := subprocess_check_output command in
      match s with
      | Some _ => ret tt
      | None =>
          let* m := (Py.nl +:+ "Unable to add marker file for package (%s) to OBS")
                      %% [AStr package] in
          ERROR m
      end
    else ret tt in
  let* _ :=
    if parent then
        (* Step 2a: add _service file for parent package *)
        let* group := match group with
                      | Some group => ret group
                      | None => raise UnboundLocalError
                      end in
        (* obs needs escape for hyphens in _service file *)
        let group := Py.replace group "-" "[-]" in
        (* create package specific _service file *)
        let pname := match gitName with Some gitName => gitName | None => package end in
        let contents := Py.replace contents "!GROUP!" group in
        let contents := Py.replace contents "!PACKAGE!" pname in
        let contents := Py.replace contents "!VERSION!" (vip o) in
        let* fp_serv := NamedTemporaryFile contents in
        let command := [Word "osc"; Word "api"; Word "-f"; fp_serv; Word "-X"; Word "PUT";
                        Word ("/source/" +:+ obsProject o +:+ "/" +:+ package +:+ "/_service")] in
        let* _ :=
          if dryRun o then
            let* m := (Py.times " " pad +:+ "--> (dryrun) adding _service file for package: %s")
                        %% [AStr package] in
            logging_info m
          else ret tt in
        if negb (dryRun o) then
          let* s := subprocess_check_output command in
          match s with
          | Some _ => ret tt
          | None =>
              let* m := (Py.nl +:+ "Unable to add _service file for package (%s) to OBS")
                          %% [AStr package] in
              ERROR m
          end
        else ret tt
    else
        (* Step2b: add _link file for child package *)
        let* linkFile :=
          if isCompilerDep then
            let* _ := if bool_decide (is_Some compiler) then ret tt else raise AssertionError in
            ret (Some (linkFile_compiler o))
          else ret None in
        let* parentName := match parentName with
                           | Some parentName => ret parentName
                           | None => raise AssertionError
                           end in
        let* linkFile := match linkFile with
                         | Some linkFile => ret linkFile
                         | None => raise UnboundLocalError
                         end in
        (* verify we have template _link file template *)
        let* present := os_path_isfile linkFile in
        let* contents :=
          if present then open_read linkFile
          else
            let* m := "Unable to read _link file template" %% [AStr linkFile] in
            ERROR m in
        (* create package specific _link file *)
        let contents := Py.replace contents "!PACKAGE!" parentName in
        let* compiler := match compiler with
                         | Some compiler => ret compiler
                         | None => raise TypeError
                         end in
        let contents := Py.replace contents "!COMPILER!" compiler in
        let contents := Py.replace contents "!PROJECT!" (obsProject o) in
        let* fp_link := NamedTemporaryFile contents in
        let command := [Word "osc"; Word "api"; Word "-f"; fp_link; Word "-X"; Word "PUT";
                        Word ("/source/" +:+ obsProject o +:+ "/" +:+ package +:+ "/_link")] in
        let* _ :=
          if dryRun o then
            let* m := (Py.times " " pad
                         +:+ "--> (dryrun) adding _link file for package: %s (parent=%s)")
                        %% [AStr package; AStr parentName] in
            logging_info m
          else ret tt in
        if negb (dryRun o) then
          let* s := subprocess_check_output command in
          match s with
          | Some _ => ret tt
          | None =>
              let* m := (Py.nl +:+ "Unable to add _link file for package (%s) to OBS")
                          %% [AStr package] in
              ERROR m
          end
        else ret tt
    in
  let* _ := if dryRun o then logging_info (EmptyString, []) else ret tt in
  (* Step 3 - register package to lock build once it kicks off *)
  update (λ o, set_buildsToCancel (buildsToCancel o ++ [package]) o).

Definition cancelNewBuilds : M unit :=
  let* o := get_self in
  let numBuilds := length (buildsToCancel o) in
  if Nat.eqb numBuilds 0 then
    logging_info (Py.nl +:+ "No new builds to cancel", [])
  else
    let* m := (Py.nl +:+ "%i new build(s) need to be locked:") %% [AInt numBuilds] in
    let* _ := logging_info m in
    let* _ := logging_info
                ("--> will lock for now and GitHub trigger will unlock on first commit", []) in
    for_each (buildsToCancel o) (λ package,
      let command := [Word "osc"; Word "lock"; Word (obsProject o); Word package] in
      let* _ :=
        if dryRun o then
          let* m := "--> (dryrun) requesting lock for package: %s" %% [AStr package] in
          logging_info m
        else ret tt in
      if negb (dryRun o) then
        let* s := subprocess_check_output command in
        match s with
        | Some _ => ret tt
        | None =>
            let* m := (Py.nl +:+ "Unable to add _link file for package (%s) to OBS")
                        %% [AStr package] in
            ERROR m
        end
      else ret tt).

End Methods.

(** ** top-level *)

(** The parsed command line. *)
Record arguments := Args {
  args_configFile : option string;
  args_dryrun : bool
}.

Section Main.

Context `{Platform}.

(** The four arms of the [if]/[elif] chain in the loop of [main]. *)

Definition main_standalone (obsPackages : gset string) (package : string) : M unit :=
  let ptype := "standalone" in
  if bool_decide (package ∈ obsPackages) then
    let* m := "%20s (%13s): present in OBS" %% [AStr package; AStr ptype] in
    logging_info m
  else
    let* m := "%20s (%13s): *not* present in OBS, need to add" %% [AStr package; AStr ptype] in
    let* _ := logging_info m in
    addPackage package true false None None None.

Definition main_compiler_dep (obsPackages : gset string) (package : string) : M unit :=
  let ptype := "compiler dep" in
  let* parentCompiler := getParentCompiler in
  let parent := package +:+ "-" +:+ parentCompiler in
  let* compilers := queryCompilers package in
  (* check on parent first (it must exist before any children are linked) *)
  let* _ :=
    if bool_decide (parent ∈ obsPackages) then
      let* m := "%20s (%13s): present in OBS" %% [AStr parent; AStr ptype] in
      logging_info m
    else
      let* m := "%20s (%13s): *not* present in OBS, need to add" %% [AStr parent; AStr ptype] in
      let* _ := logging_info m in
      addPackage parent true true None None (Some package) in
  (* now, check on children *)
  for_each compilers (λ compiler,
    let* parentCompiler := getParentCompiler in
    if String.eqb compiler parentCompiler then
      ret tt (* ...skipping parent compiler... *)
    else
      let child := package +:+ "-" +:+ compiler in
      if bool_decide (child ∈ obsPackages) then
        let* m := "%20s (%13s): present in OBS" %% [AStr child; AStr ptype] in
        logging_info m
      else
        let* m := "%20s (%13s): *not* present in OBS, need to add" %% [AStr child; AStr ptype] in
        let* _ := logging_info m in
        addPackage child false true (Some compiler) (Some parent) None).

Definition main_mpi_dep (package : string) : M unit :=
  let* m := "MPI dependent package: %s" %% [AStr package] in
  logging_info m.

Definition main_unsupported : M unit :=
  logging_error ("Unsupported compiler/MPI dependency configuration", []).

(** One turn of [for package in components]. *)
Definition main_package (obsPackages : gset string) (package : string) : M unit :=
  let* standalone := isStandalone package in
  if standalone then main_standalone obsPackages package
  else
    let* compilerDep := isCompilerDep package in
    if compilerDep then main_compiler_dep obsPackages package
    else
      let* mpiDep := isMPIDep package in
      if mpiDep then main_mpi_dep package
      else main_unsupported.

(** The reconciliation of [main]: from the empty log line before the
    loop to [cancelNewBuilds]. *)
Definition main_reconcile (components : list string) (obsPackages : gset string) : M unit :=
  let* _ := logging_info (EmptyString, []) in
  let* _ := for_each components (main_package obsPackages) in
  cancelNewBuilds.

Definition main (args : arguments) : M unit :=
  (* main worker bee class *)
  let* _ := init in
  (* read config file and parse component packages desired for current
     version; the file is the global [configFile], not the argument *)
  let* _ := parseConfig (Some configFile) in
  let* o := get_self in
  let components := query_components o in
  (* override dryrun option is requested *)
  let* _ :=
    if negb (args_dryrun args) then
      let* _ := logging_info
                  ("--no-dryrun command line arg requested: will execute commands" +:+ Py.nl, []) in
      overrideDryRun
    else ret tt in
  (* query components defined in existing OBS project *)
  let* obsPackages := queryOBSPackages in
  main_reconcile components obsPackages.

End Main.

(** ** A small concrete installation

    A configuration file, two templates and a registry answer, used to
    run the definitions above on concrete inputs. *)

Module Scenario.

(** A reading of list literals such as ['gnu9', 'gnu10']: the items
    between single quotes of a text that opens with a bracket. *)
Fixpoint quoted_items (s : string) (cur : option string) : list string :=
  match s with
  | EmptyString => []
  | String c s' =>
      if Ascii.eqb c (Ascii.ascii_of_nat 39) then
        match cur with
        | None => quoted_items s' (Some EmptyString)
        | Some item => item :: quoted_items s' None
        end
      else
        match cur with
        | None => quoted_items s' None
        | Some item => quoted_items s' (Some (item +:+ String c EmptyString))
        end
  end.

Definition list_literal (s : string) : option (list string) :=
  if String.prefix "[" s then Some (quoted_items s None) else None.

(** Patterns without metacharacters: a search is a substring test. *)
Fixpoint contains (pattern s : string) : bool :=
  String.prefix pattern s ||
  match s with
  | EmptyString => false
  | String _ s' => contains pattern s'
  end.

(** The pattern that is one opening parenthesis does not compile. *)
Definition search (pattern s : string) : option bool :=
  if String.eqb pattern "(" then None else Some (contains pattern s).

Definition config : ConfigParser :=
  [ ("global", [ ("dry_run", "True");
                 ("service_template", "service.tmpl");
                 ("link_compiler_template", "link.tmpl") ]);
    ("1.3.7", [ ("compiler_families", "['gnu9', 'gnu10', 'intel']");
                ("mpi_families", "['openmpi']");
                ("skip_x86", "['gnu10']") ]);
    ("groups", [ ("dev-tools", "['cmake']");
                 ("libs", "['widget', 'blas']") ]);
    ("1.3.7/cmake", []);
    ("1.3.7/widget", [ ("compiler_dep", "yes") ]);
    ("1.3.7/blas", [ ("compiler_dep", "yes");
                     ("compiler_families", "['intel', 'llvm']") ]);
    ("1.3.7/fftw", [ ("compiler_dep", "True"); ("mpi_dep", "True") ]);
    ("1.3.7/orphan", [ ("compiler_dep", "on") ]) ].

Definition service_template : string :=
  "<service group=!GROUP! package=!PACKAGE! version=!VERSION!/>".
Definition link_template : string :=
  "<link project=!PROJECT! package=!PACKAGE! compiler=!COMPILER!/>".

(** The installation: which files exist, what the registry lists, and
    which [osc] command lines fail. *)
Definition platform (files : list string) (cfg : ConfigParser) (registry : list string)
    (fails : list carg → bool) : Platform :=
  {| isfile := λ path, bool_decide (path ∈ files);
     file_text := λ path, if String.eqb path "link.tmpl" then link_template
                          else service_template;
     configparser_read := λ _, ReadOk cfg;
     literal_eval := list_literal;
     re_search := search;
     check_output := λ _ cmd, if fails cmd then None else Some "<directory/>";
     xml_entry_names := λ _, Some registry |}.

Definition all_files : list string := ["config"; "service.tmpl"; "link.tmpl"].

Definition never : list carg → bool := λ _, false.

(** The process before [main] runs. *)
Definition start : world :=
  World (Tool EmptyString [] EmptyString EmptyString true [] EmptyString EmptyString
           EmptyString EmptyString EmptyString [] [] ∅ []) [].

(** The process once the manifest is loaded. *)
Definition loaded (P : Platform) : world :=
  snd ((let* _ := init in parseConfig (Some configFile)) start).

(** Everything in place, nothing fails; the registry lists [cmake] and
    [widget-gnu9]. *)
Definition sound : Platform := platform all_files config ["cmake"; "widget-gnu9"] never.

Definition listed : gset string := list_to_set ["cmake"; "widget-gnu9"].

(** Every [osc] command fails. *)
Definition broken : Platform := platform all_files config [] (λ _, true).

(** The hold on [cmake] fails, every other command succeeds. *)
Definition lock_fails : Platform :=
  platform all_files config []
    (λ cmd, match cmd with
            | [Word "osc"; Word "lock"; _; Word "cmake"] => true
            | _ => false
            end).

(** A real run that has created [cmake] and [widget-gnu9]. *)
Definition two_pending (P : Platform) : world :=
  World (set_buildsToCancel ["cmake"; "widget-gnu9"] (set_dryRun false (self (loaded P)))) [].

(** The configuration names two templates that do not exist; the
    registry lists every identity of the manifest. *)
Definition no_templates : Platform :=
  platform ["config"] config
    ["cmake"; "widget-gnu9"; "widget-gnu10"; "widget-intel";
     "blas-gnu9"; "blas-intel"; "blas-llvm";
     "orphan-gnu9"; "orphan-gnu10"; "orphan-intel"] never.

(** No configuration file. *)
Definition no_config : Platform := platform [] config [] never.

(** The parser meets a section for the second time and raises, having
    read the [global] section. *)
Definition duplicated : Platform :=
  {| isfile := λ path, bool_decide (path ∈ all_files);
     file_text := λ _, service_template;
     configparser_read := λ _, ReadDuplicateSection [("global", [("dry_run", "True")])];
     literal_eval := list_literal;
     re_search := search;
     check_output := λ _ _, Some "<directory/>";
     xml_entry_names := λ _, Some [] |}.



(** A file whose [global] section names no template. *)
Definition bare : ConfigParser := [("global", [("dry_run", "True")])].

Definition unsettled : Platform := platform all_files bare [] never.

(** The manifest with one more package, whose flag is not a boolean. *)
Definition odd_flag : Platform :=
  platform all_files (config ++ [("1.3.7/odd", [("compiler_dep", "maybe")])])%list
    ["cmake"; "widget-gnu9"] never.

(** The upload of one file of [cmake] fails, every other command
    succeeds. *)
Definition upload_fails (name : string) : Platform :=
  platform all_files config []
    (λ cmd, match cmd with
            | [_; _; _; _; _; _; Word url] =>
                String.eqb url ("/source/OpenHPC:1.3:Update7:Factory/cmake/" +:+ name)
            | _ => false
            end).

(** The service template does not exist and the registry is empty. *)
Definition no_service : Platform := platform ["config"; "link.tmpl"] config [] never.

(** The link template does not exist; the registry lists [cmake] and
    [widget-gnu9]. *)
Definition no_link : Platform :=
  platform ["config"; "service.tmpl"] config ["cmake"; "widget-gnu9"] never.

End Scenario.

(** ** Reading a trace *)

(** What the loop of [main] decided about one identity: [Create] when it
    called [addPackage], [Skip] when it logged the identity as present. *)
Inductive decision :=
| Create (a : addPackage_args)
| Skip (identity : string).

Definition decision_of (e : event) : option decision :=
  match e with
  | EAddPackage a => Some (Create a)
  | ELog INFO (fmt, AStr identity :: _) =>
      if String.eqb fmt "%20s (%13s): present in OBS" then Some (Skip identity) else None
  | _ => None
  end.

Definition decisions (t : list event) : list decision := omap decision_of t.

Definition created (t : list event) : list addPackage_args :=
  omap (λ e, match e with EAddPackage a => Some a | _ => None end) t.

Definition remote_calls (t : list event) : list (list carg) :=
  omap (λ e, match e with ECheckOutput cmd => Some cmd | _ => None end) t.

Definition is_remote_call (e : event) : Prop :=
  match e with ECheckOutput _ => True | _ => False end.

(** The error line of [checkPackageGroup]. *)
Definition ungrouped_error (package : string) : event :=
  ELog ERROR_level
    ("package %s not assocated with any groups, please check config", [AStr package]).

(** The command line of a build hold. *)
Definition lock_command (o : ohpc_obs_tool) (package : string) : list carg :=
  [Word "osc"; Word "lock"; Word (obsProject o); Word package].

(** ** The identities a package stands for

    The expansion of section 4.3 of the specification, written as a
    function of the tool object: the [addPackage] calls that one package
    asks for when nothing is present yet, in order. *)

Section Expansion.

Context `{Platform}.

(** The families [queryCompilers] returns; none when it raises. *)
Definition resolved_compilers (o : ohpc_obs_tool) (package : string) : list string :=
  if configparser.has_option (buildConfig o) (vip o +:+ "/" +:+ package) "compiler_families"
  then
    match ast_literal_eval
            (configparser.get (buildConfig o) (vip o +:+ "/" +:+ package) "compiler_families")
    with
    | inr l => l
    | inl _ => []
    end
  else compilerFamilies o.

Definition parent_identity (o : ohpc_obs_tool) (package : string) : string :=
  package +:+ "-" +:+ parentCompiler o.

Definition parent_entry (o : ohpc_obs_tool) (package : string) : addPackage_args :=
  AddPackage (parent_identity o package) true true None None (Some package).

Definition child_entry (o : ohpc_obs_tool) (package compiler : string) : addPackage_args :=
  AddPackage (package +:+ "-" +:+ compiler) false true
    (Some compiler) (Some (parent_identity o package)) None.

Definition children (o : ohpc_obs_tool) (package : string) (compilers : list string)
  : list addPackage_args :=
  child_entry o package <$> filter (λ compiler, compiler ≠ parentCompiler o) compilers.

(** The two flags of a package as the classifiers read them. *)
Definition compiler_dep_flag (o : ohpc_obs_tool) (package : string) : exn + bool :=
  configparser.getboolean (buildConfig o) (vip o +:+ "/" +:+ package) "compiler_dep" false.
Definition mpi_dep_flag (o : ohpc_obs_tool) (package : string) : exn + bool :=
  configparser.getboolean (buildConfig o) (vip o +:+ "/" +:+ package) "mpi_dep" false.

Definition expand (o : ohpc_obs_tool) (package : string) : list addPackage_args :=
  match compiler_dep_flag o package, mpi_dep_flag o package with
  | inr false, inr false => [AddPackage package true false None None None]
  | inr true, inr false =>
      parent_entry o package :: children o package (resolved_compilers o package)
  | _, _ => []
  end.

(** Present identities are skipped, absent ones created. *)
Definition decide_entry (obsPackages : gset string) (a : addPackage_args) : decision :=
  if bool_decide (ap_package a ∈ obsPackages) then Skip (ap_package a) else Create a.

Definition expected (o : ohpc_obs_tool) (components : list string) (obsPackages : gset string)
  : list decision :=
  components ≫= λ package, decide_entry obsPackages <$> expand o package.

(** The events a computation appends when started in [w], and how it
    ends. *)
Definition result {A} (c : M A) (w : world) : outcome A := fst (c w).
Definition final {A} (c : M A) (w : world) : world := snd (c w).
Definition events {A} (c : M A) (w : world) : list event :=
  drop (length (trace w)) (trace (final c w)).

(** The registry as a later run finds it when nothing but this run
    touched it: what was listed, and every identity the run created. *)
Definition registry_after (obsPackages : gset string) (t : list event) : gset string :=
  obsPackages ∪ list_to_set (ap_package <$> created t).

(** A second process run after a first one: the tool is as
    [parseConfig] built it, with an empty lock list, and the history of
    the outside world goes on. *)
Definition next_process (w : world) : world :=
  World (set_buildsToCancel [] (self w)) (trace w).

(** What the second of two reconciliations creates, the first being
    given the listing [first] and the second the listing [second]. *)
Definition second_run_created (components : list string)
    (first second : gset string) (w : world) : list addPackage_args :=
  let w1 := final (main_reconcile components first) w in
  created (events (main_reconcile components second) (next_process w1)).

(** The same process in the other mode. *)
Definition in_mode (dry : bool) (w : world) : world :=
  World (set_dryRun dry (self w)) (trace w).

(** One line of the [build] element of a [_meta] file. *)
Definition arch_line (arch : string) (disabled : bool) : string :=
  "<" +:+ (if disabled then "disable" else "enable") +:+ " arch="
    +:+ Py.dq +:+ arch +:+ Py.dq +:+ "/>" +:+ Py.nl.

(** The [_meta] file of a package whose build is disabled on the
    architectures flagged. *)
Definition meta_text (project package : string) (no_aarch64 no_x86_64 : bool) : string :=
  ((((((("<package name = " +:+ Py.dq +:+ package +:+ Py.dq +:+ " project="
           +:+ Py.dq +:+ project +:+ Py.dq +:+ ">" +:+ Py.nl)
        +:+ "<title/>" +:+ Py.nl)
       +:+ "<description/>")
      +:+ "<build>" +:+ Py.nl)
     +:+ arch_line "aarch64" no_aarch64)
    +:+ arch_line "x86_64" no_x86_64)
   +:+ "</build>" +:+ Py.nl)
  +:+ "</package>" +:+ Py.nl.

(** The events of loading the manifest from [path]: log lines, and the
    probe and the read of that one file. *)
Definition loads_only (path : string) (e : event) : Prop :=
  match e with
  | ELog _ _ => True
  | EIsFile p | EConfigRead p => p = path
  | _ => False
  end.

Definition not_remote (e : event) : Prop := ¬ is_remote_call e.

Definition not_ungrouped (e : event) : Prop := ∀ package, e ≠ ungrouped_error package.

Definition unsupported_error : event :=
  ELog ERROR_level ("Unsupported compiler/MPI dependency configuration", []).

(** Every event but the error line of the fourth arm of the loop. *)
Definition supported (e : event) : Prop := e ≠ unsupported_error.

(** No constraint on an event, or on the tool. *)
Definition anything (e : event) : Prop := True.
Definition any_tool (o : ohpc_obs_tool) : Prop := True.

(** The template files an [addPackage] call probes and reads. *)
Definition template_reads (o : ohpc_obs_tool) (parent : bool) : list event :=
  if parent then [EIsFile (serviceFile o); EOpenRead (serviceFile o)]
  else [EIsFile (serviceFile o); EOpenRead (serviceFile o);
        EIsFile (linkFile_compiler o); EOpenRead (linkFile_compiler o)].

End Expansion.

(** ** Three ways to describe a computation *)

Section Logic.

Context `{Platform}.

(** [respects I ok c]: from a tool satisfying [I], [c] keeps [I],
    appends only events that are [ok], and when it ends in [sys.exit]
    it does so without a status and right after an error line. *)
Definition respects {A} (I : ohpc_obs_tool → Prop) (ok : event → Prop) (c : M A) : Prop :=
  ∀ w, I (self w) →
    I (self (final c w)) ∧
    (∃ evs, trace (final c w) = (trace w ++ evs)%list ∧ Forall ok evs) ∧
    (∀ arg, result c w = SystemExit arg →
       arg = None ∧ ∃ t m, trace (final c w) = (t ++ [ELog ERROR_level m])%list).

(** [observes π I xs Q c]: from a tool satisfying [I], [c] keeps [I]
    and the events it appends show, through [π], the sequence [xs]: all
    of it when [c] returns, and then the value satisfies [Q]; an initial
    part of it when [c] ends early. *)
Definition observes {X A} (π : event → option X) (I : ohpc_obs_tool → Prop)
    (xs : list X) (Q : A → Prop) (c : M A) : Prop :=
  ∀ w, I (self w) →
    I (self (final c w)) ∧
    ∃ evs, trace (final c w) = (trace w ++ evs)%list ∧
      omap π evs `prefix_of` xs ∧
      ∀ a, result c w = Ret a → omap π evs = xs ∧ Q a.

(** The probes and reads of files among the events. *)
Definition file_access (e : event) : option event :=
  match e with
  | EIsFile _ | EOpenRead _ | EConfigRead _ => Some e
  | _ => None
  end.

(** The tool objects that differ from [o0] in the lock list only. *)
Definition same_config (o0 o : ohpc_obs_tool) : Prop :=
  ∃ b, o = set_buildsToCancel b o0.

(** A simulated process and a real one that agree so far. *)
Definition twin (wd wn : world) : Prop :=
  dryRun (self wd) = true ∧
  self wn = set_dryRun false (self wd) ∧
  decisions (trace wd) = decisions (trace wn).

Definition same_outcome {A B} (RA : A → B → Prop) (o1 : outcome A) (o2 : outcome B) : Prop :=
  match o1, o2 with
  | Ret a, Ret b => RA a b
  | SystemExit x, SystemExit y => x = y
  | Raise e, Raise e' => e = e'
  | _, _ => False
  end.

(** [lockstep RA c1 c2]: run from twins, [c1] and [c2] end the same way
    and leave twins. *)
Definition lockstep {A B} (RA : A → B → Prop) (c1 : M A) (c2 : M B) : Prop :=
  ∀ wd wn, twin wd wn →
    same_outcome RA (result c1 wd) (result c2 wn) ∧ twin (final c1 wd) (final c2 wn).

(** Every remote call succeeds. *)
Definition transport_ok : Prop := ∀ t cmd, is_Some (check_output t cmd).

End Logic.

(** [decides I ds Q c]: [c] takes the decisions [ds], in order. *)
Abbreviation decides := (observes decision_of).

(** ** Further vocabulary *)

(** The two lines that open the lock flush of [n] builds. *)
Definition lock_header (n : nat) : list event :=
  [ELog INFO (Py.nl +:+ "%i new build(s) need to be locked:", [AInt n]);
   ELog INFO ("--> will lock for now and GitHub trigger will unlock on first commit", [])].

(** The line a simulated flush logs for a package. *)
Definition dry_lock_line (package : string) : event :=
  ELog INFO ("--> (dryrun) requesting lock for package: %s", [AStr package]).

Definition creation (d : decision) : option addPackage_args :=
  match d with Create a => Some a | Skip _ => None end.

(** Assigning [d[k] = v] for each of the pairs, in order. *)
Definition dict_fill {V} (d : list (string * V)) (kvs : list (string * V)) : list (string * V) :=
  foldl (λ d kv, dict_set kv.1 kv.2 d) d kvs.

(** The patterns [parseConfig] stores for an architecture, read from the
    option [name] of the section of the version in progress: none when
    the option is absent. *)
Definition skip_patterns `{Platform} (c : ConfigParser) (name : string)
  : option (list string) :=
  if configparser.has_option c version_in_progress name then
    match ast_literal_eval (configparser.get c version_in_progress name) with
    | inr l => Some l
    | inl _ => None
    end
  else None.

(** The line [parseConfig] logs first. *)
Definition reading_line (path : string) : event :=
  ELog INFO (Py.nl +:+ "Reading config information from file = %s", [AStr path]).

(** The error line for global settings that cannot be read. *)
Definition settings_error : event :=
  ELog ERROR_level ("Unable to parse global settings for %s", [AStr version_in_progress]).

(** Not the entry of an [addPackage] call. *)
Definition no_entry (e : event) : Prop :=
  match e with EAddPackage _ => False | _ => True end.

(** [registers c]: [c] appends to the lock list the identities of the
    [addPackage] calls it makes, in order: all of them when it returns,
    all but perhaps the last when it ends early. *)
Definition registers {A} (c : M A) : Prop :=
  ∀ w, ∃ evs locked pending,
    trace (final c w) = (trace w ++ evs)%list ∧
    buildsToCancel (self (final c w)) = (buildsToCancel (self w) ++ locked)%list ∧
    ap_package <$> created evs = (locked ++ pending)%list ∧
    (List.length pending ≤ 1)%nat ∧
    (∀ a, result c w = Ret a → pending = []).

(** [finishes p c]: [c] makes no [addPackage] call and, when it returns,
    has appended [p] to the lock list; the list is untouched when it ends
    early. *)
Definition finishes {A} (p : string) (c : M A) : Prop :=
  ∀ w, ∃ evs,
    trace (final c w) = (trace w ++ evs)%list ∧ created evs = [] ∧
    ((∃ a, result c w = Ret a) →
       buildsToCancel (self (final c w)) = (buildsToCancel (self w) ++ [p])%list) ∧
    ((∀ a, result c w ≠ Ret a) →
       buildsToCancel (self (final c w)) = buildsToCancel (self w)).

(** [quiet c]: no [addPackage] call, and the lock list stays. *)
Definition quiet {A} (c : M A) : Prop :=
  ∀ b, respects (λ o, buildsToCancel o = b) no_entry c.

(** What a run does, its log lines left out. *)
Definition deed (e : event) : option event :=
  match e with ELog _ _ => None | _ => Some e end.

(** The [osc] command that uploads the temporary file [f] as the file
    [name] of [package]. *)
Definition put_command (o : ohpc_obs_tool) (package : string) (f : carg) (name : string)
  : list carg :=
  [Word "osc"; Word "api"; Word "-f"; f; Word "-X"; Word "PUT";
   Word ("/source/" +:+ obsProject o +:+ "/" +:+ package +:+ "/" +:+ name)].

(** The [_service] file of a parent: the template with its three
    placeholders filled in, the hyphens of the group escaped. *)
Definition service_text `{Platform} (o : ohpc_obs_tool) (group pname : string) : string :=
  Py.replace
    (Py.replace
       (Py.replace (file_text (serviceFile o)) "!GROUP!" (Py.replace group "-" "[-]"))
       "!PACKAGE!" pname)
    "!VERSION!" (vip o).

(** The [_link] file of a child. *)
Definition link_text `{Platform} (o : ohpc_obs_tool) (parentName compiler : string) : string :=
  Py.replace
    (Py.replace (Py.replace (file_text (linkFile_compiler o)) "!PACKAGE!" parentName)
       "!COMPILER!" compiler)
    "!PROJECT!" (obsProject o).

(** A configuration file is read only under the name [configFile]. *)
Definition reads_configFile (e : event) : Prop :=
  match e with EConfigRead p => p = configFile | _ => True end.

(** Not a remote call, or the query [osc api -X GET] of some address. *)
Definition read_only (e : event) : Prop :=
  match e with
  | ECheckOutput [Word "osc"; Word "api"; Word "-X"; Word "GET"; Word _] => True
  | ECheckOutput _ => False
  | _ => True
  end.

(** Not a request for a build hold. *)
Definition no_lock (e : event) : Prop :=
  match e with
  | ECheckOutput (Word "osc" :: Word "lock" :: _) => False
  | _ => True
  end.

(** The command that lists the packages of the project. *)
Definition listing_command (o : ohpc_obs_tool) : list carg :=
  [Word "osc"; Word "api"; Word "-X"; Word "GET"; Word ("/source/" +:+ obsProject o)].

(** The line [queryOBSPackages] logs first. *)
Definition listing_line (o : ohpc_obs_tool) : event :=
  ELog INFO ("[queryOBSPackages]: checking for packages currently defined in OBS (%s)",
             [AStr (vip o)]).



(** The exceptions [main] can end in: never an unbound local or a
    missing section or option, and a [TypeError] only right after the
    probe of a file that is not there. *)
Definition expected_exception `{Platform} (e : exn) (w : world) : Prop :=
  match e with
  | AssertionError | LiteralEvalError | ValueError | XMLParseError | ReError => True
  | TypeError => ∃ t path, trace w = (t ++ [EIsFile path])%list ∧ isfile path = false
  | UnboundLocalError | NoSectionError | NoOptionError => False
  end.

(** The tool of a process that went through [__init__]. *)
Definition initialised (o : ohpc_obs_tool) : Prop := vip o = version_in_progress.

(** [throws c]: from an initialised tool, [c] leaves one, and the
    exception it ends in, if any, is an expected one. *)
Definition throws `{Platform} {A} (c : M A) : Prop :=
  ∀ w, initialised (self w) →
    initialised (self (final c w)) ∧
    ∀ e, result c w = Raise e → expected_exception e (final c w).

(** * Reasoning about runs *)

Section Rules.

Context `{Platform}.

Lemma decisions_app (t1 t2 : list event) :
  decisions (t1 ++ t2) = (decisions t1 ++ decisions t2)%list.
Proof. apply omap_app. Qed.

Lemma created_app (t1 t2 : list event) :
  created (t1 ++ t2) = (created t1 ++ created t2)%list.
Proof. apply omap_app. Qed.

Lemma remote_calls_app (t1 t2 : list event) :
  remote_calls (t1 ++ t2) = (remote_calls t1 ++ remote_calls t2)%list.
Proof. apply omap_app. Qed.

Lemma events_of {A} (c : M A) (w : world) (evs : list event) :
  trace (final c w) = (trace w ++ evs)%list → events c w = evs.
Proof. intros E. unfold events. rewrite E. apply drop_app_length. Qed.

Lemma trace_refl (w : world) : trace w = (trace w ++ [])%list.
Proof. by rewrite app_nil_r. Qed.

(** *** Rules for [respects] *)

Section Respects.

Variable I : ohpc_obs_tool → Prop.
Variable ok : event → Prop.

Lemma respects_ret {A} (a : A) : respects I ok (ret a).
Proof.
  intros w HI. cbn. split; [exact HI|]. split; [|intros ? [=]].
  exists []. split; [apply trace_refl | constructor].
Qed.

Lemma respects_bind {A B} (c : M A) (k : A → M B) :
  respects I ok c → (∀ a, respects I ok (k a)) → respects I ok (bind c k).
Proof.
  intros Hc Hk w HI. destruct (Hc w HI) as (HI1 & (evs1 & E1 & F1) & X1).
  unfold result, final, bind in *.
  destruct (c w) as [[a|arg|e] w1]; cbn in *.
  - destruct (Hk a w1 HI1) as (HI2 & (evs2 & E2 & F2) & X2).
    unfold result, final in *. split; [exact HI2|]. split; [|exact X2].
    exists (evs1 ++ evs2)%list. rewrite E2, E1, app_assoc, Forall_app. auto.
  - split; [exact HI1|]. split; [eauto|].
    intros ? [= <-]. exact (X1 _ eq_refl).
  - split; [exact HI1|]. split; [eauto|intros ? [=]].
Qed.

Lemma respects_emit (e : event) : ok e → respects I ok (emit e).
Proof.
  intros He w HI. cbn. split; [exact HI|]. split; [|intros ? [=]].
  exists [e]. split; [done|]. by constructor.
Qed.

Lemma respects_get_self {B} (k : ohpc_obs_tool → M B) :
  (∀ o, I o → respects I ok (k o)) → respects I ok (bind get_self k).
Proof. intros Hk w HI. exact (Hk (self w) HI w HI). Qed.

Lemma respects_update (f : ohpc_obs_tool → ohpc_obs_tool) :
  (∀ o, I o → I (f o)) → respects I ok (update f).
Proof.
  intros Hf w HI. cbn. split; [auto|]. split; [|intros ? [=]].
  exists []. split; [apply trace_refl | constructor].
Qed.

Lemma respects_raise {A} (e : exn) : respects I ok (raise (A:=A) e).
Proof.
  intros w HI. cbn. split; [exact HI|]. split; [|intros ? [=]].
  exists []. split; [apply trace_refl | constructor].
Qed.

Lemma respects_lift {A} (r : exn + A) : respects I ok (lift r).
Proof. destruct r; [apply respects_raise | apply respects_ret]. Qed.

Lemma respects_pct (fmt : string) (args : list pyarg) : respects I ok (fmt %% args).
Proof. unfold pct. case_match; [apply respects_ret | apply respects_raise]. Qed.

Lemma respects_ERROR {A} (m : message) :
  ok (ELog ERROR_level m) → respects I ok (ERROR (A:=A) m).
Proof.
  intros He w HI. cbn. split; [exact HI|]. split.
  - exists [ELog ERROR_level m]. split; [done|]. by constructor.
  - intros arg [= <-]. eauto.
Qed.

Lemma respects_try_except {A} (body handler : M A) :
  respects I ok body → respects I ok handler → respects I ok (try_except body handler).
Proof.
  intros Hb Hh w HI. destruct (Hb w HI) as (HI1 & (evs1 & E1 & F1) & X1).
  unfold result, final, try_except in *.
  destruct (body w) as [[a|arg|e] w1]; cbn in *.
  - split; [exact HI1|]. split; [eauto|intros ? [=]].
  - destruct (Hh w1 HI1) as (HI2 & (evs2 & E2 & F2) & X2).
    unfold result, final in *. split; [exact HI2|]. split; [|exact X2].
    exists (evs1 ++ evs2)%list. rewrite E2, E1, app_assoc, Forall_app. auto.
  - destruct (Hh w1 HI1) as (HI2 & (evs2 & E2 & F2) & X2).
    unfold result, final in *. split; [exact HI2|]. split; [|exact X2].
    exists (evs1 ++ evs2)%list. rewrite E2, E1, app_assoc, Forall_app. auto.
Qed.

Lemma respects_for_each {A} (l : list A) (body : A → M unit) :
  (∀ x, respects I ok (body x)) → respects I ok (for_each l body).
Proof.
  intros Hb. induction l as [|x l IH]; cbn.
  - apply respects_ret.
  - apply respects_bind; auto.
Qed.

Lemma respects_check_output (cmd : list carg) :
  ok (ECheckOutput cmd) → respects I ok (subprocess_check_output cmd).
Proof.
  intros He w HI. cbn. split; [exact HI|]. split; [|intros ? [=]].
  exists [ECheckOutput cmd]. split; [done|]. by constructor.
Qed.

End Respects.

(** *** Rules for [observes] *)

Section Observes.

Context {X : Type} (π : event → option X).
Variable I : ohpc_obs_tool → Prop.

Lemma observes_ret {A} (Q : A → Prop) (a : A) : Q a → observes π I [] Q (ret a).
Proof.
  intros HQ w HI. cbn. split; [exact HI|].
  exists []. split; [apply trace_refl|]. split; [apply prefix_nil|].
  intros ? [= <-]. done.
Qed.

Lemma observes_bind {A B} (ds1 ds2 : list X) (Q : A → Prop) (R : B → Prop)
    (c : M A) (k : A → M B) :
  observes π I ds1 Q c → (∀ a, Q a → observes π I ds2 R (k a)) →
  observes π I (ds1 ++ ds2) R (bind c k).
Proof.
  intros Hc Hk w HI. destruct (Hc w HI) as (HI1 & evs1 & E1 & P1 & V1).
  unfold result, final, bind in *.
  destruct (c w) as [[a|arg|e] w1]; cbn in *.
  - destruct (V1 a eq_refl) as [D1 HQ].
    destruct (Hk a HQ w1 HI1) as (HI2 & evs2 & E2 & P2 & V2).
    unfold result, final in *. split; [exact HI2|].
    exists (evs1 ++ evs2)%list. rewrite E2, E1, app_assoc. split; [done|].
    rewrite omap_app, D1. split; [by apply prefix_app|].
    intros b Hb. destruct (V2 b Hb) as [D2 HR]. by rewrite D2.
  - split; [exact HI1|]. exists evs1. split; [done|].
    split; [by apply prefix_app_r | intros ? [=]].
  - split; [exact HI1|]. exists evs1. split; [done|].
    split; [by apply prefix_app_r | intros ? [=]].
Qed.

Lemma observes_weaken {A} (ds : list X) (Q Q' : A → Prop) (c : M A) :
  (∀ a, Q a → Q' a) → observes π I ds Q c → observes π I ds Q' c.
Proof.
  intros HQ Hc w HI. destruct (Hc w HI) as (HI1 & evs1 & E1 & P1 & V1).
  split; [exact HI1|]. exists evs1. split; [done|]. split; [done|].
  intros a Ha. destruct (V1 a Ha). auto.
Qed.

Lemma observes_silent_bind {A B} (ds : list X) (Q : A → Prop) (R : B → Prop)
    (c : M A) (k : A → M B) :
  observes π I [] Q c → (∀ a, Q a → observes π I ds R (k a)) → observes π I ds R (bind c k).
Proof. apply (observes_bind [] ds). Qed.

Lemma observes_bind_silent {A B} (ds : list X) (Q : A → Prop) (R : B → Prop)
    (c : M A) (k : A → M B) :
  observes π I ds Q c → (∀ a, Q a → observes π I [] R (k a)) → observes π I ds R (bind c k).
Proof. intros Hc Hk. rewrite <- (app_nil_r ds). by eapply observes_bind. Qed.

Lemma observes_emit (e : event) (d : X) :
  π e = Some d → observes π I [d] (λ _, True) (emit e).
Proof.
  intros He w HI. cbn. split; [exact HI|].
  exists [e]. split; [done|]. cbn. rewrite He. cbn. done.
Qed.

Lemma observes_emit_silent (e : event) :
  π e = None → observes π I [] (λ _, True) (emit e).
Proof.
  intros He w HI. cbn. split; [exact HI|].
  exists [e]. split; [done|]. cbn. rewrite He. cbn. done.
Qed.

Lemma observes_get_self : observes π I [] I get_self.
Proof.
  intros w HI. cbn. split; [exact HI|].
  exists []. split; [apply trace_refl|]. split; [apply prefix_nil|].
  intros ? [= <-]. done.
Qed.

Lemma observes_update (f : ohpc_obs_tool → ohpc_obs_tool) :
  (∀ o, I o → I (f o)) → observes π I [] (λ _, True) (update f).
Proof.
  intros Hf w HI. cbn. split; [auto|].
  exists []. split; [apply trace_refl|]. split; [apply prefix_nil|]. done.
Qed.

Lemma observes_raise {A} (ds : list X) (Q : A → Prop) (e : exn) :
  observes π I ds Q (raise e).
Proof.
  intros w HI. cbn. split; [exact HI|].
  exists []. split; [apply trace_refl|]. split; [apply prefix_nil|]. intros ? [=].
Qed.

Lemma observes_ERROR {A} (ds : list X) (Q : A → Prop) (m : message) :
  π (ELog ERROR_level m) = None → observes π I ds Q (ERROR m).
Proof.
  intros He w HI. cbn. split; [exact HI|].
  exists [ELog ERROR_level m]. split; [done|]. cbn. rewrite He.
  split; [apply prefix_nil|]. intros ? [=].
Qed.

Lemma observes_lift {A} (r : exn + A) : observes π I [] (λ a, r = inr a) (lift r).
Proof. destruct r; [apply observes_raise | by apply observes_ret]. Qed.

Lemma observes_pct (fmt : string) (args : list pyarg) :
  observes π I [] (λ m, m = (fmt, args)) (fmt %% args).
Proof. unfold pct. case_match; [by apply observes_ret | apply observes_raise]. Qed.

Lemma observes_check_output (cmd : list carg) :
  π (ECheckOutput cmd) = None →
  observes π I [] (λ _, True) (subprocess_check_output cmd).
Proof.
  intros He w HI. cbn. split; [exact HI|].
  exists [ECheckOutput cmd]. split; [done|]. cbn. rewrite He. done.
Qed.

Lemma observes_for_each {A} (f : A → list X) (l : list A) (body : A → M unit) :
  (∀ x, observes π I (f x) (λ _, True) (body x)) →
  observes π I (l ≫= f) (λ _, True) (for_each l body).
Proof.
  intros Hb. induction l as [|x l IH]; cbn.
  - by apply observes_ret.
  - eapply observes_bind; [apply Hb | intros _ _; apply IH].
Qed.

End Observes.

End Rules.

Section ObservesDerived.

Context `{Platform}.

Lemma observes_ret_top {X} (π : event → option X) I {A} (a : A) : observes π I [] (λ _, True) (ret a).
Proof. by apply observes_ret. Qed.

Lemma observes_lift_top {X} (π : event → option X) I {A} (r : exn + A) : observes π I [] (λ _, True) (lift r).
Proof. eapply observes_weaken; [|apply observes_lift]. done. Qed.

Lemma observes_then {X} (π : event → option X) I {A B} (ds : list X) (R : B → Prop) (c : M A) (k : A → M B) :
  observes π I [] (λ _, True) c → (∀ a, observes π I ds R (k a)) → observes π I ds R (bind c k).
Proof. intros Hc Hk. eapply observes_silent_bind; [exact Hc | auto]. Qed.

Lemma observes_pct_then {X} (π : event → option X) I {B} (ds : list X) (R : B → Prop) fmt args (k : message → M B) :
  observes π I ds R (k (fmt, args)) → observes π I ds R (bind (fmt %% args) k).
Proof.
  intros Hk. eapply observes_silent_bind; [apply observes_pct|]. by intros ? ->.
Qed.

Lemma observes_self_then {X} (π : event → option X) I {B} (ds : list X) (R : B → Prop) (k : ohpc_obs_tool → M B) :
  (∀ o, I o → observes π I ds R (k o)) → observes π I ds R (bind get_self k).
Proof. intros Hk. eapply observes_silent_bind; [apply observes_get_self | exact Hk]. Qed.

Lemma same_config_refl o : same_config o o.
Proof. exists (buildsToCancel o). by destruct o. Qed.

Lemma same_config_set o0 o b : same_config o0 o → same_config o0 (set_buildsToCancel b o).
Proof. intros [b' ->]. by exists b. Qed.

End ObservesDerived.

(** [silent] settles [observes] for computations that show nothing. *)
Ltac silent :=
  lazymatch goal with
  | |- observes _ _ _ _ (bind get_self _) => apply observes_self_then; intros ? ?; silent
  | |- observes _ _ _ _ (bind (pct _ _) _) => apply observes_pct_then; silent
  | |- observes _ _ _ _ (bind _ _) => apply observes_then; [silent | intros ?; silent]
  | |- observes _ _ _ _ (ret _) => apply observes_ret_top
  | |- observes _ _ _ _ (emit _) => apply observes_emit_silent; reflexivity
  | |- observes _ _ _ _ (logging_info _) => apply observes_emit_silent; reflexivity
  | |- observes _ _ _ _ (raise _) => apply observes_raise
  | |- observes _ _ _ _ (ERROR _) => apply observes_ERROR; reflexivity
  | |- observes _ _ _ _ (lift _) => apply observes_lift_top
  | |- observes _ _ _ _ (subprocess_check_output _) => apply observes_check_output; reflexivity
  | |- observes _ _ _ _ (update _) =>
      apply observes_update; intros ? ?; try (apply same_config_set; assumption)
  | |- observes _ _ _ _ (os_path_isfile _) => unfold os_path_isfile; silent
  | |- observes _ _ _ _ (open_read _) => unfold open_read; silent
  | |- observes _ _ _ _ (NamedTemporaryFile _) => unfold NamedTemporaryFile; silent
  | |- observes _ _ _ _ (checkPackageGroup _) => unfold checkPackageGroup; silent
  | |- observes _ _ _ _ (addPackage_meta _ _) => unfold addPackage_meta; silent
  | |- observes _ _ _ _ (if ?b then _ else _) => destruct b; silent
  | |- observes _ _ _ _ (match ?x with _ => _ end) => destruct x; silent
  | |- _ => idtac
  end.

Section Decisions.

Context `{Platform}.

Lemma addPackage_decides o0 package parent isCompilerDep compiler parentName gitName :
  decides (same_config o0)
    [Create (AddPackage package parent isCompilerDep compiler parentName gitName)]
    (λ _, True)
    (addPackage package parent isCompilerDep compiler parentName gitName).
Proof.
  unfold addPackage.
  eapply observes_bind_silent; [by apply observes_emit|]. intros _ _.
  silent.
Qed.

Lemma observes_for_each_silent {X} (π : event → option X) I {A} (l : list A) (body : A → M unit) :
  (∀ x, observes π I [] (λ _, True) (body x)) →
  observes π I [] (λ _, True) (for_each l body).
Proof.
  intros Hb. induction l as [|x l IH]; cbn.
  - apply observes_ret_top.
  - apply observes_then; auto.
Qed.

Lemma cancelNewBuilds_decides o0 :
  decides (same_config o0) [] (λ _, True) cancelNewBuilds.
Proof.
  unfold cancelNewBuilds. apply observes_self_then. intros o Ho.
  destruct (Nat.eqb _ _); [silent|].
  apply observes_pct_then. apply observes_then; [silent|]. intros _.
  apply observes_then; [silent|]. intros _.
  apply observes_for_each_silent. intros package. silent.
Qed.

Lemma main_standalone_decides o0 obsPackages package :
  decides (same_config o0)
    [decide_entry obsPackages (AddPackage package true false None None None)]
    (λ _, True)
    (main_standalone obsPackages package).
Proof.
  unfold main_standalone, decide_entry. cbn [ap_package]. case_bool_decide.
  - apply observes_pct_then. by apply observes_emit.
  - apply observes_pct_then. apply observes_then; [silent|]. intros _.
    apply addPackage_decides.
Qed.

Lemma getParentCompiler_decides o0 :
  decides (same_config o0) [] (λ pc, pc = parentCompiler o0) getParentCompiler.
Proof.
  unfold getParentCompiler. apply observes_self_then. intros o [b ->].
  by apply observes_ret.
Qed.

Lemma queryCompilers_decides o0 package :
  decides (same_config o0) [] (λ l, l = resolved_compilers o0 package)
    (queryCompilers package).
Proof.
  unfold queryCompilers, resolved_compilers. apply observes_self_then. intros o [b ->].
  cbn [set_buildsToCancel buildConfig vip compilerFamilies].
  destruct (configparser.has_option _ _ _); [|by apply observes_ret].
  eapply observes_silent_bind; [apply observes_lift|]. intros l ->.
  apply observes_pct_then. apply observes_then; [silent|]. intros _.
  apply observes_pct_then. apply observes_then; [silent|]. intros _.
  by apply observes_ret.
Qed.

Lemma children_bind o obsPackages package (compilers : list string) :
  compilers ≫= (λ compiler,
    if String.eqb compiler (parentCompiler o) then []
    else [decide_entry obsPackages (child_entry o package compiler)])
  = decide_entry obsPackages <$> children o package compilers.
Proof.
  unfold children. induction compilers as [|c l IH]; [done|].
  rewrite bind_cons, IH, filter_cons.
  destruct (String.eqb_spec c (parentCompiler o)) as [->|Hne].
  - by rewrite decide_False by auto.
  - by rewrite decide_True by auto.
Qed.

Lemma main_compiler_dep_decides o0 obsPackages package :
  decides (same_config o0)
    (decide_entry obsPackages <$>
       (parent_entry o0 package :: children o0 package (resolved_compilers o0 package)))
    (λ _, True)
    (main_compiler_dep obsPackages package).
Proof.
  unfold main_compiler_dep.
  eapply observes_silent_bind; [apply getParentCompiler_decides|]. intros ? ->.
  eapply observes_silent_bind; [apply queryCompilers_decides|]. intros ? ->.
  rewrite fmap_cons, <- children_bind.
  eapply (observes_bind _ _ [_] _ (λ _, True)).
  - unfold decide_entry, parent_entry, parent_identity. cbn [ap_package].
    case_bool_decide.
    + apply observes_pct_then. by apply observes_emit.
    + apply observes_pct_then. apply observes_then; [silent|]. intros _.
      apply addPackage_decides.
  - intros _ _. apply observes_for_each. intros compiler.
    eapply observes_silent_bind; [apply getParentCompiler_decides|]. intros ? ->.
    destruct (String.eqb _ _); [apply observes_ret_top|].
    unfold decide_entry, child_entry, parent_identity. cbn [ap_package].
    case_bool_decide.
    + apply observes_pct_then. by apply observes_emit.
    + apply observes_pct_then. apply observes_then; [silent|]. intros _.
      apply addPackage_decides.
Qed.

Lemma isStandalone_decides o0 package :
  decides (same_config o0) []
    (λ b, ∃ c m, compiler_dep_flag o0 package = inr c ∧ mpi_dep_flag o0 package = inr m ∧
                 b = negb (c || m))
    (isStandalone package).
Proof.
  unfold isStandalone. apply observes_self_then. intros o [b ->].
  cbn [set_buildsToCancel buildConfig vip].
  eapply observes_silent_bind; [apply observes_lift|]. intros c Hc.
  eapply observes_silent_bind; [apply observes_lift|]. intros m Hm.
  destruct (c || m) eqn:E; apply observes_ret; exists c, m; rewrite E; done.
Qed.

Lemma isCompilerDep_decides o0 package :
  decides (same_config o0) []
    (λ b, ∃ c m, compiler_dep_flag o0 package = inr c ∧ mpi_dep_flag o0 package = inr m ∧
                 b = c && negb m)
    (isCompilerDep package).
Proof.
  unfold isCompilerDep. apply observes_self_then. intros o [b ->].
  cbn [set_buildsToCancel buildConfig vip].
  eapply observes_silent_bind; [apply observes_lift|]. intros c Hc.
  eapply observes_silent_bind; [apply observes_lift|]. intros m Hm.
  destruct (c && negb m) eqn:E; apply observes_ret; exists c, m; rewrite E; done.
Qed.

Lemma isMPIDep_decides o0 package :
  decides (same_config o0) []
    (λ b, mpi_dep_flag o0 package = inr b)
    (isMPIDep package).
Proof.
  unfold isMPIDep. apply observes_self_then. intros o [b ->].
  cbn [set_buildsToCancel buildConfig vip].
  eapply observes_silent_bind; [apply observes_lift|]. intros m Hm.
  destruct m; by apply observes_ret.
Qed.

Lemma main_package_decides o0 obsPackages package :
  decides (same_config o0) (decide_entry obsPackages <$> expand o0 package) (λ _, True)
    (main_package obsPackages package).
Proof.
  unfold main_package.
  eapply observes_silent_bind; [apply isStandalone_decides|].
  intros ? (c & m & Hc & Hm & ->).
  unfold expand. fold (compiler_dep_flag o0 package) (mpi_dep_flag o0 package).
  rewrite Hc, Hm.
  destruct c, m; cbn [orb negb].
  - eapply observes_silent_bind; [apply isCompilerDep_decides|].
    intros ? (c' & m' & Hc' & Hm' & ->).
    assert (c' = true ∧ m' = true) as [-> ->] by (split; congruence). cbn [andb negb].
    eapply observes_silent_bind; [apply isMPIDep_decides|].
    intros m'' Hm''. assert (m'' = true) as -> by congruence.
    unfold main_mpi_dep. silent.
  - eapply observes_silent_bind; [apply isCompilerDep_decides|].
    intros ? (c' & m' & Hc' & Hm' & ->).
    assert (c' = true ∧ m' = false) as [-> ->] by (split; congruence). cbn [andb negb].
    apply main_compiler_dep_decides.
  - eapply observes_silent_bind; [apply isCompilerDep_decides|].
    intros ? (c' & m' & Hc' & Hm' & ->).
    assert (c' = false ∧ m' = true) as [-> ->] by (split; congruence). cbn [andb negb].
    eapply observes_silent_bind; [apply isMPIDep_decides|].
    intros m'' Hm''. assert (m'' = true) as -> by congruence.
    unfold main_mpi_dep. silent.
  - apply main_standalone_decides.
Qed.

Lemma main_reconcile_decides o0 components obsPackages :
  decides (same_config o0) (expected o0 components obsPackages) (λ _, True)
    (main_reconcile components obsPackages).
Proof.
  unfold main_reconcile, expected.
  apply observes_then; [silent|]. intros _.
  eapply observes_bind_silent.
  - apply observes_for_each. intros package. apply main_package_decides.
  - intros _ _. apply cancelNewBuilds_decides.
Qed.

End Decisions.

Section RespectsDerived.

Context `{Platform}.

Lemma respects_pct_then I ok {B} fmt args (k : message → M B) :
  respects I ok (k (fmt, args)) → respects I ok (bind (fmt %% args) k).
Proof.
  intros Hk. unfold pct. case_match; [exact Hk|].
  exact (respects_raise I ok (A:=B) TypeError).
Qed.

End RespectsDerived.

(** [respect tac] walks through a computation; [tac] settles what is
    asked of each event and of each assignment to the tool. *)
Ltac respect tac :=
  try match goal with
      | Hd : dryRun ?o = true |- respects _ _ _ => rewrite Hd; cbn [negb]
      end;
  lazymatch goal with
  | |- respects _ _ (bind get_self _) => apply respects_get_self; intros ? ?; respect tac
  | |- respects _ _ (bind (pct _ _) _) => apply respects_pct_then; respect tac
  | |- respects _ _ (bind _ _) => apply respects_bind; [respect tac | intros ?; respect tac]
  | |- respects _ _ (ret _) => apply respects_ret
  | |- respects _ _ (emit _) => apply respects_emit; tac
  | |- respects _ _ (logging_info _) => apply respects_emit; tac
  | |- respects _ _ (logging_error _) => apply respects_emit; tac
  | |- respects _ _ (raise _) => apply respects_raise
  | |- respects _ _ (ERROR _) => apply respects_ERROR; tac
  | |- respects _ _ (lift _) => apply respects_lift
  | |- respects _ _ (pct _ _) => apply respects_pct
  | |- respects _ _ (subprocess_check_output _) => apply respects_check_output; tac
  | |- respects _ _ (update _) => apply respects_update; intros ? ?; tac
  | |- respects _ _ (try_except _ _) => apply respects_try_except; respect tac
  | |- respects _ _ (for_each _ _) => apply respects_for_each; intros ?; respect tac
  | |- respects _ _ (os_path_isfile _) => unfold os_path_isfile; respect tac
  | |- respects _ _ (open_read _) => unfold open_read; respect tac
  | |- respects _ _ (NamedTemporaryFile _) => unfold NamedTemporaryFile; respect tac
  | |- respects _ _ (checkPackageGroup _) => unfold checkPackageGroup; respect tac
  | |- respects _ _ (addPackage_meta _ _) => unfold addPackage_meta; respect tac
  | |- respects _ _ (getParentCompiler) => unfold getParentCompiler; respect tac
  | |- respects _ _ (queryCompilers _) => unfold queryCompilers; respect tac
  | |- respects _ _ (isStandalone _) => unfold isStandalone; respect tac
  | |- respects _ _ (isCompilerDep _) => unfold isCompilerDep; respect tac
  | |- respects _ _ (isMPIDep _) => unfold isMPIDep; respect tac
  | |- respects _ _ (overrideDryRun) => unfold overrideDryRun; respect tac
  | |- respects _ _ (log_families _) => unfold log_families; respect tac
  | |- respects _ _ init => unfold init; respect tac
  | |- respects _ _ (parseConfig _) => unfold parseConfig; respect tac
  | |- respects _ _ queryOBSPackages => unfold queryOBSPackages; respect tac
  | |- respects _ _ (main_mpi_dep _) => unfold main_mpi_dep; respect tac
  | |- respects _ _ main_unsupported => unfold main_unsupported; respect tac
  | |- respects _ _ (if ?b then _ else _) => destruct b; respect tac
  | |- respects _ _ (match ?x with _ => _ end) => destruct x; respect tac
  | |- _ => tac
  end.

Section DryRun.

Context `{Platform}.

Lemma addPackage_dry package parent isCompilerDep compiler parentName gitName :
  respects (λ o, dryRun o = true) not_remote
    (addPackage package parent isCompilerDep compiler parentName gitName).
Proof. unfold addPackage. respect ltac:(by (unfold not_remote; cbn; tauto)). Qed.

Lemma cancelNewBuilds_dry :
  respects (λ o, dryRun o = true) not_remote cancelNewBuilds.
Proof. unfold cancelNewBuilds. respect ltac:(by (unfold not_remote; cbn; tauto)). Qed.

Lemma main_package_dry obsPackages package :
  respects (λ o, dryRun o = true) not_remote (main_package obsPackages package).
Proof.
  unfold main_package, main_standalone, main_compiler_dep, main_mpi_dep, main_unsupported.
  respect ltac:(first [apply addPackage_dry | by (unfold not_remote; cbn; tauto)]).
Qed.

Lemma main_reconcile_dry components obsPackages :
  respects (λ o, dryRun o = true) not_remote (main_reconcile components obsPackages).
Proof.
  unfold main_reconcile.
  respect ltac:(first [apply main_package_dry | apply cancelNewBuilds_dry | by (unfold not_remote; cbn; tauto)]).
Qed.

End DryRun.

Section LockstepRules.

Context `{Platform}.

Lemma decisions_one (e : event) :
  decisions [e] = match decision_of e with Some d => [d] | None => [] end.
Proof. reflexivity. Qed.

Lemma lockstep_ret {A} (a : A) : lockstep eq (ret a) (ret a).
Proof. intros wd wn Hw. by cbn. Qed.

Lemma lockstep_bind {A1 A2 B1 B2} (RA : A1 → A2 → Prop) (RB : B1 → B2 → Prop)
    (c1 : M A1) (c2 : M A2) (k1 : A1 → M B1) (k2 : A2 → M B2) :
  lockstep RA c1 c2 → (∀ a b, RA a b → lockstep RB (k1 a) (k2 b)) →
  lockstep RB (bind c1 k1) (bind c2 k2).
Proof.
  intros Hc Hk wd wn Hw. destruct (Hc wd wn Hw) as [Ho Hw'].
  unfold result, final, bind in *.
  destruct (c1 wd) as [[a|x|e] wd'], (c2 wn) as [[b|y|e'] wn']; cbn in *; try done.
  exact (Hk a b Ho wd' wn' Hw').
Qed.

Lemma lockstep_emit (e : event) : lockstep eq (emit e) (emit e).
Proof.
  intros wd wn (Hd & Hs & Ht). cbn. split; [done|].
  split; [done|]. split; [done|]. cbn. by rewrite !decisions_app, Ht.
Qed.

Lemma lockstep_get_self :
  lockstep (λ o1 o2, dryRun o1 = true ∧ o2 = set_dryRun false o1) get_self get_self.
Proof. intros wd wn (Hd & Hs & Ht). cbn. done. Qed.

Lemma lockstep_update (f : ohpc_obs_tool → ohpc_obs_tool) :
  (∀ o, dryRun o = true →
        dryRun (f o) = true ∧ f (set_dryRun false o) = set_dryRun false (f o)) →
  lockstep eq (update f) (update f).
Proof.
  intros Hf wd wn (Hd & Hs & Ht). cbn. destruct (Hf _ Hd) as [Hd' Hs'].
  split; [done|]. split; [done|]. split; [|done]. cbn. by rewrite Hs.
Qed.

Lemma lockstep_raise {A} (e : exn) : lockstep (@eq A) (raise e) (raise e).
Proof. intros wd wn Hw. by cbn. Qed.

Lemma lockstep_ERROR {A} (m : message) : lockstep (@eq A) (ERROR m) (ERROR m).
Proof.
  intros wd wn (Hd & Hs & Ht). cbn. split; [done|].
  split; [done|]. split; [done|]. cbn. by rewrite !decisions_app, Ht.
Qed.

Lemma lockstep_lift {A} (r : exn + A) : lockstep eq (lift r) (lift r).
Proof. destruct r; [apply lockstep_raise | apply lockstep_ret]. Qed.

Lemma lockstep_pct fmt args : lockstep eq (fmt %% args) (fmt %% args).
Proof. unfold pct. case_match; [apply lockstep_ret | apply lockstep_raise]. Qed.

Lemma lockstep_for_each {A} (l : list A) (b1 b2 : A → M unit) :
  (∀ x, lockstep eq (b1 x) (b2 x)) → lockstep eq (for_each l b1) (for_each l b2).
Proof.
  intros Hb. induction l as [|x l IH]; cbn.
  - apply lockstep_ret.
  - eapply lockstep_bind; [apply Hb | intros _ _ _; apply IH].
Qed.

(** A line that only the simulated run logs. *)
Lemma lockstep_dry_log fmt args :
  Nat.eqb (Py.specifiers fmt) (length args) = true →
  decision_of (ELog INFO (fmt, args)) = None →
  lockstep eq (bind (fmt %% args) (λ m, logging_info m)) (ret tt).
Proof.
  intros Hf Hn wd wn (Hd & Hs & Ht). unfold pct. rewrite Hf. cbn.
  split; [done|]. split; [done|]. split; [done|]. cbn [trace].
  by rewrite decisions_app, decisions_one, Hn, app_nil_r.
Qed.

Lemma lockstep_dry_line m :
  decision_of (ELog INFO m) = None → lockstep eq (logging_info m) (ret tt).
Proof.
  intros Hn wd wn (Hd & Hs & Ht). cbn.
  split; [done|]. split; [done|]. split; [done|]. cbn [trace].
  by rewrite decisions_app, decisions_one, Hn, app_nil_r.
Qed.

(** A call that only the real run makes, and that succeeds. *)
Lemma lockstep_real_call (cmd : list carg) (h : M unit) :
  transport_ok →
  lockstep eq (ret tt)
    (bind (subprocess_check_output cmd)
          (λ s, match s with Some _ => ret tt | None => h end)).
Proof.
  intros Hok wd wn (Hd & Hs & Ht). unfold result, final, bind, subprocess_check_output.
  destruct (Hok (trace wn) cmd) as [s ->]. cbn.
  split; [done|]. split; [done|]. split; [done|]. cbn [trace].
  rewrite decisions_app. cbn. by rewrite app_nil_r.
Qed.

End LockstepRules.

(** The attributes of a tool whose [dryRun] was set. *)
Ltac read_through_set_dryRun :=
  cbn [set_dryRun vip buildConfig parentCompiler parentMPI dryRun buildsToCancel
       branchVer microVer obsProject serviceFile linkFile_compiler compilerFamilies
       MPIFamilies NoBuildPatterns groups negb].

(** [ls Hok] walks through a computation run in both modes; [Hok] says
    that remote calls succeed. *)
Ltac ls Hok :=
  lazymatch goal with
  | |- lockstep _ (bind get_self _) (bind get_self _) =>
      eapply lockstep_bind; [apply lockstep_get_self|];
      let Hd := fresh "Hd" in
      intros ? ? [Hd ->];
      read_through_set_dryRun;
      try rewrite Hd; cbn [negb]; ls Hok
  | |- lockstep _ (bind (bind (pct _ _) _) _) (bind (ret tt) _) =>
      eapply lockstep_bind; [apply lockstep_dry_log; reflexivity | intros ? ? _; ls Hok]
  | |- lockstep _ (bind (ret tt) _) (bind (bind (subprocess_check_output _) _) _) =>
      eapply lockstep_bind; [apply lockstep_real_call; exact Hok | intros ? ? _; ls Hok]
  | |- lockstep _ (bind (logging_info _) _) (bind (ret tt) _) =>
      eapply lockstep_bind; [apply lockstep_dry_line; reflexivity | intros ? ? _; ls Hok]
  | |- lockstep _ (bind (pct _ _) (λ m, logging_info m)) (ret tt) =>
      apply lockstep_dry_log; reflexivity
  | |- lockstep _ (ret tt) (bind (subprocess_check_output _) _) =>
      apply lockstep_real_call; exact Hok
  | |- lockstep _ (logging_info _) (ret tt) => apply lockstep_dry_line; reflexivity
  | |- lockstep _ (bind _ _) (bind _ _) =>
      eapply lockstep_bind; [ls Hok | intros ? ? <-; ls Hok]
  | |- lockstep _ (ret _) (ret _) => apply lockstep_ret
  | |- lockstep _ (emit _) (emit _) => apply lockstep_emit
  | |- lockstep _ (logging_info _) (logging_info _) => apply lockstep_emit
  | |- lockstep _ (logging_error _) (logging_error _) => apply lockstep_emit
  | |- lockstep _ (raise _) (raise _) => apply lockstep_raise
  | |- lockstep _ (ERROR _) (ERROR _) => apply lockstep_ERROR
  | |- lockstep _ (lift _) (lift _) => apply lockstep_lift
  | |- lockstep _ (pct _ _) (pct _ _) => apply lockstep_pct
  | |- lockstep _ (update _) (update _) =>
      apply lockstep_update; intros ? ?; split; [by cbn | reflexivity]
  | |- lockstep _ (for_each _ _) (for_each _ _) =>
      apply lockstep_for_each; intros ?; ls Hok
  | |- lockstep _ (os_path_isfile _) (os_path_isfile _) => unfold os_path_isfile; ls Hok
  | |- lockstep _ (open_read _) (open_read _) => unfold open_read; ls Hok
  | |- lockstep _ (NamedTemporaryFile _) (NamedTemporaryFile _) =>
      unfold NamedTemporaryFile; ls Hok
  | |- lockstep _ (checkPackageGroup _) (checkPackageGroup _) =>
      unfold checkPackageGroup; ls Hok
  | |- lockstep _ (addPackage_meta _ _) (addPackage_meta _ _) =>
      unfold addPackage_meta, disableBuild; read_through_set_dryRun; ls Hok
  | |- lockstep _ getParentCompiler getParentCompiler => unfold getParentCompiler; ls Hok
  | |- lockstep _ (queryCompilers _) (queryCompilers _) => unfold queryCompilers; ls Hok
  | |- lockstep _ (isStandalone _) (isStandalone _) => unfold isStandalone; ls Hok
  | |- lockstep _ (isCompilerDep _) (isCompilerDep _) => unfold isCompilerDep; ls Hok
  | |- lockstep _ (isMPIDep _) (isMPIDep _) => unfold isMPIDep; ls Hok
  | |- lockstep _ (if ?b then _ else _) (if ?b then _ else _) => destruct b; ls Hok
  | |- lockstep _ (match ?x with _ => _ end) (match ?x with _ => _ end) =>
      destruct x; ls Hok
  | |- _ => idtac
  end.

Section Lockstep.

Context `{Platform}.







End Lockstep.

(** * Properties of the program *)

Section Runs.

Context `{Platform}.

Lemma observes_run {X A} (π : event → option X) I (xs : list X) (Q : A → Prop)
    (c : M A) (w : world) :
  observes π I xs Q c → I (self w) →
  omap π (events c w) `prefix_of` xs ∧
  (∀ a, result c w = Ret a → omap π (events c w) = xs ∧ Q a) ∧
  I (self (final c w)).
Proof.
  intros Hc HI. destruct (Hc w HI) as (HI' & evs & E & P & V).
  rewrite (events_of _ _ _ E). auto.
Qed.

Lemma respects_run {A} I ok (c : M A) (w : world) :
  respects I ok c → I (self w) →
  Forall ok (events c w) ∧ trace (final c w) = (trace w ++ events c w)%list ∧
  I (self (final c w)).
Proof.
  intros Hc HI. destruct (Hc w HI) as (HI' & (evs & E & F) & _).
  by rewrite (events_of _ _ _ E).
Qed.

Lemma run_emit {B} (e : event) (k : unit → M B) (w : world) :
  bind (emit e) k w = k tt (World (self w) (trace w ++ [e])).
Proof. reflexivity. Qed.

Lemma run_get_self {B} (k : ohpc_obs_tool → M B) (w : world) :
  bind get_self k w = k (self w) w.
Proof. reflexivity. Qed.

Lemma run_ret {A B} (a : A) (k : A → M B) (w : world) : bind (ret a) k w = k a w.
Proof. reflexivity. Qed.

Lemma run_raise {A B} (e : exn) (k : A → M B) (w : world) :
  bind (raise e) k w = (Raise e, w).
Proof. reflexivity. Qed.

Lemma run_assoc {A B C} (c : M A) (f : A → M B) (g : B → M C) (w : world) :
  bind (bind c f) g w = bind c (λ x, bind (f x) g) w.
Proof. unfold bind. by destruct (c w) as [[a|arg|e] w']. Qed.

Lemma run_pct_bad {B} fmt args (k : message → M B) (w : world) :
  Nat.eqb (Py.specifiers fmt) (length args) = false →
  bind (fmt %% args) k w = (Raise TypeError, w).
Proof. intros Hf. unfold bind, pct. by rewrite Hf. Qed.


Lemma run_step {A B} (c : M A) (k : A → M B) (w w' : world) (a : A) :
  c w = (Ret a, w') → bind c k w = k a w'.
Proof. intros E. unfold bind. by rewrite E. Qed.

Lemma run_exit {A B} (c : M A) (k : A → M B) (w w' : world) (arg : option nat) :
  c w = (SystemExit arg, w') → bind c k w = (SystemExit arg, w').
Proof. intros E. unfold bind. by rewrite E. Qed.


Lemma run_ERROR {A B} (m : message) (k : A → M B) (w : world) :
  bind (ERROR m) k w = (SystemExit None, World (self w) (trace w ++ [ELog ERROR_level m])).
Proof. reflexivity. Qed.


Lemma decides_run {A} I (ds : list decision) (Q : A → Prop) (c : M A) (w : world) :
  decides I ds Q c → I (self w) →
  decisions (events c w) `prefix_of` ds ∧
  (∀ a, result c w = Ret a → decisions (events c w) = ds ∧ Q a) ∧
  I (self (final c w)).
Proof.
  intros Hc HI. destruct (Hc w HI) as (HI' & evs & E & P & V).
  rewrite (events_of _ _ _ E). auto.
Qed.

Lemma queryCompilers_result (w : world) (package : string) (l : list string) :
  result (queryCompilers package) w = Ret l → resolved_compilers (self w) package = l.
Proof.
  intros Hr.
  destruct (decides_run _ _ _ _ w (queryCompilers_decides (self w) package)
              (same_config_refl _)) as (_ & V & _).
  destruct (V l Hr) as [_ ->]. done.
Qed.

Lemma expand_compiler_dep (o : ohpc_obs_tool) (package : string) :
  compiler_dep_flag o package = inr true →
  mpi_dep_flag o package = inr false →
  expand o package = parent_entry o package :: children o package (resolved_compilers o package).
Proof. intros Hc Hm. unfold expand. by rewrite Hc, Hm. Qed.

Lemma has_option_get (c : ConfigParser) (section option value : string) :
  configparser.get c section option = inr value →
  configparser.has_option c section option = true.
Proof.
  unfold configparser.get, configparser.has_option.
  destruct (assoc section c) as [opts|]; [|done].
  destruct (assoc option opts); [|done]. intros _. by apply bool_decide_eq_true.
Qed.

Lemma created_iff_decided (t : list event) (a : addPackage_args) :
  a ∈ created t ↔ Create a ∈ decisions t.
Proof.
  unfold created, decisions. rewrite !list_elem_of_omap. split.
  - intros (e & He & Hs). exists e. split; [done|].
    destruct e; try done. by injection Hs as ->.
  - intros (e & He & Hs). exists e. split; [done|].
    destruct e as [lvl [fmt args]| | | | | |a']; cbn in Hs; try done.
    + destruct lvl; [|done]. destruct args as [|[] ?]; try done.
      by destruct (String.eqb _ _).
    + by injection Hs as ->.
Qed.

Lemma expected_elem (o : ohpc_obs_tool) (components : list string)
    (obsPackages : gset string) (d : decision) :
  d ∈ expected o components obsPackages ↔
  ∃ package a, package ∈ components ∧ a ∈ expand o package ∧ d = decide_entry obsPackages a.
Proof.
  unfold expected. rewrite list_elem_of_bind. split.
  - intros (p & Hd & Hp). apply list_elem_of_fmap in Hd as (a & -> & Ha). eauto.
  - intros (p & a & Hp & Ha & ->). exists p. split; [|done].
    apply list_elem_of_fmap. eauto.
Qed.




(** The loop of [cancelNewBuilds], for a real run of the tool [o]. *)
Lemma lock_loop_stops (o : ohpc_obs_tool) (body : string → M unit)
    (pre : list string) (a : string) (rest : list string) (w : world) :
  (∀ package w', body package w' =
     match check_output (trace w') (lock_command o package) with
     | Some _ => (Ret tt, World (self w') (trace w' ++ [ECheckOutput (lock_command o package)]))
     | None => (SystemExit None,
                World (self w')
                  (trace w' ++ [ECheckOutput (lock_command o package);
                                ELog ERROR_level
                                  (Py.nl +:+ "Unable to add _link file for package (%s) to OBS",
                                   [AStr package])]))
     end) →
  (∀ t package, package ∈ pre → is_Some (check_output t (lock_command o package))) →
  (∀ t, check_output t (lock_command o a) = None) →
  for_each (pre ++ a :: rest) body w =
    (SystemExit None,
     World (self w)
       (trace w ++ (ECheckOutput ∘ lock_command o <$> pre)
                ++ [ECheckOutput (lock_command o a);
                    ELog ERROR_level
                      (Py.nl +:+ "Unable to add _link file for package (%s) to OBS",
                       [AStr a])])).
Proof.
  intros Hbody Hpre Ha. revert w. induction pre as [|p pre IH]; intros w.
  - cbn [app for_each fmap list_fmap]. unfold bind. rewrite Hbody, Ha. reflexivity.
  - cbn [app for_each]. unfold bind at 1. rewrite Hbody.
    destruct (Hpre (trace w) p) as [s ->]; [by left|].
    rewrite IH by (intros; apply Hpre; by right).
    cbn [self trace]. by rewrite fmap_cons, <- app_assoc.
Qed.

Lemma run_pct {B} fmt args (k : message → M B) (w : world) :
  Nat.eqb (Py.specifiers fmt) (length args) = true →
  bind (fmt %% args) k w = k (fmt, args) w.
Proof. intros Hf. unfold bind, pct. by rewrite Hf. Qed.


Lemma observes_never {X A B} (π : event → option X) I (ds : list X) (R : B → Prop)
    (c : M A) (k : A → M B) :
  observes π I [] (λ _, False) c → observes π I ds R (bind c k).
Proof. intros Hc. eapply observes_silent_bind; [exact Hc | by intros]. Qed.

Lemma observes_value {X A B} (π : event → option X) I (ds : list X) (R : B → Prop)
    (a : A) (k : A → M B) :
  observes π I ds R (k a) → observes π I ds R (bind (ret a) k).
Proof. intros Hk. exact Hk. Qed.

(** The probe and the read of a template, as [addPackage] does them. *)
Lemma observes_template {B} o0 (path fmt : string) (R : B → Prop) (ds : list event)
    (k : string → M B) :
  (∀ contents, observes file_access (same_config o0) ds R (k contents)) →
  observes file_access (same_config o0) ([EIsFile path; EOpenRead path] ++ ds) R
    (let* present := os_path_isfile path in
     let* contents :=
       if present then open_read path
       else let* m := fmt %% [AStr path] in ERROR m in
     k contents).
Proof.
  intros Hk. unfold os_path_isfile, open_read.
  eapply (observes_bind _ _ [_] (_ :: ds) (λ _, True)).
  - eapply observes_bind_silent; [by apply observes_emit|]. intros _ _. silent.
  - intros present _. destruct present.
    + eapply (observes_bind _ _ [_] ds (λ _, True)); [|by intros].
      eapply observes_bind_silent; [by apply observes_emit|]. intros _ _. silent.
    + apply observes_never. apply observes_pct_then. by apply observes_ERROR.
Qed.

Lemma addPackage_reads o0 package parent isCompilerDep compiler parentName gitName :
  observes file_access (same_config o0) (template_reads o0 parent) (λ _, True)
    (addPackage package parent isCompilerDep compiler parentName gitName).
Proof.
  unfold addPackage, template_reads.
  apply observes_then; [silent|]. intros _.
  apply observes_self_then. intros o [b ->].
  cbn [set_buildsToCancel serviceFile linkFile_compiler].
  destruct parent.
  - apply (observes_template o0 _ _ _ []). intros contents. silent.
  - apply (observes_template o0 _ _ _ [_; _]). intros contents.
    repeat (apply observes_then; [solve [silent]|intros ?]).
    eapply observes_bind_silent; [|intros _ _; silent].
    destruct isCompilerDep.
    + destruct (bool_decide (is_Some compiler)).
      * apply observes_value. destruct parentName; [|apply observes_never, observes_raise].
        apply observes_value.
        apply (observes_template o0 _ _ _ []). intros contents'. silent.
      * apply observes_never. apply observes_never. apply observes_raise.
    + apply observes_value. destruct parentName; [|apply observes_never, observes_raise].
      apply observes_value. apply observes_never. apply observes_raise.
Qed.


Lemma addPackage_respects_any package parent isCompilerDep compiler parentName gitName :
  respects any_tool anything (addPackage package parent isCompilerDep compiler parentName gitName).
Proof. unfold addPackage. respect ltac:(exact Logic.I). Qed.



Lemma parseConfig_loads_only (path : string) :
  respects any_tool (loads_only path) (parseConfig (Some path)).
Proof. respect ltac:(first [exact Logic.I | reflexivity]). Qed.


Lemma addPackage_without_template (w : world) package parent isCompilerDep compiler
    parentName gitName :
  isfile (serviceFile (self w)) = false →
  addPackage package parent isCompilerDep compiler parentName gitName w =
    (Raise TypeError,
     World (self w)
       (trace w ++ [EAddPackage (AddPackage package parent isCompilerDep compiler
                                   parentName gitName);
                    EIsFile (serviceFile (self w))])).
Proof.
  intros Hmissing. unfold addPackage.
  rewrite run_emit, run_get_self. cbn [self]. unfold os_path_isfile.
  rewrite run_assoc, run_emit, run_ret. rewrite Hmissing.
  rewrite run_assoc, run_pct_bad by reflexivity.
  cbn [self trace]. by rewrite <- app_assoc.
Qed.


Lemma isStandalone_run (package : string) (w : world) :
  isStandalone package w =
    match compiler_dep_flag (self w) package, mpi_dep_flag (self w) package with
    | inr c, inr m => (Ret (negb (c || m)), w)
    | inl e, _ => (Raise e, w)
    | inr _, inl e => (Raise e, w)
    end.
Proof.
  unfold isStandalone, compiler_dep_flag, mpi_dep_flag. rewrite run_get_self.
  destruct (configparser.getboolean _ _ "compiler_dep" _) as [e|c]; [reflexivity|].
  destruct (configparser.getboolean _ _ "mpi_dep" _) as [e|m]; [reflexivity|].
  by destruct c, m.
Qed.

Lemma isCompilerDep_run (package : string) (w : world) :
  isCompilerDep package w =
    match compiler_dep_flag (self w) package, mpi_dep_flag (self w) package with
    | inr c, inr m => (Ret (c && negb m), w)
    | inl e, _ => (Raise e, w)
    | inr _, inl e => (Raise e, w)
    end.
Proof.
  unfold isCompilerDep, compiler_dep_flag, mpi_dep_flag. rewrite run_get_self.
  destruct (configparser.getboolean _ _ "compiler_dep" _) as [e|c]; [reflexivity|].
  destruct (configparser.getboolean _ _ "mpi_dep" _) as [e|m]; [reflexivity|].
  by destruct c, m.
Qed.

Lemma isMPIDep_run (package : string) (w : world) :
  isMPIDep package w =
    match mpi_dep_flag (self w) package with
    | inr m => (Ret m, w)
    | inl e => (Raise e, w)
    end.
Proof.
  unfold isMPIDep, mpi_dep_flag. rewrite run_get_self.
  destruct (configparser.getboolean _ _ "mpi_dep" _) as [e|m]; [reflexivity|].
  by destruct m.
Qed.

Lemma main_package_by_flags (obsPackages : gset string) (package : string) (w : world) :
  main_package obsPackages package w =
    match compiler_dep_flag (self w) package, mpi_dep_flag (self w) package with
    | inr false, inr false => main_standalone obsPackages package w
    | inr true, inr false => main_compiler_dep obsPackages package w
    | inr _, inr true => main_mpi_dep package w
    | inl e, _ => (Raise e, w)
    | inr _, inl e => (Raise e, w)
    end.
Proof.
  unfold main_package. unfold bind at 1. rewrite isStandalone_run.
  destruct (compiler_dep_flag _ _) as [e|c] eqn:Ec; [reflexivity|].
  destruct (mpi_dep_flag _ _) as [e|m] eqn:Em; [by destruct c|].
  destruct c, m; cbn [negb orb]; try reflexivity;
    unfold bind at 1; rewrite isCompilerDep_run, Ec, Em; cbn [negb andb];
    try reflexivity;
    unfold bind at 1; rewrite isMPIDep_run, Em; reflexivity.
Qed.

Lemma classifiers_exclusive (w : world) (package : string) (s c m : bool) :
  result (isStandalone package) w = Ret s →
  result (isCompilerDep package) w = Ret c →
  result (isMPIDep package) w = Ret m →
  (s, c, m) = (true, false, false) ∨ (s, c, m) = (false, true, false)
  ∨ (s, c, m) = (false, false, true).
Proof.
  unfold result. rewrite isStandalone_run, isCompilerDep_run, isMPIDep_run.
  destruct (compiler_dep_flag _ _) as [e|[|]]; [discriminate| |];
    (destruct (mpi_dep_flag _ _) as [e'|[|]]; [discriminate| |]);
    cbn; intros [= <-] [= <-] [= <-]; auto.
Qed.

Lemma addPackage_supported package parent isCompilerDep compiler parentName gitName :
  respects any_tool supported
    (addPackage package parent isCompilerDep compiler parentName gitName).
Proof. unfold addPackage. respect ltac:(first [exact Logic.I | discriminate]). Qed.

Lemma arms_supported obsPackages package :
  respects any_tool supported (main_standalone obsPackages package) ∧
  respects any_tool supported (main_compiler_dep obsPackages package) ∧
  respects any_tool supported (main_mpi_dep package).
Proof.
  unfold main_standalone, main_compiler_dep.
  split; [|split];
    respect ltac:(first [apply addPackage_supported | exact Logic.I | discriminate]).
Qed.


Lemma addPackage_child_not_ungrouped (I : ohpc_obs_tool → Prop)
    package isCompilerDep compiler parentName gitName :
  (∀ o b, I o → I (set_buildsToCancel b o)) →
  respects I not_ungrouped
    (addPackage package false isCompilerDep compiler parentName gitName).
Proof.
  intros HI. unfold addPackage. cbv beta iota.
  respect ltac:(first [by apply HI | intros ?; discriminate]).
Qed.

Lemma main_standalone_present obsPackages package :
  package ∈ obsPackages →
  respects any_tool not_ungrouped (main_standalone obsPackages package).
Proof.
  intros Hin. unfold main_standalone. rewrite bool_decide_true by done.
  respect ltac:(first [exact Logic.I | intros ?; discriminate]).
Qed.

Lemma main_compiler_dep_present obsPackages package pc :
  package +:+ "-" +:+ pc ∈ obsPackages →
  respects (λ o, parentCompiler o = pc) not_ungrouped
    (main_compiler_dep obsPackages package).
Proof.
  intros Hin. unfold main_compiler_dep.
  change (bind getParentCompiler ?k) with (bind get_self (λ o, k (parentCompiler o))).
  apply respects_get_self. intros o Ho. rewrite Ho, bool_decide_true by done.
  respect ltac:(first [by apply addPackage_child_not_ungrouped
                      | done | intros ?; discriminate]).
Qed.


(** A parent that is in no group: [addPackage] reads the service
    template, logs the error of [checkPackageGroup] and exits. *)
Lemma addPackage_ungrouped (w : world) package isCompilerDep compiler parentName gitName :
  isfile (serviceFile (self w)) = true →
  group_scan (default package gitName) (groups (self w)) = None →
  addPackage package true isCompilerDep compiler parentName gitName w =
    (SystemExit None,
     World (self w)
       (trace w ++ [EAddPackage (AddPackage package true isCompilerDep compiler
                                   parentName gitName);
                    EIsFile (serviceFile (self w));
                    EOpenRead (serviceFile (self w));
                    ungrouped_error (default package gitName)])).
Proof.
  intros Hfile Hgroup. unfold addPackage.
  rewrite run_emit, run_get_self. cbn [self]. unfold os_path_isfile, open_read.
  rewrite run_assoc, run_emit, run_ret, Hfile.
  rewrite run_assoc, run_emit, run_ret.
  cbv beta iota. rewrite !run_assoc.
  assert (∀ B (k : string → M B) name w',
    self w' = self w → group_scan name (groups (self w)) = None →
    bind (checkPackageGroup name) k w' =
      (SystemExit None, World (self w') (trace w' ++ [ungrouped_error name]))) as Hcheck.
  { intros B k name w' Hs Hn. rewrite <- Hs in Hn. unfold checkPackageGroup.
    rewrite run_assoc, run_get_self, Hn.
    rewrite run_assoc, run_pct by reflexivity. apply run_ERROR. }
  destruct gitName as [gitName|]; cbn [default] in *; rewrite Hcheck by done;
    cbn [self trace]; by rewrite <- !app_assoc.
Qed.

Lemma queryCompilers_keeps (w : world) (package : string) :
  self (final (queryCompilers package) w) = self w.
Proof.
  assert (respects (λ o, o = self w) anything (queryCompilers package)) as Hq
    by (respect ltac:(first [exact Logic.I | done])).
  by destruct (Hq w eq_refl) as (-> & _).
Qed.


End Runs.

Section Steps.

Context `{Platform}.

Lemma run_update {B} (f : ohpc_obs_tool → ohpc_obs_tool) (k : unit → M B) (w : world) :
  bind (update f) k w = k tt (World (f (self w)) (trace w)).
Proof. reflexivity. Qed.

Lemma run_pair {A} (c : M A) (w : world) : c w = (result c w, final c w).
Proof. unfold result, final. by destruct (c w). Qed.

Lemma run_check_output {B} (cmd : list carg) (k : option string → M B) (w : world) :
  bind (subprocess_check_output cmd) k w
    = k (check_output (trace w) cmd) (World (self w) (trace w ++ [ECheckOutput cmd])).
Proof. reflexivity. Qed.

End Steps.

(** [run] executes the computation of the goal as far as it is
    determined. *)
Ltac run :=
  repeat first
  [ rewrite run_emit
  | rewrite run_get_self
  | rewrite run_ret
  | rewrite run_update
  | rewrite run_assoc
  | rewrite run_pct by reflexivity
  | rewrite run_ERROR
  | rewrite run_raise
  | progress unfold logging_info, os_path_isfile, open_read, NamedTemporaryFile
  | progress cbn [self trace lift vip buildConfig parentCompiler parentMPI dryRun
       buildsToCancel branchVer microVer obsProject serviceFile linkFile_compiler
       compilerFamilies MPIFamilies NoBuildPatterns groups
       set_buildConfig set_parentCompiler set_parentMPI set_dryRun set_buildsToCancel
       set_serviceFile set_linkFile_compiler set_compilerFamilies set_MPIFamilies
       set_NoBuildPatterns set_groups] ].

Section MetaSteps.

Context `{Platform}.



(** Step 1 of [addPackage] when both searches return: log lines only,
    and the text of the [_meta] file. *)
Lemma addPackage_meta_run (o : ohpc_obs_tool) (package : string) (a x : bool) (w : world) :
  disableBuild o package "aarch64" = inr a →
  disableBuild o package "x86_64" = inr x →
  ∃ logs, omap deed logs = [] ∧
    addPackage_meta o package w =
      (Ret (meta_text (obsProject o) package a x), World (self w) (trace w ++ logs)).
Proof.
  intros Ha Hx. unfold addPackage_meta. rewrite Ha, Hx. destruct w as [o' t].
  destruct a, x; run; cbn [ret]; rewrite <- ?app_assoc.
  4: { exists []. by rewrite app_nil_r. }
  all: eexists; (split; [|reflexivity]); reflexivity.
Qed.


End MetaSteps.

Ltac meta_step Ha Hx :=
  match goal with
  | |- context [bind (addPackage_meta ?o ?p) ?k ?W] =>
      let logs := fresh "logs" in
      let Hlogs := fresh "Hlogs" in
      let Em := fresh "Em" in
      destruct (addPackage_meta_run o p _ _ W Ha Hx) as (logs & Hlogs & Em);
      rewrite (run_step _ _ _ _ _ Em); clear Em
  end.

Ltac call_step Hok :=
  rewrite run_check_output;
  match goal with
  | |- context [check_output ?t ?c] =>
      let s := fresh "s" in
      let Hs := fresh "Hs" in
      destruct (Hok t c) as [s Hs]; rewrite Hs; clear Hs
  end.

Ltac fail_step Hfail :=
  rewrite run_check_output;
  match goal with
  | |- context [check_output ?t ?c] => rewrite (Hfail t : check_output t c = None)
  end.

Ltac ok_step Hok :=
  rewrite run_check_output;
  match goal with
  | |- context [check_output ?t ?c] =>
      let s := fresh "s" in
      let Hs := fresh "Hs" in
      destruct (Hok t : is_Some (check_output t c)) as [s Hs]; rewrite Hs; clear Hs
  end.

Section CreationFailures.

Context `{Platform}.

Lemma run_raises {A B} (c : M A) (k : A → M B) (w w' : world) (e : exn) :
  c w = (Raise e, w') → bind c k w = (Raise e, w').
Proof. intros E. unfold bind. by rewrite E. Qed.

Lemma deed_nil_remote (logs : list event) : omap deed logs = [] → remote_calls logs = [].
Proof.
  unfold remote_calls. induction logs as [|e logs IH]; [done|]. cbn.
  destruct e; cbn; try done.
Qed.

Lemma deed_nil_quiet (logs : list event) :
  omap deed logs = [] → Forall (λ e, ∃ lvl m, e = ELog lvl m) logs.
Proof.
  induction logs as [|e logs IH]; [constructor|]. cbn.
  destruct e; cbn; try done. intros Hl. constructor; eauto.
Qed.

(** How a run that leaves the tool alone is read. *)
Lemma run_reading {A} (c : M A) (w : world) (r : outcome A) (o : ohpc_obs_tool)
    (evs : list event) :
  c w = (r, World o (trace w ++ evs)) →
  result c w = r ∧ self (final c w) = o ∧ events c w = evs.
Proof.
  intros E. unfold result, final.
  rewrite (events_of _ _ _ (f_equal trace (f_equal snd E))). by rewrite E.
Qed.


(** A real creation whose upload of [_meta] fails. *)
Lemma addPackage_meta_upload_fails (w : world) (package : string) (parent isCompilerDep : bool)
    (compiler parentName gitName : option string) (group : string) (a x : bool) :
  let o := self w in
  let put_meta := put_command o package
                    (TmpName (meta_text (obsProject o) package a x)) "_meta" in
  dryRun o = false →
  isfile (serviceFile o) = true →
  parent = false ∨ group_scan (default package gitName) (groups o) = Some group →
  disableBuild o package "aarch64" = inr a →
  disableBuild o package "x86_64" = inr x →
  (∀ t, check_output t put_meta = None) →
  ∃ evs, addPackage package parent isCompilerDep compiler parentName gitName w
           = (SystemExit None, World o (trace w ++ evs)) ∧
         remote_calls evs = [put_meta] ∧
         last evs = Some (ELog ERROR_level
                            (Py.nl +:+ "Unable to add new package (%s) to OBS",
                             [AStr package])).
Proof.
  intros o put_meta Hd Hfile Hg Ha Hx Hfail.
  assert (group_scan (default package gitName) (groups o) = Some group ∨ parent = false)
    as Hg' by tauto.
  clear Hg. subst put_meta o. unfold addPackage. run. rewrite Hfile. run.
  unfold checkPackageGroup.
  destruct parent; [destruct Hg' as [Hg|?]; [|done];
                    destruct gitName as [g|]; cbn [default from_option id] in Hg;
                    run; rewrite Hg; run|run].
  all: meta_step Ha Hx; run; rewrite Hd; cbn [negb]; run.
  all: fail_step Hfail; run; rewrite <- !app_assoc.
  all: eexists; (split; [reflexivity|]); split;
    [rewrite !remote_calls_app, (deed_nil_remote _ Hlogs); reflexivity
    |rewrite !app_assoc; apply last_snoc].
Qed.

(** A real creation whose upload of the marker fails. *)
Lemma addPackage_marker_upload_fails (w : world) (package : string)
    (parent isCompilerDep : bool) (compiler parentName gitName : option string)
    (group : string) (a x : bool) :
  let o := self w in
  let put_meta := put_command o package
                    (TmpName (meta_text (obsProject o) package a x)) "_meta" in
  let put_marker := put_command o package (TmpName EmptyString)
                      "_obs_config_ready_for_build" in
  dryRun o = false →
  isfile (serviceFile o) = true →
  parent = false ∨ group_scan (default package gitName) (groups o) = Some group →
  disableBuild o package "aarch64" = inr a →
  disableBuild o package "x86_64" = inr x →
  (∀ t, is_Some (check_output t put_meta)) →
  (∀ t, check_output t put_marker = None) →
  ∃ evs, addPackage package parent isCompilerDep compiler parentName gitName w
           = (SystemExit None, World o (trace w ++ evs)) ∧
         remote_calls evs = [put_meta; put_marker] ∧
         last evs = Some (ELog ERROR_level
                            (Py.nl +:+ "Unable to add marker file for package (%s) to OBS",
                             [AStr package])).
Proof.
  intros o put_meta put_marker Hd Hfile Hg Ha Hx Hok Hfail.
  assert (group_scan (default package gitName) (groups o) = Some group ∨ parent = false)
    as Hg' by tauto.
  clear Hg. subst put_meta put_marker o. unfold addPackage. run. rewrite Hfile. run.
  unfold checkPackageGroup.
  destruct parent; [destruct Hg' as [Hg|?]; [|done];
                    destruct gitName as [g|]; cbn [default from_option id] in Hg;
                    run; rewrite Hg; run|run].
  all: meta_step Ha Hx; run; rewrite Hd; cbn [negb]; run.
  all: ok_step Hok; run; fail_step Hfail; run; rewrite <- !app_assoc.
  all: eexists; (split; [reflexivity|]); split;
    [rewrite !remote_calls_app, (deed_nil_remote _ Hlogs); reflexivity
    |rewrite !app_assoc; apply last_snoc].
Qed.

End CreationFailures.

Section LoadFailures.

Context `{Platform}.

Lemma parseConfig_missing_file (w : world) (path : string) :
  isfile path = false →
  parseConfig (Some path) w =
    (SystemExit None,
     World (self w)
       (trace w ++ [reading_line path; EIsFile path;
                    ELog ERROR_level ("--> unable to access input file", [])])).
Proof.
  intros Hfile. unfold parseConfig. run. rewrite Hfile. cbn. by rewrite <- !app_assoc.
Qed.

Lemma parseConfig_duplicate_section (w : world) (path : string) (partial : ConfigParser) :
  isfile path = true → configparser_read path = ReadDuplicateSection partial →
  parseConfig (Some path) w =
    (SystemExit None,
     World (set_buildConfig partial (self w))
       (trace w ++ [reading_line path; EIsFile path; EConfigRead path;
                    ELog ERROR_level
                      (Py.nl +:+ "ERROR: Duplicate section detected in configfile: %s",
                       [AStr path])])).
Proof.
  intros Hfile Hread. unfold parseConfig. run. rewrite Hfile. run. rewrite Hread.
  run. by rewrite <- !app_assoc.
Qed.

Lemma parseConfig_unparsable (w : world) (path : string) (partial : ConfigParser) :
  isfile path = true → configparser_read path = ReadFails partial →
  parseConfig (Some path) w =
    (SystemExit None,
     World (set_buildConfig partial (self w))
       (trace w ++ [reading_line path; EIsFile path; EConfigRead path;
                    ELog ERROR_level
                      ("ERROR; Unable to parse runtime config file: %s", [AStr path])])).
Proof.
  intros Hfile Hread. unfold parseConfig. run. rewrite Hfile. run. rewrite Hread.
  run. by rewrite <- !app_assoc.
Qed.

End LoadFailures.

Section ProcessSteps.

Context `{Platform}.






End ProcessSteps.

Section Endings.

Context `{Platform}.



Lemma load_quiet :
  respects any_tool not_remote (let* _ := init in parseConfig (Some configFile)).
Proof. respect ltac:(first [exact Logic.I | by (unfold not_remote; cbn; tauto)]). Qed.


End Endings.

Section Claims.

Context `{Platform}.

(** C1.  A package with [compiler_dep] set and [mpi_dep] unset, whose
    families resolve to [A; B; C] with [A] the parent compiler and [B],
    [C] other families, expands to three identities: the parent
    [package-A], then [package-B] and [package-C] as children of
    [package-A].  The loop of [main] decides on them in that order:
    whatever it decided when it stops is an initial part of that
    sequence, and the whole of it when the turn of the loop returns, so
    no child is looked at before the parent was. *)
Theorem compiler_dep_three_identities (w : world) (obsPackages : gset string)
    (package A B C : string) :
  compiler_dep_flag (self w) package = inr true →
  mpi_dep_flag (self w) package = inr false →
  parentCompiler (self w) = A →
  result (queryCompilers package) w = Ret [A; B; C] →
  B ≠ A → C ≠ A →
  let parent := package +:+ "-" +:+ A in
  let entries :=
    [ AddPackage parent true true None None (Some package);
      AddPackage (package +:+ "-" +:+ B) false true (Some B) (Some parent) None;
      AddPackage (package +:+ "-" +:+ C) false true (Some C) (Some parent) None ] in
  expand (self w) package = entries ∧
  decisions (events (main_package obsPackages package) w)
    `prefix_of` (decide_entry obsPackages <$> entries) ∧
  (result (main_package obsPackages package) w = Ret tt →
   decisions (events (main_package obsPackages package) w)
     = decide_entry obsPackages <$> entries).
Proof.
  intros Hc Hm HA Hq HB HC parent entries.
  assert (expand (self w) package = entries) as He.
  { rewrite (expand_compiler_dep _ _ Hc Hm), (queryCompilers_result _ _ _ Hq).
    unfold children, parent_entry, child_entry, parent_identity. rewrite HA.
    rewrite filter_cons, decide_False by auto.
    rewrite filter_cons, decide_True by auto.
    rewrite filter_cons, decide_True by auto.
    reflexivity. }
  split; [exact He|]. rewrite <- He.
  destruct (decides_run _ _ _ _ w (main_package_decides (self w) obsPackages package)
              (same_config_refl _)) as (P & V & _).
  split; [exact P|]. intros Hr. by destruct (V tt Hr).
Qed.

(** C2, as the code has it.  When a reconciliation returns, a second
    one, given the listing of the first together with every identity the
    first created, creates nothing. *)
Theorem second_run_creates_nothing (w : world) (components : list string)
    (obsPackages : gset string) :
  result (main_reconcile components obsPackages) w = Ret tt →
  second_run_created components obsPackages
    (registry_after obsPackages (events (main_reconcile components obsPackages) w)) w = [].
Proof.
  intros Hr. unfold second_run_created.
  set (evs1 := events (main_reconcile components obsPackages) w).
  set (w1 := final (main_reconcile components obsPackages) w).
  destruct (decides_run _ _ _ _ w
              (main_reconcile_decides (self w) components obsPackages)
              (same_config_refl _)) as (_ & V1 & I1).
  destruct (V1 tt Hr) as [D1 _]. fold evs1 in D1. fold w1 in I1.
  assert (same_config (self w) (self (next_process w1))) as I2.
  { unfold next_process. cbn [self]. destruct I1 as [b ->]. by exists []. }
  destruct (decides_run _ _ _ _ (next_process w1)
              (main_reconcile_decides (self w) components
                 (registry_after obsPackages evs1)) I2) as (P2 & _ & _).
  apply elem_of_nil_inv. intros a Ha.
  apply created_iff_decided in Ha.
  apply (elem_of_prefix _ _ _ Ha) in P2.
  apply expected_elem in P2 as (p & a' & Hp & Ha' & Hd).
  unfold decide_entry in Hd. case_bool_decide as Hin; [done|].
  injection Hd as <-. apply Hin. unfold registry_after.
  destruct (decide (ap_package a ∈ obsPackages)) as [Hin'|Hout]; [by apply elem_of_union_l|].
  apply elem_of_union_r, elem_of_list_to_set, list_elem_of_fmap.
  exists a. split; [done|]. apply created_iff_decided. rewrite D1.
  apply expected_elem. exists p, a. split; [done|]. split; [done|].
  unfold decide_entry. by rewrite bool_decide_false.
Qed.



(** C5, as the code has it.  In a real run, when the hold requests for
    the identities [pre] succeed and the one for [a] fails, the flush
    logs an error and exits there: the requests made are those for [pre]
    and for [a], and none is made for the identities after [a]. *)
Theorem lock_flush_stops_at_first_failure (w : world) (pre : list string) (a : string)
    (rest : list string) :
  buildsToCancel (self w) = (pre ++ a :: rest)%list →
  dryRun (self w) = false →
  (∀ t package, package ∈ pre → is_Some (check_output t (lock_command (self w) package))) →
  (∀ t, check_output t (lock_command (self w) a) = None) →
  result cancelNewBuilds w = SystemExit None ∧
  remote_calls (events cancelNewBuilds w) = lock_command (self w) <$> (pre ++ [a])%list ∧
  last (events cancelNewBuilds w)
    = Some (ELog ERROR_level
              (Py.nl +:+ "Unable to add _link file for package (%s) to OBS", [AStr a])).
Proof.
  intros Hb Hd Hpre Ha.
  set (t0 := [ELog INFO (Py.nl +:+ "%i new build(s) need to be locked:",
                         [AInt (length (pre ++ a :: rest))]);
              ELog INFO ("--> will lock for now and GitHub trigger will unlock on first commit",
                         [])]).
  set (failure := [ECheckOutput (lock_command (self w) a);
                   ELog ERROR_level
                     (Py.nl +:+ "Unable to add _link file for package (%s) to OBS", [AStr a])]).
  assert (cancelNewBuilds w =
      (SystemExit None,
       World (self w)
         (trace w ++ t0 ++ (ECheckOutput ∘ lock_command (self w) <$> pre) ++ failure)))
    as E.
  { unfold cancelNewBuilds. unfold bind at 1. cbn [get_self]. rewrite Hb.
    destruct (Nat.eqb _ _) eqn:En.
    { apply Nat.eqb_eq in En. rewrite length_app in En. cbn in En. lia. }
    rewrite Hd. cbn [negb].
    rewrite run_pct by reflexivity. unfold logging_info. rewrite !run_emit.
    erewrite (lock_loop_stops (self w)); [| |exact Hpre|exact Ha].
    - cbn [self trace]. subst t0 failure. by rewrite <- !app_assoc.
    - intros package w'. cbn beta. unfold bind at 1 2, ret, subprocess_check_output, lock_command.
      destruct (check_output _ _); [reflexivity|].
      rewrite run_pct by reflexivity. cbn. by rewrite <- app_assoc. }
  unfold result. rewrite E. split; [done|].
  assert (events cancelNewBuilds w
          = (t0 ++ (ECheckOutput ∘ lock_command (self w) <$> pre) ++ failure)%list) as ->.
  { apply events_of. unfold final. by rewrite E. }
  split.
  - rewrite !remote_calls_app, fmap_app.
    change (remote_calls t0) with (@nil (list carg)).
    change (remote_calls failure) with [lock_command (self w) a].
    cbn [app fmap list_fmap]. f_equal.
    clear. induction pre as [|p pre IH]; [done|]. cbn. by rewrite <- IH.
  - subst failure.
    change [ECheckOutput (lock_command (self w) a); ?e]
      with ([ECheckOutput (lock_command (self w) a)] ++ [e])%list.
    by rewrite !app_assoc, last_snoc.
Qed.

(** C6, as the code has it.  Loading the manifest probes and reads the
    configuration file and nothing else: the two template paths are only
    recorded.  Each [addPackage] call probes and reads the service
    template first, a child call the link template after it, and these
    are the only files it reads.  When the service template is missing
    the call does not return: it has made no remote call and has
    registered nothing for locking. *)
Theorem templates_are_read_by_addPackage (w : world) :
  (∀ path, Forall (loads_only path) (events (parseConfig (Some path)) w)) ∧
  (∀ package parent isCompilerDep compiler parentName gitName,
     let run := addPackage package parent isCompilerDep compiler parentName gitName in
     omap file_access (events run w) `prefix_of` template_reads (self w) parent ∧
     (result run w = Ret tt →
      omap file_access (events run w) = template_reads (self w) parent) ∧
     (isfile (serviceFile (self w)) = false →
      result run w ≠ Ret tt ∧
      remote_calls (events run w) = [] ∧
      buildsToCancel (self (final run w)) = buildsToCancel (self w))).
Proof.
  split.
  - intros path.
    by destruct (respects_run _ _ _ w (parseConfig_loads_only path) Logic.I).
  - intros package parent isCompilerDep compiler parentName gitName run.
    destruct (observes_run _ _ _ _ _ w
                (addPackage_reads (self w) package parent isCompilerDep compiler
                   parentName gitName) (same_config_refl _)) as (P & V & _).
    split; [exact P|]. split.
    + intros Hr. by destruct (V tt Hr).
    + intros Hmissing.
      pose proof (addPackage_without_template w package parent isCompilerDep compiler
                    parentName gitName Hmissing) as E.
      fold run in E. unfold result, final. rewrite E. cbn [fst snd self].
      split; [done|]. split; [|done].
      erewrite events_of; [|unfold final; by rewrite E]. reflexivity.
Qed.


(** C7, as the code has it.  Whatever the two flags are, exactly one of
    the three classifiers answers yes, so a turn of the loop never takes
    the fourth arm and never logs its error.  The arm itself logs one
    error line and returns: the loop would go on with the next
    package. *)
Theorem unsupported_arm_unreachable (w : world) :
  (∀ package s c m,
     result (isStandalone package) w = Ret s →
     result (isCompilerDep package) w = Ret c →
     result (isMPIDep package) w = Ret m →
     (s, c, m) = (true, false, false) ∨ (s, c, m) = (false, true, false)
     ∨ (s, c, m) = (false, false, true)) ∧
  (∀ obsPackages package,
     unsupported_error ∉ events (main_package obsPackages package) w) ∧
  main_unsupported w = (Ret tt, World (self w) (trace w ++ [unsupported_error])).
Proof.
  split; [|split; [|reflexivity]].
  - intros package s c m. apply classifiers_exclusive.
  - intros obsPackages package Hin.
    destruct (arms_supported obsPackages package) as (Hs & Hc & Hm).
    assert (Forall supported (events (main_package obsPackages package) w)) as F.
    { unfold events, final. rewrite main_package_by_flags.
      destruct (compiler_dep_flag _ _) as [e|c].
      { cbn [snd]. rewrite drop_all. constructor. }
      destruct (mpi_dep_flag _ _) as [e|m].
      { destruct c; cbn [snd]; rewrite drop_all; constructor. }
      destruct c, m.
      - apply (respects_run _ _ _ w Hm Logic.I).
      - apply (respects_run _ _ _ w Hc Logic.I).
      - apply (respects_run _ _ _ w Hm Logic.I).
      - apply (respects_run _ _ _ w Hs Logic.I). }
    rewrite Forall_forall in F. by apply (F _ Hin).
Qed.




(** C9.  When a compiler-dependent package declares its own family list,
    the parent is still [package-P] for the parent compiler [P] of the
    manifest, whether or not [P] is in that list, and every family of the
    list other than [P] gives a child linked to [package-P]; the loop
    decides on the parent first and on the children in list order. *)
Theorem override_keeps_global_parent (w : world) (obsPackages : gset string)
    (package value : string) (families : list string) :
  compiler_dep_flag (self w) package = inr true →
  mpi_dep_flag (self w) package = inr false →
  configparser.get (buildConfig (self w)) (vip (self w) +:+ "/" +:+ package)
    "compiler_families" = inr value →
  literal_eval value = Some families →
  let parent := package +:+ "-" +:+ parentCompiler (self w) in
  let entries :=
    AddPackage parent true true None None (Some package) ::
    ((λ compiler, AddPackage (package +:+ "-" +:+ compiler) false true
                    (Some compiler) (Some parent) None)
       <$> filter (λ compiler, compiler ≠ parentCompiler (self w)) families) in
  expand (self w) package = entries ∧
  decisions (events (main_package obsPackages package) w)
    `prefix_of` (decide_entry obsPackages <$> entries) ∧
  (result (main_package obsPackages package) w = Ret tt →
   decisions (events (main_package obsPackages package) w)
     = decide_entry obsPackages <$> entries).
Proof.
  intros Hc Hm Hg Hl parent entries.
  assert (expand (self w) package = entries) as He.
  { rewrite (expand_compiler_dep _ _ Hc Hm). unfold resolved_compilers.
    rewrite (has_option_get _ _ _ _ Hg), Hg. cbn. rewrite Hl. reflexivity. }
  split; [exact He|]. rewrite <- He.
  destruct (decides_run _ _ _ _ w (main_package_decides (self w) obsPackages package)
              (same_config_refl _)) as (P & V & _).
  split; [exact P|]. intros Hr. by destruct (V tt Hr).
Qed.

(** C10.  The group of a package is looked up only when its parent
    identity is created.  A turn of the loop for a package whose parent
    identity is listed never logs the ungrouped error, whatever children
    it creates, and no child creation ever does.  When the parent
    identity is not listed, the service template exists and the package
    is in no group, the turn logs the ungrouped error for the package and
    exits. *)
Theorem group_checked_at_parent_creation (w : world) (obsPackages : gset string)
    (package : string) :
  ((∀ a, a ∈ expand (self w) package → ap_parent a = true → ap_package a ∈ obsPackages) →
   Forall not_ungrouped (events (main_package obsPackages package) w)) ∧
  (∀ child isCompilerDep compiler parentName gitName,
     Forall not_ungrouped
       (events (addPackage child false isCompilerDep compiler parentName gitName) w)) ∧
  (isfile (serviceFile (self w)) = true →
   group_scan package (groups (self w)) = None →
   (compiler_dep_flag (self w) package = inr false →
    mpi_dep_flag (self w) package = inr false →
    package ∉ obsPackages →
    result (main_package obsPackages package) w = SystemExit None ∧
    last (trace (final (main_package obsPackages package) w))
      = Some (ungrouped_error package)) ∧
   (compiler_dep_flag (self w) package = inr true →
    mpi_dep_flag (self w) package = inr false →
    (∃ compilers, result (queryCompilers package) w = Ret compilers) →
    parent_identity (self w) package ∉ obsPackages →
    result (main_package obsPackages package) w = SystemExit None ∧
    last (trace (final (main_package obsPackages package) w))
      = Some (ungrouped_error package))).
Proof.
  split; [|split].
  - intros Hpar. unfold events, final. rewrite main_package_by_flags.
    pose proof Hpar as Hpar'. unfold expand in Hpar'.
    destruct (compiler_dep_flag _ _) as [e|c].
    { cbn [snd]. rewrite drop_all. constructor. }
    destruct (mpi_dep_flag _ _) as [e|m].
    { destruct c; cbn [snd]; rewrite drop_all; constructor. }
    destruct c, m.
    + apply (respects_run any_tool _ (main_mpi_dep package) w); [|done].
      respect ltac:(first [exact Logic.I | intros ?; discriminate]).
    + apply (respects_run _ _ _ w
               (main_compiler_dep_present obsPackages package (parentCompiler (self w))
                  (Hpar' _ (list_elem_of_here _ _) eq_refl)) eq_refl).
    + apply (respects_run any_tool _ (main_mpi_dep package) w); [|done].
      respect ltac:(first [exact Logic.I | intros ?; discriminate]).
    + apply (respects_run _ _ _ w
               (main_standalone_present obsPackages package
                  (Hpar' _ (list_elem_of_here _ _) eq_refl)) Logic.I).
  - intros child isCompilerDep compiler parentName gitName.
    apply (respects_run any_tool _ _ w); [|done].
    by apply addPackage_child_not_ungrouped.
  - intros Hfile Hgroup. split.
    + intros Hc Hm Hout. unfold result, final.
      rewrite main_package_by_flags, Hc, Hm. unfold main_standalone.
      rewrite bool_decide_false by done.
      rewrite run_pct by reflexivity. unfold logging_info. rewrite run_emit.
      rewrite addPackage_ungrouped by done. cbn [fst snd self trace default from_option id].
      split; [done|].
      change [?a; ?b; ?c; ?d] with ([a; b; c] ++ [d])%list.
      by rewrite app_assoc, last_snoc.
    + intros Hc Hm [compilers Hq] Hout. unfold result, final.
      rewrite main_package_by_flags, Hc, Hm. unfold main_compiler_dep.
      unfold getParentCompiler. rewrite run_assoc, run_get_self, run_ret.
      pose proof (queryCompilers_keeps w package) as Hk.
      unfold result, final in Hq, Hk.
      destruct (queryCompilers package w) as [o w'] eqn:E. cbn [fst snd] in Hq, Hk.
      subst o. rewrite (run_step _ _ _ _ _ E).
      unfold parent_identity in Hout. rewrite bool_decide_false by done.
      rewrite run_assoc, run_pct by reflexivity. unfold logging_info.
      rewrite run_assoc, run_emit.
      erewrite run_exit; [|apply addPackage_ungrouped; cbn [self]; by rewrite Hk].
      cbn [fst snd self trace default from_option id]. split; [done|].
      change [?a; ?b; ?c; ?d] with ([a; b; c] ++ [d])%list.
      by rewrite app_assoc, last_snoc.
Qed.


End Claims.

(** * The properties on the concrete installation *)

Section Witnesses.

Import Scenario.

Lemma compiler_dep_three_identities_witness :
  let w := loaded sound in
  let run := main_package (H:=sound) listed "widget" in
  let entries :=
    [ AddPackage "widget-gnu9" true true None None (Some "widget");
      AddPackage "widget-gnu10" false true (Some "gnu10") (Some "widget-gnu9") None;
      AddPackage "widget-intel" false true (Some "intel") (Some "widget-gnu9") None ] in
  result run w = Ret tt ∧
  expand (H:=sound) (self w) "widget" = entries ∧
  decisions (events run w) `prefix_of` (decide_entry listed <$> entries) ∧
  (result run w = Ret tt → decisions (events run w) = decide_entry listed <$> entries).
Proof.
  intros w run entries. split; [vm_compute; reflexivity|].
  apply (compiler_dep_three_identities (H:=sound) w listed "widget" "gnu9" "gnu10" "intel");
    solve [vm_compute; reflexivity | discriminate].
Defined.

Lemma override_keeps_global_parent_witness :
  let w := loaded sound in
  let run := main_package (H:=sound) listed "blas" in
  let entries :=
    [ AddPackage "blas-gnu9" true true None None (Some "blas");
      AddPackage "blas-intel" false true (Some "intel") (Some "blas-gnu9") None;
      AddPackage "blas-llvm" false true (Some "llvm") (Some "blas-gnu9") None ] in
  result run w = Ret tt ∧
  expand (H:=sound) (self w) "blas" = entries ∧
  decisions (events run w) `prefix_of` (decide_entry listed <$> entries) ∧
  (result run w = Ret tt → decisions (events run w) = decide_entry listed <$> entries).
Proof.
  intros w run entries. split; [vm_compute; reflexivity|].
  apply (override_keeps_global_parent (H:=sound) w listed "blas"
           "['intel', 'llvm']" ["intel"; "llvm"]);
    vm_compute; reflexivity.
Defined.

Lemma second_run_creates_nothing_witness :
  let w := loaded sound in
  let components := ["cmake"; "widget"; "fftw"] in
  result (main_reconcile (H:=sound) components listed) w = Ret tt ∧
  second_run_created (H:=sound) components listed
    (registry_after listed (events (main_reconcile (H:=sound) components listed) w)) w = [].
Proof.
  intros w components.
  assert (result (main_reconcile (H:=sound) components listed) w = Ret tt) as Hr
    by (vm_compute; reflexivity).
  split; [exact Hr|]. exact (second_run_creates_nothing (H:=sound) w components listed Hr).
Defined.

(** Against the very same listing the second run repeats the first. *)
Lemma same_listing_creates_again :
  second_run_created (H:=sound) ["cmake"; "widget"] listed listed (loaded sound) ≠ [].
Proof. vm_compute. discriminate. Qed.





Lemma lock_flush_stops_at_first_failure_witness :
  let w := World (set_buildsToCancel ["widget-gnu9"; "cmake"; "widget-gnu10"]
                    (set_dryRun false (self (loaded lock_fails)))) [] in
  result (cancelNewBuilds (H:=lock_fails)) w = SystemExit None ∧
  remote_calls (events (cancelNewBuilds (H:=lock_fails)) w)
    = lock_command (self w) <$> (["widget-gnu9"] ++ ["cmake"])%list ∧
  last (events (cancelNewBuilds (H:=lock_fails)) w)
    = Some (ELog ERROR_level
              (Py.nl +:+ "Unable to add _link file for package (%s) to OBS", [AStr "cmake"])).
Proof.
  intros w.
  apply (lock_flush_stops_at_first_failure (H:=lock_fails) w ["widget-gnu9"] "cmake"
           ["widget-gnu10"]).
  - vm_compute. reflexivity.
  - vm_compute. reflexivity.
  - intros t package Hin. apply list_elem_of_singleton in Hin as ->.
    vm_compute. by eexists.
  - intros t. vm_compute. reflexivity.
Defined.

(** The hold on [cmake] fails, and none is asked for [widget-gnu9], which
    is pending too. *)
Lemma failed_lock_ends_the_flush :
  let w := two_pending lock_fails in
  buildsToCancel (self w) = ["cmake"; "widget-gnu9"] ∧
  check_output (Platform:=lock_fails) [] (lock_command (self w) "widget-gnu9") = Some "<directory/>" ∧
  lock_command (self w) "widget-gnu9"
    ∉ remote_calls (events (cancelNewBuilds (H:=lock_fails)) w).
Proof.
  intros w. split; [vm_compute; reflexivity|]. split; [vm_compute; reflexivity|].
  vm_compute. intros Hin. apply list_elem_of_singleton in Hin. discriminate.
Qed.

Lemma templates_are_read_by_addPackage_witness :
  let w := loaded sound in
  let run := addPackage (H:=sound) "widget-gnu10" false true (Some "gnu10")
               (Some "widget-gnu9") None in
  result run w = Ret tt ∧
  omap file_access (events run w)
    = [EIsFile "service.tmpl"; EOpenRead "service.tmpl";
       EIsFile "link.tmpl"; EOpenRead "link.tmpl"].
Proof.
  intros w run.
  assert (result run w = Ret tt) as Hr by (vm_compute; reflexivity).
  split; [exact Hr|].
  destruct (templates_are_read_by_addPackage (H:=sound) w) as [_ Hadd].
  destruct (Hadd "widget-gnu10" false true (Some "gnu10") (Some "widget-gnu9") None)
    as (_ & Heq & _).
  exact (Heq Hr).
Defined.

(** The manifest names templates that do not exist, and it loads, and
    the whole of [main] runs to its end. *)
Lemma missing_template_loads :
  isfile (Platform:=no_templates) "service.tmpl" = false ∧
  isfile (Platform:=no_templates) "link.tmpl" = false ∧
  serviceFile (self (loaded no_templates)) = "service.tmpl" ∧
  linkFile_compiler (self (loaded no_templates)) = "link.tmpl" ∧
  result (let* _ := init in parseConfig (H:=no_templates) (Some configFile))
    start = Ret tt ∧
  result (main (H:=no_templates) (Args None true)) start = Ret tt.
Proof. repeat split; vm_compute; reflexivity. Qed.


Lemma unsupported_arm_unreachable_witness :
  (unsupported_error ∉ events (main_package (H:=sound) listed "fftw") (loaded sound)) ∧
  result (main_package (H:=sound) listed "fftw") (loaded sound) = Ret tt.
Proof.
  split; [|vm_compute; reflexivity].
  apply (unsupported_arm_unreachable (H:=sound) (loaded sound)).
Defined.

(** The fourth arm does not end the loop: taken twice, it logs twice. *)
Lemma unsupported_arm_goes_on :
  result main_unsupported start = Ret tt ∧
  for_each ["first"; "second"] (λ _, main_unsupported) start
    = (Ret tt, World (self start) [unsupported_error; unsupported_error]).
Proof. split; reflexivity. Qed.





Lemma group_checked_at_parent_creation_witness :
  let w := loaded sound in
  let present : gset string := list_to_set ["orphan-gnu9"] in
  group_scan "orphan" (groups (self w)) = None ∧
  (result (main_package (H:=sound) present "orphan") w = Ret tt ∧
   created (events (main_package (H:=sound) present "orphan") w)
     = [ AddPackage "orphan-gnu10" false true (Some "gnu10") (Some "orphan-gnu9") None;
         AddPackage "orphan-intel" false true (Some "intel") (Some "orphan-gnu9") None ] ∧
   Forall not_ungrouped (events (main_package (H:=sound) present "orphan") w)) ∧
  (result (main_package (H:=sound) ∅ "orphan") w = SystemExit None ∧
   last (trace (final (main_package (H:=sound) ∅ "orphan") w))
     = Some (ungrouped_error "orphan")).
Proof.
  intros w present.
  destruct (group_checked_at_parent_creation (H:=sound) w present "orphan")
    as (Hpresent & _ & _).
  destruct (group_checked_at_parent_creation (H:=sound) w ∅ "orphan")
    as (_ & _ & Habsent).
 
  split; [vm_compute; reflexivity|]. split.
  - split; [vm_compute; reflexivity|]. split; [vm_compute; reflexivity|].
    apply Hpresent. intros a Ha Hp.
    assert (expand (H:=sound) (self w) "orphan"
      = [ AddPackage "orphan-gnu9" true true None None (Some "orphan");
          AddPackage "orphan-gnu10" false true (Some "gnu10") (Some "orphan-gnu9") None;
          AddPackage "orphan-intel" false true (Some "intel") (Some "orphan-gnu9") None ])
      as E by (vm_compute; reflexivity).
    rewrite E in Ha. clear E.
    apply elem_of_cons in Ha as [->|Ha]; [apply elem_of_list_to_set; left|].
    apply elem_of_cons in Ha as [->|Ha]; [discriminate|].
    apply list_elem_of_singleton in Ha as ->. discriminate.
  - destruct Habsent as [_ Hdep]; try (vm_compute; reflexivity).
    apply Hdep; try (vm_compute; reflexivity).
    + by exists ["gnu9"; "gnu10"; "intel"].
    + apply not_elem_of_empty.
Defined.


End Witnesses.

(** * Further properties *)

Section Inversion.

Context `{Platform}.

Lemma bind_Ret_inv {A B} (c : M A) (k : A → M B) (w w' : world) (b : B) :
  bind c k w = (Ret b, w') → ∃ a w1, c w = (Ret a, w1) ∧ k a w1 = (Ret b, w').
Proof.
  unfold bind. destruct (c w) as [[a|arg|e] w1]; [eauto|done|done].
Qed.

Lemma try_except_Ret_inv {A} (body handler : M A) (w w' : world) (a : A) :
  (∀ w0 a0 w1, handler w0 ≠ (Ret a0, w1)) →
  try_except body handler w = (Ret a, w') → body w = (Ret a, w').
Proof.
  intros Hh. unfold try_except. destruct (body w) as [[a1|arg|e] w1]; [done| |].
  - intros E. by apply Hh in E.
  - intros E. by apply Hh in E.
Qed.

Lemma ERROR_never {A} (m : message) (w0 : world) (a0 : A) (w1 : world) :
  ERROR m w0 ≠ (Ret a0, w1).
Proof. done. Qed.

Lemma pct_ERROR_never {A} fmt args (w0 : world) (a0 : A) (w1 : world) :
  (let* m := fmt %% args in ERROR m) w0 ≠ (Ret a0, w1).
Proof. unfold bind, pct. by destruct (Nat.eqb _ _). Qed.

(** A computation that leaves the tool alone only lengthens the trace. *)
Lemma respects_keeps {A} ok (c : M A) (w : world) :
  respects (λ o, o = self w) ok c →
  ∃ evs, c w = (result c w, World (self w) (trace w ++ evs)) ∧ Forall ok evs.
Proof.
  intros Hc. destruct (Hc w eq_refl) as (Hs & (evs & E & F) & _).
  exists evs. split; [|done]. unfold result, final in *.
  destruct (c w) as [r [o t]]. cbn in *. by subst.
Qed.

End Inversion.

Section Flush.

Context `{Platform}.

(** A loop whose every turn returns after one event. *)
Lemma for_each_one {A} (l : list A) (body : A → M unit) (f : A → event) (w : world) :
  (∀ x w', x ∈ l → body x w' = (Ret tt, World (self w') (trace w' ++ [f x]))) →
  for_each l body w = (Ret tt, World (self w) (trace w ++ (f <$> l))).
Proof.
  revert w. induction l as [|x l IH]; intros w Hb; cbn [for_each fmap list_fmap].
  - cbn. rewrite app_nil_r. by destruct w.
  - rewrite (run_step _ _ _ _ _ (Hb x w (list_elem_of_here _ _))).
    rewrite IH by (intros; apply Hb; by right). cbn [self trace].
    by rewrite <- app_assoc.
Qed.

(** X14.  The three ways the lock flush returns.  With nothing to lock it says
    so in one line.  A simulated flush logs the two opening lines and
    one line for each package of the lock list, in order, and calls
    nothing.  A real flush whose requests all succeed logs the two
    opening lines and asks for one hold for each package of the list, in
    order.  The tool is never changed. *)
Theorem cancelNewBuilds_returns (w : world) :
  let pending := buildsToCancel (self w) in
  (pending = [] →
   cancelNewBuilds w =
     (Ret tt, World (self w)
                (trace w ++ [ELog INFO (Py.nl +:+ "No new builds to cancel", [])]))) ∧
  (pending ≠ [] → dryRun (self w) = true →
   cancelNewBuilds w =
     (Ret tt, World (self w)
                (trace w ++ lock_header (length pending) ++ (dry_lock_line <$> pending)))) ∧
  (pending ≠ [] → dryRun (self w) = false →
   (∀ t package, package ∈ pending →
                 is_Some (check_output t (lock_command (self w) package))) →
   cancelNewBuilds w =
     (Ret tt, World (self w)
                (trace w ++ lock_header (length pending)
                         ++ (ECheckOutput ∘ lock_command (self w) <$> pending)))).
Proof.
  intros pending. subst pending. unfold cancelNewBuilds. split; [|split].
  - intros Hp. run. rewrite Hp. reflexivity.
  - intros Hp Hd. run. destruct (buildsToCancel (self w)) as [|p l] eqn:Eb; [done|].
    cbn [length Nat.eqb]. run. rewrite Hd. cbn [negb].
    erewrite for_each_one with (f := dry_lock_line).
    + cbn [self trace]. by rewrite <- !app_assoc.
    + intros x w' _. run. reflexivity.
  - intros Hp Hd Hok. run. destruct (buildsToCancel (self w)) as [|p l] eqn:Eb; [done|].
    cbn [length Nat.eqb]. run. rewrite Hd. cbn [negb].
    erewrite for_each_one with (f := ECheckOutput ∘ lock_command (self w)).
    + cbn [self trace]. by rewrite <- !app_assoc.
    + intros x w' Hx. run. unfold bind, subprocess_check_output.
      destruct (Hok (trace w') x Hx) as [s Hs]. unfold lock_command in Hs.
      by rewrite Hs.
Qed.

End Flush.

Section Strings.

Lemma append_cons (a : Ascii.ascii) (p c : string) : String a p +:+ c = String a (p +:+ c).
Proof. reflexivity. Qed.

Lemma append_assoc (a b c : string) : (a +:+ b) +:+ c = a +:+ b +:+ c.
Proof. induction a as [|x a IH]; [done|]. rewrite !append_cons. by f_equal. Qed.

Lemma prefix_append (p c : string) : String.prefix p (p +:+ c) = true.
Proof.
  induction p as [|a p IH]; [by destruct c|].
  rewrite append_cons. simpl. by destruct (Ascii.ascii_dec a a).
Qed.

Lemma prefix_split (p s : string) :
  String.prefix p s = true → s = p +:+ Py.drop_chars (String.length p) s.
Proof.
  revert s. induction p as [|a p IH]; intros s; [intros _; by destruct s|].
  destruct s as [|b s]; [done|]. simpl.
  destruct (Ascii.ascii_dec a b) as [->|]; [|done].
  intros Hp. rewrite append_cons. f_equal. by apply IH.
Qed.

Lemma prefix_longer (v : string) (a : Ascii.ascii) (c : string) :
  String.prefix (v +:+ String a c) v = false.
Proof.
  induction v as [|b v IH]; [done|]. rewrite append_cons. simpl.
  by destruct (Ascii.ascii_dec b b).
Qed.

Lemma filter_list_remove (P : string → Prop) `{∀ x, Decision (P x)} (x : string)
    (l : list string) :
  ¬ P x → filter P (Py.list_remove x l) = filter P l.
Proof.
  intros Hx. induction l as [|y l IH]; [done|]. simpl.
  destruct (String.eqb y x) eqn:E.
  - apply String.eqb_eq in E as ->. by rewrite filter_cons_False.
  - rewrite !filter_cons. by rewrite IH.
Qed.

End Strings.

Section Components.

Context `{Platform}.

(** X1.  The components are the sections of the version in progress, in file
    order, without the version and the slash in front: putting these back
    gives the sections whose names start with them.  The section of the
    version itself is never a component, removed or not. *)
Theorem query_components_sections (o : ohpc_obs_tool) :
  (λ c, vip o +:+ "/" +:+ c) <$> query_components o
    = filter (λ key, Is_true (Py.startswith key (vip o +:+ "/")))
        (configparser.sections (buildConfig o)) ∧
  (∀ c, c ∈ query_components o ↔
        vip o +:+ "/" +:+ c ∈ configparser.sections (buildConfig o)).
Proof.
  assert ((λ c, vip o +:+ "/" +:+ c) <$> query_components o
    = filter (λ key, Is_true (Py.startswith key (vip o +:+ "/")))
        (configparser.sections (buildConfig o))) as E.
  { unfold query_components.
    set (l := configparser.sections (buildConfig o)).
    assert (filter (λ key, Is_true (Py.startswith key (vip o +:+ "/")))
              (if bool_decide (vip o ∈ l) then Py.list_remove (vip o) l else l)
            = filter (λ key, Is_true (Py.startswith key (vip o +:+ "/"))) l) as ->.
    { case_bool_decide; [|done]. apply filter_list_remove.
      unfold Py.startswith. rewrite prefix_longer. exact id. }
    generalize l. clear l. intros l. induction l as [|key l IH]; [done|].
    rewrite filter_cons. destruct (decide _) as [Hk|Hk]; [|exact IH].
    rewrite map_cons, fmap_cons. f_equal; [|exact IH].
    apply Is_true_true in Hk. unfold Py.startswith in Hk.
    rewrite <- append_assoc. symmetry.
    exact (prefix_split _ _ Hk). }
  split; [exact E|]. intros c. split.
  - intros Hc. apply (list_elem_of_fmap_2 (λ c, vip o +:+ "/" +:+ c)) in Hc.
    rewrite E in Hc. by apply list_elem_of_filter in Hc as [_ Hc].
  - intros Hc.
    assert (vip o +:+ "/" +:+ c ∈ (λ c, vip o +:+ "/" +:+ c) <$> query_components o) as Hin.
    { rewrite E. apply list_elem_of_filter. split; [|done].
      apply Is_true_true. unfold Py.startswith.
      rewrite <- append_assoc. apply prefix_append. }
    apply list_elem_of_fmap in Hin as (c' & Heq & Hc').
    assert (c = c') as ->; [|done].
    rewrite <- !append_assoc in Heq. by apply (inj _) in Heq.
Qed.
End Components.

Section Groups.

Context `{Platform}.

Lemma group_scan_Some (package : string) (gs : list (string * list string)) (g : string) :
  group_scan package gs = Some g ↔
  ∃ before members after,
    gs = (before ++ (g, members) :: after)%list ∧ package ∈ members ∧
    Forall (λ gm, package ∉ gm.2) before.
Proof.
  induction gs as [|[g' m'] gs IH]; simpl.
  - split; [done|]. intros (before & ? & ? & E & _). by destruct before.
  - case_bool_decide as Hin.
    + split.
      * intros [= <-]. exists [], m', gs. by repeat split.
      * intros ([|[g0 m0] before] & members & after & E & Hm & Hb).
        -- by injection E as -> -> ->.
        -- injection E as -> -> ->. by apply Forall_cons_1 in Hb as [Hb _].
    + rewrite IH. split.
      * intros (before & members & after & -> & Hm & Hb).
        exists ((g', m') :: before), members, after. repeat split; [done|].
        by constructor.
      * intros ([|[g0 m0] before] & members & after & E & Hm & Hb).
        -- by injection E as -> -> ->.
        -- injection E as -> -> ->. apply Forall_cons_1 in Hb as [_ Hb].
           by exists before, members, after.
Qed.

Lemma group_scan_None (package : string) (gs : list (string * list string)) :
  group_scan package gs = None ↔ Forall (λ gm, package ∉ gm.2) gs.
Proof.
  induction gs as [|[g' m'] gs IH]; simpl.
  - split; [constructor|done].
  - case_bool_decide as Hin.
    + split; [done|]. intros Hb. by apply Forall_cons_1 in Hb as [Hb _].
    + rewrite IH. split.
      * intros Hb. by constructor.
      * intros Hb. by apply Forall_cons_1 in Hb as [_ Hb].
Qed.

(** X7.  [checkPackageGroup] answers with the first group, in the order the
    groups were cached, that lists the package, and leaves no event; it
    logs the error and exits exactly when no group lists the package. *)
Theorem checkPackageGroup_first_group (w : world) (package : string) :
  (∀ g, checkPackageGroup package w = (Ret g, w) ↔
        ∃ before members after,
          groups (self w) = (before ++ (g, members) :: after)%list ∧ package ∈ members ∧
          Forall (λ gm, package ∉ gm.2) before) ∧
  (checkPackageGroup package w
     = (SystemExit None, World (self w) (trace w ++ [ungrouped_error package])) ↔
   Forall (λ gm, package ∉ gm.2) (groups (self w))) ∧
  (∀ g w', checkPackageGroup package w = (Ret g, w') → w' = w).
Proof.
  assert (checkPackageGroup package w =
    match group_scan package (groups (self w)) with
    | Some g => (Ret g, w)
    | None => (SystemExit None, World (self w) (trace w ++ [ungrouped_error package]))
    end) as E.
  { unfold checkPackageGroup, bind at 1. cbn [get_self].
    by destruct (group_scan _ _). }
  rewrite E. split; [|split].
  - intros g. rewrite <- group_scan_Some.
    destruct (group_scan _ _); split; congruence.
  - rewrite <- group_scan_None. destruct (group_scan _ _); split; congruence.
  - intros g w'. destruct (group_scan _ _); congruence.
Qed.

End Groups.

Section Creations.

Context `{Platform}.

Lemma created_decisions (t : list event) : created t = omap creation (decisions t).
Proof.
  unfold created, decisions. induction t as [|e t IH]; [done|]. cbn.
  destruct e as [lvl [fmt args]| | | | | |a]; cbn; try exact IH.
  - destruct lvl; [|exact IH]. destruct args as [|[] ?]; try exact IH.
    destruct (String.eqb _ _); cbn; exact IH.
  - by rewrite IH.
Qed.

Lemma creation_decide_entry (obsPackages : gset string) (l : list addPackage_args) :
  omap creation (decide_entry obsPackages <$> l)
    = filter (λ a, ap_package a ∉ obsPackages) l.
Proof.
  induction l as [|a l IH]; [done|]. rewrite fmap_cons, filter_cons. cbn.
  unfold decide_entry at 1. case_bool_decide as Hin; cbn.
  - by rewrite decide_False by auto.
  - rewrite decide_True by auto. by rewrite IH.
Qed.

(** X15.  The reconciliation, when it returns, has called [addPackage] for
    exactly the identities of the expansions of the components that the
    listing lacks, in the order of the components and of each
    expansion. *)
Theorem reconcile_creates_missing (w : world) (components : list string)
    (obsPackages : gset string) :
  let run := main_reconcile components obsPackages in
  let wanted := filter (λ a, ap_package a ∉ obsPackages)
                  (components ≫= expand (self w)) in
  created (events run w) `prefix_of` wanted ∧
  (result run w = Ret tt → created (events run w) = wanted).
Proof.
  intros run wanted.
  assert (omap creation (expected (self w) components obsPackages) = wanted) as Hw.
  { unfold expected, wanted. induction components as [|p ps IH]; [done|].
    cbn. rewrite omap_app, filter_app, IH. f_equal. apply creation_decide_entry. }
  destruct (main_reconcile_decides (self w) components obsPackages w
              (same_config_refl _)) as (_ & evs & E & P & V).
  fold run in E, V. rewrite (events_of _ _ _ E), created_decisions, <- Hw. unfold decisions. split.
  - destruct P as [rest ->]. rewrite omap_app. by apply prefix_app_r.
  - intros Hr. by destruct (V tt Hr) as [-> _].
Qed.

End Creations.

Section LoadLoops.

Context `{Platform}.

Lemma log_families_keeps (l : list string) (w : world) :
  ∃ evs, log_families l w = (result (log_families l) w, World (self w) (trace w ++ evs)).
Proof.
  destruct (respects_keeps anything (log_families l) w) as (evs & E & _); [|by eauto].
  respect ltac:(first [exact Logic.I | done]).
Qed.

Lemma dict_set_fresh {V} (k : string) (v : V) (d : list (string * V)) :
  k ∉ d.*1 → dict_set k v d = (d ++ [(k, v)])%list.
Proof.
  induction d as [|[k' v'] d IH]; [done|]. cbn. intros Hk.
  apply not_elem_of_cons in Hk as [Hne Hk]. rewrite (proj2 (String.eqb_neq _ _) Hne).
  by rewrite IH.
Qed.

Lemma dict_fill_fresh {V} (d kvs : list (string * V)) :
  NoDup (kvs.*1) → (∀ k, k ∈ kvs.*1 → k ∉ d.*1) → dict_fill d kvs = (d ++ kvs)%list.
Proof.
  revert d. induction kvs as [|[k v] kvs IH]; intros d Hn Hd; cbn.
  - by rewrite app_nil_r.
  - apply NoDup_cons in Hn as [Hk Hn]. unfold dict_fill in *. cbn.
    rewrite dict_set_fresh by (apply Hd; left).
    rewrite IH; [by rewrite <- app_assoc|done|].
    intros k' Hk'. rewrite fmap_app. cbn. rewrite elem_of_app, list_elem_of_singleton.
    intros [Hin| ->]; [|done]. apply (Hd k'); [by right|done].
Qed.

Lemma cache_groups (cfg : ConfigParser) (names : list string) (w w1 : world) :
  for_each names (λ group,
    let* components :=
      try_except (lift (ast_literal_eval (configparser.get cfg "groups" group)))
                 (ERROR ("Unable to parse component groups", [])) in
    update (λ o, set_groups (dict_set group components (groups o)) o)) w = (Ret tt, w1) →
  ∃ lists,
    Forall2 (λ group components,
               ast_literal_eval (configparser.get cfg "groups" group) = inr components)
            names lists ∧
    w1 = World (set_groups (dict_fill (groups (self w)) (zip names lists)) (self w)) (trace w).
Proof.
  revert w. induction names as [|g names IH]; intros w; cbn [for_each].
  - intros [= <-]. exists []. split; [constructor|]. by destruct w as [[] ?].
  - intros Hr. apply bind_Ret_inv in Hr as ([] & w2 & Hb & Hr).
    apply bind_Ret_inv in Hb as (components & w3 & Hc & Hu).
    apply try_except_Ret_inv in Hc; [|apply ERROR_never].
    destruct (ast_literal_eval _) as [e|l] eqn:El; [done|]. injection Hc as <- <-.
    injection Hu as <-. apply IH in Hr as (lists & F & ->).
    exists (l :: lists). split; [by constructor|]. reflexivity.
Qed.

End LoadLoops.

Section LoadReturns.

Context `{Platform}.

Ltac fields H :=
  cbn [self trace vip buildConfig parentCompiler parentMPI dryRun buildsToCancel
       branchVer microVer obsProject serviceFile linkFile_compiler compilerFamilies
       MPIFamilies NoBuildPatterns groups
       set_buildConfig set_parentCompiler set_parentMPI set_dryRun set_buildsToCancel
       set_serviceFile set_linkFile_compiler set_compilerFamilies set_MPIFamilies
       set_NoBuildPatterns set_groups] in H.

Ltac step H :=
  first
  [ rewrite run_emit in H
  | rewrite run_get_self in H
  | rewrite run_ret in H
  | rewrite run_update in H
  | rewrite run_assoc in H
  | rewrite run_pct in H by reflexivity
  | rewrite run_ERROR in H; discriminate H
  | rewrite run_raise in H; discriminate H
  | match type of H with
    | bind (lift ?r) _ _ = _ =>
        let E := fresh "E" in
        destruct r eqn:E; cbn [lift] in H; [rewrite run_raise in H; discriminate H|]
    end
  | progress unfold logging_info, os_path_isfile in H ];
  fields H.

Ltac pass H :=
  let Hq := fresh "Hq" in
  let w2 := fresh "w" in
  let evs := fresh "evs" in
  let E := fresh "E" in
  apply bind_Ret_inv in H as ([] & w2 & Hq & H);
  match type of Hq with
  | ?c ?w0 = _ =>
      destruct (respects_keeps anything c w0) as (evs & E & _);
      [ respect ltac:(first [exact Logic.I | done])
      | rewrite E in Hq; apply (f_equal snd) in Hq; cbn [snd] in Hq; subst w2;
        clear E; fields H ]
  end.

(** What [parseConfig] leaves when it returns. *)
Lemma parseConfig_returns (w w' : world) (path : string) :
  parseConfig (Some path) w = (Ret tt, w') →
  vip (self w) = version_in_progress →
  ∃ c dry service link compilers mpis patterns names lists,
    isfile path = true ∧ configparser_read path = ReadOk c ∧
    configparser.getboolean c "global" "dry_run" true = inr dry ∧
    configparser.get c "global" "service_template" = inr service ∧
    configparser.get c "global" "link_compiler_template" = inr link ∧
    ast_literal_eval (configparser.get c version_in_progress "compiler_families")
      = inr compilers ∧
    ast_literal_eval (configparser.get c version_in_progress "mpi_families") = inr mpis ∧
    (0 <? length compilers)%nat = true ∧ (0 <? length mpis)%nat = true ∧
    patterns !! "aarch64" = skip_patterns c "skip_aarch" ∧
    patterns !! "x86_64" = skip_patterns c "skip_x86" ∧
    (∀ arch, arch ≠ "aarch64" → arch ≠ "x86_64" → patterns !! arch = None) ∧
    configparser.options c "groups" = inr names ∧ (0 <? length names)%nat = true ∧
    Forall2 (λ group components,
               ast_literal_eval (configparser.get c "groups" group) = inr components)
            names lists ∧
    self w' = Tool (vip (self w)) c (default EmptyString (head compilers))
                (default EmptyString (head mpis)) dry (buildsToCancel (self w))
                (branchVer (self w)) (microVer (self w)) (obsProject (self w))
                service link compilers mpis patterns (dict_fill [] (zip names lists)).
Proof.
  intros Hr Hvip. unfold parseConfig in Hr.
  repeat step Hr.
  destruct (isfile path) eqn:Hfile; [|discriminate Hr].
  repeat step Hr.
  destruct (configparser_read path) as [c| |] eqn:Hread; [|repeat step Hr..].
  repeat step Hr.
  apply bind_Ret_inv in Hr as ([] & w1 & Hb & Hr).
  apply try_except_Ret_inv in Hb; [|apply pct_ERROR_never].
  repeat step Hb. cbn [update] in Hb. injection Hb as <-.
  repeat step Hr.
  destruct (0 <? length l)%nat eqn:Hc; [|repeat step Hr].
  repeat step Hr.
  destruct (0 <? length l0)%nat eqn:Hm; [|repeat step Hr].
  repeat step Hr.
  pass Hr. repeat step Hr. pass Hr. repeat step Hr.
  rewrite Hvip in Hr.
  destruct (configparser.has_option c version_in_progress "skip_aarch") eqn:Ha;
    repeat step Hr;
    (destruct (configparser.has_option c version_in_progress "skip_x86") eqn:Hx;
     repeat step Hr).
  all: pass Hr; repeat step Hr.
  all: apply bind_Ret_inv in Hr as (names & w3 & Hn & Hr);
    (apply try_except_Ret_inv in Hn; [|apply ERROR_never]);
    repeat step Hn;
    match type of Hn with
    | (if ?b then _ else _) _ = _ => destruct b eqn:Hg; [|discriminate Hn]
    end;
    cbn [ret] in Hn; injection Hn as <- <-.
  all: repeat step Hr.
  all: apply bind_Ret_inv in Hr as ([] & w4 & Hcache & Hr);
    apply cache_groups in Hcache as (lists & Hlists & ->); fields Hr.
  all: repeat step Hr.
  all: pass Hr; repeat step Hr.
  all: cbn [emit self trace] in Hr; injection Hr as <-.
  all: match goal with
       | |- context [set_groups (dict_fill [] (zip ?names ?ls))
                       (set_groups [] (set_NoBuildPatterns ?P _))] =>
           exists c, b, s, s0, l, l0, P, names, ls
       end.
  all: repeat (split; [first [done | eassumption]|]).
  all: unfold skip_patterns; rewrite ?Ha, ?Hx.
  all: repeat match goal with E : ast_literal_eval _ = _ |- _ => rewrite E; clear E end.
  all: cbn [self].
  all: split; [by simplify_map_eq|].
  all: split; [by simplify_map_eq|].
  all: split; [intros arch ? ?; by simplify_map_eq|].
  all: repeat (split; [first [done | eassumption]|]).
  all: reflexivity.
Qed.

End LoadReturns.

Section LoadSettings.

Context `{Platform}.

Lemma head_default (l : list string) :
  (0 <? length l)%nat = true → head l = Some (default EmptyString (head l)).
Proof. by destruct l. Qed.

(** X2.  When [parseConfig] returns, the tool holds the global settings as
    the file gives them: the mode, the two template paths, the two family
    lists, both non-empty, and their first entries as the parent compiler
    and the parent MPI.  The lock list and the project are as they
    were. *)
Theorem parseConfig_global_settings (w w' : world) (path : string) :
  parseConfig (Some path) w = (Ret tt, w') →
  vip (self w) = version_in_progress →
  let o := self w' in
  isfile path = true ∧ configparser_read path = ReadOk (buildConfig o) ∧
  configparser.getboolean (buildConfig o) "global" "dry_run" true = inr (dryRun o) ∧
  configparser.get (buildConfig o) "global" "service_template" = inr (serviceFile o) ∧
  configparser.get (buildConfig o) "global" "link_compiler_template"
    = inr (linkFile_compiler o) ∧
  ast_literal_eval (configparser.get (buildConfig o) version_in_progress "compiler_families")
    = inr (compilerFamilies o) ∧
  ast_literal_eval (configparser.get (buildConfig o) version_in_progress "mpi_families")
    = inr (MPIFamilies o) ∧
  head (compilerFamilies o) = Some (parentCompiler o) ∧
  head (MPIFamilies o) = Some (parentMPI o) ∧
  buildsToCancel o = buildsToCancel (self w) ∧
  obsProject o = obsProject (self w) ∧ vip o = vip (self w).
Proof.
  intros Hr Hvip o.
  destruct (parseConfig_returns w w' path Hr Hvip)
    as (c & dry & service & link & compilers & mpis & patterns & names & lists
        & Hfile & Hread & Hdry & Hs & Hl & Hc & Hm & Hc1 & Hm1 & _ & _ & _ & _ & _ & _ & Ho).
  subst o. rewrite Ho. cbn.
  repeat (split; [first [done | by apply head_default]|]). done.
Qed.


(** X4.  When [parseConfig] returns, and the options of [groups] are
    distinct, the cached groups are these options in file order, each
    with the list its value evaluates to. *)
Theorem parseConfig_groups (w w' : world) (path : string) (names : list string) :
  parseConfig (Some path) w = (Ret tt, w') →
  vip (self w) = version_in_progress →
  configparser.options (buildConfig (self w')) "groups" = inr names →
  NoDup names →
  names ≠ [] ∧
  Forall2 (λ group gm,
             gm.1 = group ∧
             ast_literal_eval (configparser.get (buildConfig (self w')) "groups" group)
               = inr gm.2)
          names (groups (self w')).
Proof.
  intros Hr Hvip Hnames Hnd.
  destruct (parseConfig_returns w w' path Hr Hvip)
    as (c & dry & service & link & compilers & mpis & patterns & names' & lists
        & _ & _ & _ & _ & _ & _ & _ & _ & _ & _ & _ & _ & Hopts & Hlen & Hlists & Ho).
  rewrite Ho in Hnames |- *. cbn [buildConfig groups] in *.
  rewrite Hopts in Hnames. injection Hnames as ->.
  split; [intros ->; discriminate Hlen|].
  pose proof (Forall2_length _ _ _ Hlists) as Hl.
  rewrite dict_fill_fresh.
  - cbn [app]. clear Hnd Hopts Hlen Hl Ho.
    induction Hlists as [|g comps names lists Hg _ IH]; [constructor|].
    change (zip (g :: names) (comps :: lists)) with ((g, comps) :: zip names lists).
    constructor; [by split|exact IH].
  - by rewrite fst_zip by lia.
  - intros k _. cbn. apply not_elem_of_nil.
Qed.

End LoadSettings.

Section LoadErrors.

Context `{Platform}.

Lemma try_fails {A B} (body handler : M A) (k : A → M B) (w w1 : world) (r : outcome A) :
  body w = (r, w1) → (∀ a, r ≠ Ret a) →
  bind (try_except body handler) k w = bind handler k w1.
Proof.
  intros E Hr. unfold bind, try_except. rewrite E. destruct r; [by destruct (Hr a)|done..].
Qed.

Lemma try_returns {A B} (body handler : M A) (k : A → M B) (w w1 : world) (a : A) :
  body w = (Ret a, w1) → bind (try_except body handler) k w = k a w1.
Proof. intros E. unfold bind, try_except. by rewrite E. Qed.

(** X5.  How [parseConfig] ends when the file is not there or cannot be
    parsed.  A missing file logs its error and exits, and the tool is as
    it was.  A duplicate section and a file the parser refuses each log
    their own error and exit; by then the tool holds the fresh parser
    that was given the file, with what it had read before the error, in
    place of the configuration it had, and is otherwise as it was. *)
Theorem parseConfig_file_errors (w : world) (path : string) :
  (isfile path = false →
   parseConfig (Some path) w =
     (SystemExit None,
      World (self w)
        (trace w ++ [reading_line path; EIsFile path;
                     ELog ERROR_level ("--> unable to access input file", [])]))) ∧
  (∀ partial, isfile path = true → configparser_read path = ReadDuplicateSection partial →
   parseConfig (Some path) w =
     (SystemExit None,
      World (set_buildConfig partial (self w))
        (trace w ++ [reading_line path; EIsFile path; EConfigRead path;
                     ELog ERROR_level
                       (Py.nl +:+ "ERROR: Duplicate section detected in configfile: %s",
                        [AStr path])]))) ∧
  (∀ partial, isfile path = true → configparser_read path = ReadFails partial →
   parseConfig (Some path) w =
     (SystemExit None,
      World (set_buildConfig partial (self w))
        (trace w ++ [reading_line path; EIsFile path; EConfigRead path;
                     ELog ERROR_level
                       ("ERROR; Unable to parse runtime config file: %s", [AStr path])]))).
Proof.
  split; [|split].
  - apply parseConfig_missing_file.
  - intros partial. apply parseConfig_duplicate_section.
  - intros partial. apply parseConfig_unparsable.
Qed.

(** X6.  How [parseConfig] ends when the global settings are not as it needs
    them.  When one of the five cannot be read, the [try] block logs its
    error and the process exits.  When all five can be read but the list
    of compiler families or of MPI families is empty, the run ends in an
    [AssertionError] that nothing catches, and no error line is
    logged. *)
Theorem parseConfig_settings_errors (w : world) (path : string) (c : ConfigParser) :
  isfile path = true → configparser_read path = ReadOk c →
  (¬ (∃ dry service link compilers mpis,
        configparser.getboolean c "global" "dry_run" true = inr dry ∧
        configparser.get c "global" "service_template" = inr service ∧
        configparser.get c "global" "link_compiler_template" = inr link ∧
        ast_literal_eval (configparser.get c version_in_progress "compiler_families")
          = inr compilers ∧
        ast_literal_eval (configparser.get c version_in_progress "mpi_families")
          = inr mpis) →
   result (parseConfig (Some path)) w = SystemExit None ∧
   last (trace (final (parseConfig (Some path)) w)) = Some settings_error) ∧
  (∀ dry service link compilers mpis,
     configparser.getboolean c "global" "dry_run" true = inr dry →
     configparser.get c "global" "service_template" = inr service →
     configparser.get c "global" "link_compiler_template" = inr link →
     ast_literal_eval (configparser.get c version_in_progress "compiler_families")
       = inr compilers →
     ast_literal_eval (configparser.get c version_in_progress "mpi_families") = inr mpis →
     compilers = [] ∨ mpis = [] →
     result (parseConfig (Some path)) w = Raise AssertionError ∧
     Forall (λ e, ∀ m, e ≠ ELog ERROR_level m) (events (parseConfig (Some path)) w)).
Proof.
  intros Hfile Hread. split.
  - intros Hbad. unfold result, final, parseConfig.
    run. rewrite Hfile. run. rewrite Hread. run.
    match goal with
    | |- context [bind (try_except ?body ?h) ?k ?W] =>
        assert (∃ e w1, body W = (Raise e, w1)) as (e & w1 & Eb)
    end.
    { run.
      destruct (configparser.getboolean c "global" "dry_run" true) as [e|dry] eqn:E1;
        run; [by eauto|].
      destruct (configparser.get c "global" "service_template") as [e|service] eqn:E2;
        run; [by eauto|].
      destruct (configparser.get c "global" "link_compiler_template") as [e|link] eqn:E3;
        run; [by eauto|].
      destruct (ast_literal_eval (configparser.get c version_in_progress "compiler_families"))
        as [e|compilers] eqn:E4; run; [by eauto|].
      destruct (ast_literal_eval (configparser.get c version_in_progress "mpi_families"))
        as [e|mpis] eqn:E5; run; [by eauto|].
      destruct Hbad. by exists dry, service, link, compilers, mpis. }
    rewrite (try_fails _ _ _ _ _ _ Eb) by done. run. cbn [fst snd trace].
    split; [done|]. apply last_snoc.
  - intros dry service link compilers mpis E1 E2 E3 E4 E5 Hempty.
    assert (parseConfig (Some path) w = (Raise AssertionError, World
              (set_MPIFamilies mpis (set_compilerFamilies compilers
                 (set_linkFile_compiler link (set_serviceFile service
                    (set_dryRun dry (set_buildConfig c (self w)))))))
              (trace w ++ [reading_line path; EIsFile path; EConfigRead path;
                           ELog INFO ("--> file parsing ok", [])]))) as E.
    { unfold parseConfig.
      run. rewrite Hfile. run. rewrite Hread. run.
      erewrite try_returns; [|run; rewrite E1; run; rewrite E2; run; rewrite E3; run;
                               rewrite E4; run; rewrite E5; run; reflexivity].
      run. destruct compilers as [|c1 compilers].
      - run. by rewrite <- !app_assoc.
      - destruct Hempty as [?| ->]; [done|]. run. by rewrite <- !app_assoc. }
    unfold result. rewrite E. split; [done|].
    erewrite events_of; [|unfold final; by rewrite E].
    repeat constructor; intros m; discriminate.
Qed.

End LoadErrors.

Section Registers.

Context `{Platform}.

Lemma created_no_entry (evs : list event) : Forall no_entry evs → created evs = [].
Proof.
  induction 1 as [|e evs He _ IH]; [done|]. unfold created in *. cbn. rewrite IH.
  by destruct e.
Qed.

Lemma quiet_run {A} (c : M A) (w : world) :
  quiet c →
  ∃ evs, trace (final c w) = (trace w ++ evs)%list ∧ created evs = [] ∧
         buildsToCancel (self (final c w)) = buildsToCancel (self w).
Proof.
  intros Hc. destruct (Hc _ w eq_refl) as (Hb & (evs & E & F) & _).
  exists evs. split; [done|]. split; [by apply created_no_entry|done].
Qed.

Lemma registers_quiet {A} (c : M A) : quiet c → registers c.
Proof.
  intros Hc w. destruct (quiet_run c w Hc) as (evs & E & Hn & Hb).
  exists evs, [], []. rewrite Hn, app_nil_r. cbn.
  split; [done|]. split; [done|]. split; [done|]. split; [lia|done].
Qed.

Lemma registers_bind {A B} (c : M A) (k : A → M B) :
  registers c → (∀ a, registers (k a)) → registers (bind c k).
Proof.
  intros Hc Hk w. destruct (Hc w) as (evs1 & l1 & p1 & E1 & B1 & P1 & L1 & V1).
  unfold result, final, bind in *. destruct (c w) as [[a|arg|e] w1]; cbn in *.
  - destruct (Hk a w1) as (evs2 & l2 & p2 & E2 & B2 & P2 & L2 & V2).
    unfold result, final in *.
    exists (evs1 ++ evs2)%list, (l1 ++ l2)%list, p2.
    rewrite E2, E1, B2, B1, !app_assoc, created_app, fmap_app, P1, P2, (V1 a eq_refl).
    rewrite app_nil_r, !app_assoc.
    split; [done|]. split; [done|]. split; [done|]. split; [done|exact V2].
  - exists evs1, l1, p1. do 4 (split; [done|]). intros ? [=].
  - exists evs1, l1, p1. do 4 (split; [done|]). intros ? [=].
Qed.

Lemma registers_for_each {A} (l : list A) (body : A → M unit) :
  (∀ x, registers (body x)) → registers (for_each l body).
Proof.
  intros Hb. induction l as [|x l IH]; cbn.
  - apply registers_quiet. intros b. apply respects_ret.
  - apply registers_bind; auto.
Qed.

Lemma finishes_bind {A B} (p : string) (c : M A) (k : A → M B) :
  quiet c → (∀ a, finishes p (k a)) → finishes p (bind c k).
Proof.
  intros Hc Hk w. destruct (quiet_run c w Hc) as (evs1 & E1 & N1 & B1).
  unfold result, final, bind in *. destruct (c w) as [[a|arg|e] w1]; cbn in *.
  - destruct (Hk a w1) as (evs2 & E2 & N2 & R2 & X2). unfold result, final in *.
    exists (evs1 ++ evs2)%list. rewrite E2, E1, app_assoc, created_app, N1, N2, <- B1.
    split; [done|]. split; [done|]. split; [exact R2|exact X2].
  - exists evs1. split; [done|]. split; [done|]. split; [by intros [? [=]]|done].
  - exists evs1. split; [done|]. split; [done|]. split; [by intros [? [=]]|done].
Qed.

Lemma finishes_self {B} (p : string) (k : ohpc_obs_tool → M B) :
  (∀ o, finishes p (k o)) → finishes p (bind get_self k).
Proof. intros Hk w. exact (Hk (self w) w). Qed.

Lemma finishes_update (p : string) :
  finishes p (update (λ o, set_buildsToCancel (buildsToCancel o ++ [p]) o)).
Proof.
  intros w. exists []. cbn. rewrite app_nil_r. split; [done|]. split; [done|].
  split; [done|]. intros Hn. by destruct (Hn tt).
Qed.

End Registers.

Ltac finish tac :=
  cbv zeta;
  lazymatch goal with
  | |- finishes _ (bind get_self _) => apply finishes_self; intros ?; finish tac
  | |- finishes _ (bind _ _) =>
      apply finishes_bind; [intros ?; respect tac | intros ?; finish tac]
  | |- finishes _ (update _) => apply finishes_update
  | |- finishes _ (if ?b then _ else _) => destruct b; finish tac
  | |- finishes _ (match ?x with _ => _ end) => destruct x; finish tac
  end.

Section Entries.

Context `{Platform}.

Lemma entry_finishes (a : addPackage_args) (k : unit → M unit) :
  (∀ u, finishes (ap_package a) (k u)) →
  ∀ w, let c := (let* _ := emit (EAddPackage a) in k tt) in
    ∃ evs, trace (final c w) = (trace w ++ EAddPackage a :: evs)%list ∧ created evs = [] ∧
      (result c w = Ret tt →
       buildsToCancel (self (final c w)) = (buildsToCancel (self w) ++ [ap_package a])%list) ∧
      (result c w ≠ Ret tt →
       buildsToCancel (self (final c w)) = buildsToCancel (self w)).
Proof.
  intros Hk w c.
  destruct (Hk tt (World (self w) (trace w ++ [EAddPackage a]))) as (evs & E & N & R & X).
  subst c. unfold result, final, bind in *. cbn in *.
  destruct (k tt _) as [r w'] eqn:Ek. cbn in *.
  exists evs. rewrite E, <- app_assoc. split; [done|]. split; [done|]. split.
  - intros ->. apply R. by exists tt.
  - intros Hn. apply X. intros []. congruence.
Qed.

Lemma addPackage_entry (w : world) package parent isCompilerDep compiler parentName gitName :
  let c := addPackage package parent isCompilerDep compiler parentName gitName in
  ∃ evs,
    trace (final c w)
      = (trace w ++ EAddPackage (AddPackage package parent isCompilerDep compiler
                                   parentName gitName) :: evs)%list ∧
    created evs = [] ∧
    (result c w = Ret tt →
     buildsToCancel (self (final c w)) = (buildsToCancel (self w) ++ [package])%list) ∧
    (result c w ≠ Ret tt →
     buildsToCancel (self (final c w)) = buildsToCancel (self w)).
Proof.
  unfold addPackage.
  apply (entry_finishes (AddPackage package parent isCompilerDep compiler parentName gitName)
           (λ _, _)).
  intros u. cbv beta. cbn [ap_package].
  finish ltac:(first [done | exact Logic.I]).
Qed.

Lemma addPackage_registers package parent isCompilerDep compiler parentName gitName :
  registers (addPackage package parent isCompilerDep compiler parentName gitName).
Proof.
  intros w.
  destruct (addPackage_entry w package parent isCompilerDep compiler parentName gitName)
    as (evs & E & N & R & X).
  eexists (_ :: evs). unfold created in *. cbn. rewrite N. cbn.
  destruct (result _ w) as [[]|arg|e] eqn:Er.
  - exists [package], []. split; [done|]. split; [by apply R|]. cbn.
    split; [done|]. split; [lia|done].
  - exists [], [package]. rewrite app_nil_r. split; [done|]. split; [by apply X|].
    cbn. split; [done|]. split; [lia|]. intros ? [=].
  - exists [], [package]. rewrite app_nil_r. split; [done|]. split; [by apply X|].
    cbn. split; [done|]. split; [lia|]. intros ? [=].
Qed.

End Entries.

Section RegistersSelf.
Context `{Platform}.
Lemma registers_self {B} (k : ohpc_obs_tool → M B) :
  (∀ o, registers (k o)) → registers (bind get_self k).
Proof. intros Hk w. exact (Hk (self w) w). Qed.
End RegistersSelf.

Ltac register tac :=
  cbv zeta;
  lazymatch goal with
  | |- registers (addPackage _ _ _ _ _ _) => apply addPackage_registers
  | |- registers (bind get_self _) => apply registers_self; intros ?; register tac
  | |- registers (bind _ _) => apply registers_bind; [register tac | intros ?; register tac]
  | |- registers (for_each _ _) => apply registers_for_each; intros ?; register tac
  | |- registers (if ?b then _ else _) => destruct b; register tac
  | |- registers (match ?x with _ => _ end) => destruct x; register tac
  | |- registers _ => apply registers_quiet; intros ?; respect tac
  end.

Section Locks.

Context `{Platform}.

Lemma main_reconcile_registers components obsPackages :
  registers (main_reconcile components obsPackages).
Proof.
  unfold main_reconcile, main_package, main_standalone, main_compiler_dep, cancelNewBuilds.
  register ltac:(first [done | exact Logic.I]).
Qed.

(** X13.  The lock list follows the creations.  An [addPackage] call that
    returns has appended its package to the list, and one that ends early
    leaves the list as it was.  Over a whole reconciliation the list
    grows by the packages of the [addPackage] calls made, in order: by
    all of them when the reconciliation returns, by all of them or all
    but the last when it ends early. *)
Theorem lock_list_follows_creations (w : world) :
  (∀ package parent isCompilerDep compiler parentName gitName,
     let run := addPackage package parent isCompilerDep compiler parentName gitName in
     (result run w = Ret tt →
      buildsToCancel (self (final run w)) = (buildsToCancel (self w) ++ [package])%list) ∧
     (result run w ≠ Ret tt →
      buildsToCancel (self (final run w)) = buildsToCancel (self w))) ∧
  (∀ components obsPackages,
     let run := main_reconcile components obsPackages in
     ∃ locked pending,
       buildsToCancel (self (final run w)) = (buildsToCancel (self w) ++ locked)%list ∧
       ap_package <$> created (events run w) = (locked ++ pending)%list ∧
       (List.length pending ≤ 1)%nat ∧
       (result run w = Ret tt → pending = [])).
Proof.
  split.
  - intros package parent isCompilerDep compiler parentName gitName run.
    destruct (addPackage_entry w package parent isCompilerDep compiler parentName gitName)
      as (evs & E & N & R & X). split; [exact R|exact X].
  - intros components obsPackages run.
    destruct (main_reconcile_registers components obsPackages w)
      as (evs & locked & pending & E & B & P & L & V). fold run in E, B, V.
    exists locked, pending. rewrite (events_of _ _ _ E).
    split; [exact B|]. split; [exact P|]. split; [exact L|exact (V tt)].
Qed.

End Locks.

Section Uploads.

Context `{Platform}.

(** X11.  A real creation of a parent, when the service template is there,
    the package is in a group, the two pattern searches return and the
    remote calls succeed: apart from
    log lines, [addPackage] reads the template, uploads the [_meta]
    file, then the empty marker file, then the [_service] file made from
    the template, and registers the package for locking. *)
Theorem addPackage_parent_uploads (w : world) (package : string) (isCompilerDep : bool)
    (compiler parentName gitName : option string) (group : string) (a x : bool) :
  let o := self w in
  let run := addPackage package true isCompilerDep compiler parentName gitName in
  let meta := meta_text (obsProject o) package a x in
  let service := service_text o group (default package gitName) in
  dryRun o = false →
  isfile (serviceFile o) = true →
  group_scan (default package gitName) (groups o) = Some group →
  disableBuild o package "aarch64" = inr a →
  disableBuild o package "x86_64" = inr x →
  transport_ok →
  result run w = Ret tt ∧
  self (final run w) = set_buildsToCancel (buildsToCancel o ++ [package]) o ∧
  omap deed (events run w) =
    [ EAddPackage (AddPackage package true isCompilerDep compiler parentName gitName);
      EIsFile (serviceFile o); EOpenRead (serviceFile o);
      ETempFile meta; ECheckOutput (put_command o package (TmpName meta) "_meta");
      ETempFile EmptyString;
      ECheckOutput (put_command o package (TmpName EmptyString) "_obs_config_ready_for_build");
      ETempFile service; ECheckOutput (put_command o package (TmpName service) "_service") ].
Proof.
  intros o run meta service Hd Hfile Hg Ha Hx Hok.
  assert (∃ evs, run w = (Ret tt, World (set_buildsToCancel (buildsToCancel o ++ [package]) o)
                                    (trace w ++ evs)) ∧
     omap deed evs =
    [ EAddPackage (AddPackage package true isCompilerDep compiler parentName gitName);
      EIsFile (serviceFile o); EOpenRead (serviceFile o);
      ETempFile meta; ECheckOutput (put_command o package (TmpName meta) "_meta");
      ETempFile EmptyString;
      ECheckOutput (put_command o package (TmpName EmptyString) "_obs_config_ready_for_build");
      ETempFile service; ECheckOutput (put_command o package (TmpName service) "_service") ])
    as (evs & E & Hevs).
  { subst run meta service o. unfold addPackage. run. rewrite Hfile. run.
    unfold checkPackageGroup.
    destruct gitName as [g|]; cbn [default from_option id] in *; run; rewrite Hg; run.
    all: meta_step Ha Hx; run; rewrite Hd; cbn [negb]; run.
    all: call_step Hok; run; call_step Hok; run; call_step Hok; run.
    all: cbn [update]; rewrite <- !app_assoc.
    all: eexists; (split; [reflexivity|]).
    all: rewrite !omap_app, Hlogs; reflexivity. }
  unfold result, final. rewrite (events_of _ _ _ (f_equal trace (f_equal snd E))).
  rewrite E. by repeat split.
Qed.

(** X12.  A real creation of a child, when both templates are there, the
    two pattern searches return and the remote calls succeed: apart from
    log lines, [addPackage] reads the
    service template, uploads the [_meta] file, then the empty marker
    file, reads the link template and uploads the [_link] file made from
    it, and registers the package for locking.  No group is looked
    up. *)
Theorem addPackage_child_uploads (w : world) (package compiler parentName : string)
    (gitName : option string) (a x : bool) :
  let o := self w in
  let run := addPackage package false true (Some compiler) (Some parentName) gitName in
  let meta := meta_text (obsProject o) package a x in
  let link := link_text o parentName compiler in
  dryRun o = false →
  isfile (serviceFile o) = true →
  isfile (linkFile_compiler o) = true →
  disableBuild o package "aarch64" = inr a →
  disableBuild o package "x86_64" = inr x →
  transport_ok →
  result run w = Ret tt ∧
  self (final run w) = set_buildsToCancel (buildsToCancel o ++ [package]) o ∧
  omap deed (events run w) =
    [ EAddPackage (AddPackage package false true (Some compiler) (Some parentName) gitName);
      EIsFile (serviceFile o); EOpenRead (serviceFile o);
      ETempFile meta; ECheckOutput (put_command o package (TmpName meta) "_meta");
      ETempFile EmptyString;
      ECheckOutput (put_command o package (TmpName EmptyString) "_obs_config_ready_for_build");
      EIsFile (linkFile_compiler o); EOpenRead (linkFile_compiler o);
      ETempFile link; ECheckOutput (put_command o package (TmpName link) "_link") ].
Proof.
  intros o run meta link Hd Hfile Hlink Ha Hx Hok.
  assert (∃ evs, run w = (Ret tt, World (set_buildsToCancel (buildsToCancel o ++ [package]) o)
                                    (trace w ++ evs)) ∧
     omap deed evs =
    [ EAddPackage (AddPackage package false true (Some compiler) (Some parentName) gitName);
      EIsFile (serviceFile o); EOpenRead (serviceFile o);
      ETempFile meta; ECheckOutput (put_command o package (TmpName meta) "_meta");
      ETempFile EmptyString;
      ECheckOutput (put_command o package (TmpName EmptyString) "_obs_config_ready_for_build");
      EIsFile (linkFile_compiler o); EOpenRead (linkFile_compiler o);
      ETempFile link; ECheckOutput (put_command o package (TmpName link) "_link") ])
    as (evs & E & Hevs).
  { subst run meta link o. unfold addPackage. run. rewrite Hfile. run.
    meta_step Ha Hx; run; rewrite Hd; cbn [negb]; run.
    call_step Hok; run; call_step Hok; run.
    rewrite bool_decide_true by eauto. run. rewrite Hlink. run.
    call_step Hok; run.
    cbn [update]; rewrite <- !app_assoc.
    eexists; (split; [reflexivity|]).
    rewrite !omap_app, Hlogs; reflexivity. }
  unfold result, final. rewrite (events_of _ _ _ (f_equal trace (f_equal snd E))).
  rewrite E. by repeat split.
Qed.

End Uploads.

Section Partial.

Context `{Platform}.

(** X19.  A real creation that fails half way leaves what it had uploaded.
    The two pattern searches having returned, when the upload of
    [_meta] fails, nothing else is attempted; when it succeeds and the
    upload of the marker fails, the package exists in the registry
    without marker, service or link file.  In both cases the error for
    that upload is logged, the process exits, and the package is not
    registered for locking. *)
Theorem addPackage_upload_failure (w : world) (package : string) (parent isCompilerDep : bool)
    (compiler parentName gitName : option string) (group : string) (a x : bool) :
  let o := self w in
  let run := addPackage package parent isCompilerDep compiler parentName gitName in
  let meta := meta_text (obsProject o) package a x in
  let put_meta := put_command o package (TmpName meta) "_meta" in
  let put_marker := put_command o package (TmpName EmptyString)
                      "_obs_config_ready_for_build" in
  dryRun o = false →
  isfile (serviceFile o) = true →
  parent = false ∨ group_scan (default package gitName) (groups o) = Some group →
  disableBuild o package "aarch64" = inr a →
  disableBuild o package "x86_64" = inr x →
  ((∀ t, check_output t put_meta = None) →
   result run w = SystemExit None ∧ self (final run w) = o ∧
   remote_calls (events run w) = [put_meta] ∧
   last (events run w)
     = Some (ELog ERROR_level (Py.nl +:+ "Unable to add new package (%s) to OBS",
                               [AStr package]))) ∧
  ((∀ t, is_Some (check_output t put_meta)) → (∀ t, check_output t put_marker = None) →
   result run w = SystemExit None ∧ self (final run w) = o ∧
   remote_calls (events run w) = [put_meta; put_marker] ∧
   last (events run w)
     = Some (ELog ERROR_level (Py.nl +:+ "Unable to add marker file for package (%s) to OBS",
                               [AStr package]))).
Proof.
  intros o run meta put_meta put_marker Hd Hfile Hg Ha Hx. split.
  - intros Hfail.
    destruct (addPackage_meta_upload_fails w package parent isCompilerDep compiler parentName
                gitName group a x Hd Hfile Hg Ha Hx Hfail) as (evs & E & Hevs & Hlast).
    destruct (run_reading _ _ _ _ _ E) as (Hr & Hs & He). fold run in Hr, Hs, He.
    by rewrite Hr, Hs, He.
  - intros Hok Hfail.
    destruct (addPackage_marker_upload_fails w package parent isCompilerDep compiler
                parentName gitName group a x Hd Hfile Hg Ha Hx Hok Hfail)
      as (evs & E & Hevs & Hlast).
    destruct (run_reading _ _ _ _ _ E) as (Hr & Hs & He). fold run in Hr, Hs, He.
    by rewrite Hr, Hs, He.
Qed.

End Partial.

Section ConfigFile.

Context `{Platform}.

Lemma respects_weaken {A} I (ok ok' : event → Prop) (c : M A) :
  (∀ e, ok e → ok' e) → respects I ok c → respects I ok' c.
Proof.
  intros Hok Hc w HI. destruct (Hc w HI) as (HI' & (evs & E & F) & X).
  split; [done|]. split; [|done]. exists evs. split; [done|].
  eapply Forall_impl; [exact F|exact Hok].
Qed.

Lemma respects_extends {A} (c : M A) (w : world) :
  respects any_tool anything c → ∃ evs, trace (snd (c w)) = (trace w ++ evs)%list.
Proof. intros Hc. destruct (Hc w Logic.I) as (_ & (evs & E & _) & _). by exists evs. Qed.

Lemma addPackage_reads_configFile package parent isCompilerDep compiler parentName gitName :
  respects any_tool reads_configFile
    (addPackage package parent isCompilerDep compiler parentName gitName).
Proof. unfold addPackage. respect ltac:(first [exact Logic.I | done]). Qed.

Lemma main_reads_configFile args : respects any_tool reads_configFile (main args).
Proof.
  unfold main, main_reconcile, main_package, main_standalone, main_compiler_dep,
    cancelNewBuilds.
  respect ltac:(first [apply addPackage_reads_configFile | exact Logic.I | done]).
Qed.

(** X16.  Whatever [--configFile] names, [main] loads the file of the global
    [configFile]: the path given on the command line changes nothing, the
    first file [main] looks at is [configFile], and no other file is read
    as a configuration. *)
Theorem main_loads_global_configFile (args : arguments) (w : world) :
  (∀ path, main (Args path (args_dryrun args)) = main args) ∧
  head (omap file_access (events (main args) w)) = Some (EIsFile configFile) ∧
  Forall reads_configFile (events (main args) w).
Proof.
  split; [by destruct args|]. split.
  - unfold events, final, main, init, parseConfig. run.
    match goal with
    | |- context [snd (?c ?W)] => destruct (respects_extends c W) as [evs E]
    end.
    { unfold main_reconcile, main_package, main_standalone, main_compiler_dep,
        cancelNewBuilds.
      respect ltac:(first [apply addPackage_respects_any | exact Logic.I | done]). }
    rewrite E. cbn [trace]. rewrite <- !app_assoc, drop_app_length. reflexivity.
  - destruct (main_reads_configFile args w Logic.I) as (_ & (evs & E & F) & _).
    by rewrite (events_of _ _ _ E).
Qed.

End ConfigFile.

Section DryMain.

Context `{Platform}.

Lemma not_remote_read_only (e : event) : not_remote e → read_only e.
Proof. unfold not_remote. destruct e; cbn; tauto. Qed.

Lemma init_vip (w w0 : world) : init w = (Ret tt, w0) → vip (self w0) = version_in_progress.
Proof. unfold init. run. cbn [update ret bind emit]. by intros [= <-]. Qed.

(** X17.  A run of [main] without [--no-dryrun], on a configuration whose
    [dry_run] is true or absent, changes nothing in the registry: the
    only command it runs is the [GET] that lists the project. *)
Theorem dry_main_is_read_only (args : arguments) (w : world) (c : ConfigParser) :
  args_dryrun args = true →
  configparser_read configFile = ReadOk c →
  configparser.getboolean c "global" "dry_run" true = inr true →
  Forall read_only (events (main args) w).
Proof.
  intros Hargs Hread Hdry.
  assert (∃ R : M unit,
    (∀ w, main args w = bind (let* _ := init in parseConfig (Some configFile)) (λ _, R) w) ∧
    respects (λ o, dryRun o = true) read_only R) as (R & Hmain & HR).
  { eexists. split.
    - intros w0. unfold main. rewrite Hargs. cbn [negb]. rewrite run_assoc. reflexivity.
    - respect ltac:(first
        [ eapply respects_weaken; [apply not_remote_read_only | apply main_reconcile_dry]
        | exact Logic.I | done ]). }
  assert (Forall read_only (events (let* _ := init in parseConfig (Some configFile)) w)
          ∧ trace (final (let* _ := init in parseConfig (Some configFile)) w)
            = (trace w ++ events (let* _ := init in parseConfig (Some configFile)) w)%list)
    as [Fload Eload].
  { destruct (load_quiet w Logic.I) as (_ & (evs & E & F) & _).
    rewrite (events_of _ _ _ E). split; [|done].
    eapply Forall_impl; [exact F|apply not_remote_read_only]. }
  unfold events, final in *. rewrite Hmain.
  destruct ((let* _ := init in parseConfig (Some configFile)) w) as [r w1] eqn:El.
  cbn [snd] in *. destruct r as [[]|arg|e].
  - rewrite (run_step _ _ _ _ _ El).
    apply bind_Ret_inv in El as ([] & w0 & Hi & Hp).
    destruct (parseConfig_returns w0 w1 configFile Hp (init_vip _ _ Hi))
      as (c' & dry & service & link & compilers & mpis & patterns & names & lists
          & _ & Hc & Hd & _ & _ & _ & _ & _ & _ & _ & _ & _ & _ & _ & _ & Ho).
    rewrite Hread in Hc. injection Hc as <-. rewrite Hdry in Hd. injection Hd as <-.
    assert (dryRun (self w1) = true) as Hd by (by rewrite Ho).
    destruct (HR w1 Hd) as (_ & (evs & E & F) & _).
    unfold final in E. rewrite E, Eload, <- app_assoc, drop_app_length.
    rewrite Eload, drop_app_length in Fload. by apply Forall_app.
  - rewrite (run_exit _ _ _ _ _ El). exact Fload.
  - rewrite (run_raises _ _ _ _ _ El). exact Fload.
Qed.

End DryMain.

Section Flags.

Context `{Platform}.

Lemma getboolean_inl (c : ConfigParser) (section option : string) (fallback : bool) (e : exn) :
  configparser.getboolean c section option fallback = inl e ↔
  e = ValueError ∧
  ∃ value, configparser.get c section option = inr value ∧
           Py.lower value ∉ ["1"; "yes"; "true"; "on"; "0"; "no"; "false"; "off"].
Proof.
  unfold configparser.getboolean, configparser.convert_to_boolean.
  change ["1"; "yes"; "true"; "on"; "0"; "no"; "false"; "off"]
    with (["1"; "yes"; "true"; "on"] ++ ["0"; "no"; "false"; "off"])%list.
  destruct (configparser.get c section option) as [e'|value].
  - split; [done|]. by intros (_ & ? & ? & _).
  - case_bool_decide as Hyes; [|case_bool_decide as Hno].
    + split; [done|]. intros (_ & v & [= <-] & Hv). destruct Hv.
      apply elem_of_app. by left.
    + split; [done|]. intros (_ & v & [= <-] & Hv). destruct Hv.
      apply elem_of_app. by right.
    + split; [|by intros [-> _]]. intros [= <-]. split; [done|].
      exists value. split; [done|]. by intros [?|?]%elem_of_app.
Qed.

Lemma main_package_same_config o0 obsPackages package :
  respects (same_config o0) no_lock (main_package obsPackages package).
Proof.
  assert (∀ package parent isCompilerDep compiler parentName gitName,
    respects (same_config o0) no_lock
      (addPackage package parent isCompilerDep compiler parentName gitName)) as Ha.
  { intros. unfold addPackage.
    respect ltac:(first [by apply same_config_set | exact Logic.I | done]). }
  unfold main_package, main_standalone, main_compiler_dep.
  respect ltac:(first [apply Ha | exact Logic.I | done]).
Qed.

Lemma flags_same_config (o0 o : ohpc_obs_tool) (package : string) :
  same_config o0 o →
  compiler_dep_flag o package = compiler_dep_flag o0 package ∧
  mpi_dep_flag o package = mpi_dep_flag o0 package.
Proof. by intros [b ->]. Qed.

Lemma for_each_raises {A} (l : list A) (x : A) (rest : list A) (body : A → M unit)
    (w w1 w2 : world) (e : exn) :
  for_each l body w = (Ret tt, w1) → body x w1 = (Raise e, w2) →
  for_each (l ++ x :: rest) body w = (Raise e, w2).
Proof.
  intros El Ex. revert w El. induction l as [|y l IH]; intros w El.
  - cbn in El. injection El as <-. cbn [app for_each].
    by rewrite (run_raises _ _ _ _ _ Ex).
  - cbn [app for_each] in *. apply bind_Ret_inv in El as ([] & w3 & Hy & El).
    rewrite (run_step _ _ _ _ _ Hy). by apply IH.
Qed.

(** X9.  A flag whose value is not one of the words [getboolean] knows ends
    the reconciliation in a [ValueError] that nothing catches, at the
    package that carries it.  The packages before it have been dealt
    with, the ones after it are not looked at, and the lock flush is not
    reached: no hold is requested for what the run created. *)
Theorem malformed_flag_ends_reconciliation (w : world) (before after : list string)
    (bad : string) (obsPackages : gset string) (flag value : string) :
  let w0 := World (self w) (trace w ++ [ELog INFO (EmptyString, [])]) in
  result (for_each before (main_package obsPackages)) w0 = Ret tt →
  flag = "compiler_dep" ∨ flag = "mpi_dep" →
  configparser.get (buildConfig (self w)) (vip (self w) +:+ "/" +:+ bad) flag = inr value →
  Py.lower value ∉ ["1"; "yes"; "true"; "on"; "0"; "no"; "false"; "off"] →
  let run := main_reconcile (before ++ bad :: after) obsPackages in
  result run w = Raise ValueError ∧
  events run w
    = ELog INFO (EmptyString, []) :: events (for_each before (main_package obsPackages)) w0 ∧
  Forall no_lock (events run w).
Proof.
  intros w0 Hbefore Hflag Hget Hvalue run.
  assert (compiler_dep_flag (self w) bad = inl ValueError
          ∨ mpi_dep_flag (self w) bad = inl ValueError) as Hbad.
  { unfold compiler_dep_flag, mpi_dep_flag.
    destruct Hflag as [-> | ->]; [left|right]; apply getboolean_inl; eauto. }
  assert (respects (same_config (self w)) no_lock
            (for_each before (main_package obsPackages))) as Hloop
    by (apply respects_for_each; intros; apply main_package_same_config).
  destruct (Hloop w0 (same_config_refl _)) as (Hs & (evs & E & F) & _).
  rewrite (events_of _ _ _ E).
  unfold result, final in *.
  destruct (for_each before (main_package obsPackages) w0) as [r w1] eqn:Ew.
  cbn [fst snd] in *. subst r.
  destruct (flags_same_config _ _ bad Hs) as [Hc Hm].
  assert (main_package obsPackages bad w1 = (Raise ValueError, w1)) as Eb.
  { rewrite main_package_by_flags, Hc, Hm.
    destruct Hbad as [Hb|Hb].
    - by rewrite Hb.
    - rewrite Hb.
      destruct (compiler_dep_flag (self w) bad) as [e'|b] eqn:Ec; [|by destruct b].
      by apply getboolean_inl in Ec as [-> _]. }
  assert (run w = (Raise ValueError, w1)) as Er.
  { subst run. unfold main_reconcile. run. fold w0.
    by rewrite (run_raises _ _ _ _ _ (for_each_raises _ _ after _ _ _ _ _ Ew Eb)). }
  rewrite Er. cbn [fst snd]. split; [done|].
  assert (events run w = ELog INFO (EmptyString, []) :: evs) as ->.
  { apply events_of. unfold final. rewrite Er. cbn [snd]. rewrite E.
    subst w0. cbn [trace]. by rewrite <- app_assoc. }
  split; [done|]. by constructor.
Qed.

End Flags.

Section Top.

Context `{Platform}.

(** X8.  A package whose section sets neither flag is standalone: the loop
    deals with it through the standalone arm, and it stands for one
    identity, its own name, created as a parent. *)
Theorem unflagged_package_is_standalone (w : world) (obsPackages : gset string)
    (package : string) (e1 e2 : exn) :
  let section := vip (self w) +:+ "/" +:+ package in
  configparser.get (buildConfig (self w)) section "compiler_dep" = inl e1 →
  configparser.get (buildConfig (self w)) section "mpi_dep" = inl e2 →
  isStandalone package w = (Ret true, w) ∧
  main_package obsPackages package w = main_standalone obsPackages package w ∧
  expand (self w) package = [AddPackage package true false None None None].
Proof.
  intros section Hc Hm.
  assert (compiler_dep_flag (self w) package = inr false) as Ec
    by (unfold compiler_dep_flag, configparser.getboolean; fold section; by rewrite Hc).
  assert (mpi_dep_flag (self w) package = inr false) as Em
    by (unfold mpi_dep_flag, configparser.getboolean; fold section; by rewrite Hm).
  split; [|split].
  - by rewrite isStandalone_run, Ec, Em.
  - by rewrite main_package_by_flags, Ec, Em.
  - unfold expand. by rewrite Ec, Em.
Qed.

(** X10.  The three ways [queryOBSPackages] ends.  It asks for the listing of
    the project once.  When the command fails it logs an error and
    exits.  When the answer is not XML it ends in the parser's exception.
    Otherwise it returns the names of the entries as a set and logs how
    many distinct names there are.  The tool is not changed. *)
Theorem queryOBSPackages_cases (w : world) :
  let o := self w in
  let asked := (trace w ++ [listing_line o; ECheckOutput (listing_command o)])%list in
  (check_output (trace w ++ [listing_line o]) (listing_command o) = None →
   queryOBSPackages w =
     (SystemExit None,
      World o (asked ++ [ELog ERROR_level ("Unable to queryPackages from obs", [])]))) ∧
  (∀ s, check_output (trace w ++ [listing_line o]) (listing_command o) = Some s →
        xml_entry_names s = None →
        queryOBSPackages w = (Raise XMLParseError, World o asked)) ∧
  (∀ s names, check_output (trace w ++ [listing_line o]) (listing_command o) = Some s →
        xml_entry_names s = Some names →
        queryOBSPackages w =
          (Ret (list_to_set names),
           World o (asked ++ [ELog INFO ("[queryOBSPackages]: %i packages defined",
                                         [AInt (size (list_to_set names : gset string))])]))).
Proof.
  intros o asked. subst o asked. unfold listing_line, listing_command.
  split; [|split].
  - intros Hc. unfold queryOBSPackages. run. rewrite run_check_output.
    cbn [self trace]. rewrite Hc. run. by rewrite <- !app_assoc.
  - intros s Hc Hx. unfold queryOBSPackages. run. rewrite run_check_output.
    cbn [self trace]. rewrite Hc. run. rewrite Hx. run. by rewrite <- !app_assoc.
  - intros s names Hc Hx. unfold queryOBSPackages. run. rewrite run_check_output.
    cbn [self trace]. rewrite Hc. run. rewrite Hx. run. cbn [ret].
    by rewrite <- !app_assoc.
Qed.

End Top.

Section Configuration.

Context `{Platform}.

(** X20.  The reconciliation leaves the loaded configuration alone.  However
    it ends, the tool object after [main_reconcile] is the one it
    started from in every field but the lock list: the mode, the
    templates, the families, the skip patterns and the groups are not
    written after [parseConfig] and [overrideDryRun]. *)
Theorem reconcile_keeps_configuration (w : world) (components : list string)
    (obsPackages : gset string) :
  let o' := self (final (main_reconcile components obsPackages) w) in
  o' = set_buildsToCancel (buildsToCancel o') (self w).
Proof.
  intros o'.
  destruct (main_reconcile_decides (self w) components obsPackages w (same_config_refl _))
    as [[b Hb] _].
  subst o'. by rewrite Hb.
Qed.

End Configuration.

Section Throws.

Context `{Platform}.

Lemma throws_ret {A} (a : A) : throws (ret a).
Proof. intros w HI. split; [done|]. intros e [=]. Qed.

Lemma throws_emit (e : event) : throws (emit e).
Proof. intros w HI. split; [done|]. intros ? [=]. Qed.

Lemma throws_update (f : ohpc_obs_tool → ohpc_obs_tool) :
  (∀ o, initialised o → initialised (f o)) → throws (update f).
Proof. intros Hf w HI. split; [by apply Hf|]. intros ? [=]. Qed.

Lemma throws_ERROR {A} (m : message) : throws (ERROR (A:=A) m).
Proof. intros w HI. split; [done|]. intros ? [=]. Qed.

Lemma throws_check_output (cmd : list carg) : throws (subprocess_check_output cmd).
Proof. intros w HI. split; [done|]. intros ? [=]. Qed.

Lemma throws_raise {A} (e : exn) :
  (∀ w, expected_exception e w) → throws (raise (A:=A) e).
Proof. intros He w HI. split; [done|]. intros ? [= <-]. apply He. Qed.

Lemma throws_lift {A} (r : exn + A) :
  (∀ e, r = inl e → ∀ w, expected_exception e w) → throws (lift r).
Proof. destruct r; [intros He; apply throws_raise; by apply He | intros _; apply throws_ret]. Qed.

Lemma throws_bind {A B} (c : M A) (k : A → M B) :
  throws c → (∀ a, throws (k a)) → throws (bind c k).
Proof.
  intros Hc Hk w HI. destruct (Hc w HI) as [HI1 X1].
  unfold result, final, bind in *. destruct (c w) as [[a|arg|e] w1]; cbn in *.
  - exact (Hk a w1 HI1).
  - split; [done|]. intros ? [=].
  - split; [done|]. intros ? [= <-]. by apply X1.
Qed.

Lemma throws_self {B} (k : ohpc_obs_tool → M B) :
  (∀ o, initialised o → throws (k o)) → throws (bind get_self k).
Proof. intros Hk w HI. exact (Hk (self w) HI w HI). Qed.

Lemma throws_ret_bind {A B} (a : A) (k : A → M B) : throws (k a) → throws (bind (ret a) k).
Proof. intros Hk. exact Hk. Qed.

Lemma throws_assoc {A B C} (c : M A) (f : A → M B) (g : B → M C) :
  throws (bind c (λ x, bind (f x) g)) → throws (bind (bind c f) g).
Proof.
  intros Hc w HI. unfold result, final. rewrite run_assoc. exact (Hc w HI).
Qed.

Lemma throws_pct_bind {B} fmt args (k : message → M B) :
  Nat.eqb (Py.specifiers fmt) (length args) = true →
  throws (k (fmt, args)) → throws (bind (fmt %% args) k).
Proof.
  intros Hf Hk w HI. unfold result, final. rewrite run_pct by done. exact (Hk w HI).
Qed.

Lemma throws_try_except {A} (body handler : M A) :
  respects initialised anything body → throws handler → throws (try_except body handler).
Proof.
  intros Hb Hh w HI. destruct (Hb w HI) as (HI1 & _).
  unfold result, final, try_except in *. destruct (body w) as [[a|arg|e] w1]; cbn in *.
  - split; [done|]. intros ? [=].
  - exact (Hh w1 HI1).
  - exact (Hh w1 HI1).
Qed.

Lemma throws_for_each {A} (l : list A) (body : A → M unit) :
  (∀ x, throws (body x)) → throws (for_each l body).
Proof.
  intros Hb. induction l as [|x l IH]; cbn; [apply throws_ret|].
  apply throws_bind; auto.
Qed.

(** The probe and the read of a template: the slip in the error line
    turns a missing template into a [TypeError]. *)
Lemma throws_template {B} (path fmt : string) (k : string → M B) :
  (∀ contents, throws (k contents)) →
  throws (let* present := os_path_isfile path in
          let* contents :=
            if present then open_read path
            else let* m := fmt %% [AStr path] in ERROR m in
          k contents).
Proof.
  intros Hk w HI. unfold result, final, os_path_isfile, open_read.
  rewrite run_assoc, run_emit, run_ret.
  destruct (isfile path) eqn:Hfile.
  - rewrite !run_assoc, run_emit, run_ret. apply Hk. exact HI.
  - rewrite !run_assoc. unfold pct. destruct (Nat.eqb _ _).
    + rewrite run_ret, run_ERROR. split; [done|]. intros ? [=].
    + rewrite run_raise. split; [done|]. intros ? [= <-]. cbn. eauto.
Qed.

Lemma has_option_get_inr (c : ConfigParser) (section option : string) :
  configparser.has_option c section option = true →
  ∃ v, configparser.get c section option = inr v.
Proof.
  unfold configparser.has_option, configparser.get.
  destruct (assoc section c) as [opts|]; [|done].
  intros [v ->]%bool_decide_eq_true. eauto.
Qed.

Lemma literal_eval_expected (c : ConfigParser) (section option : string) (e : exn) (w : world) :
  configparser.has_option c section option = true →
  ast_literal_eval (configparser.get c section option) = inl e →
  expected_exception e w.
Proof.
  intros [v Hv]%has_option_get_inr. rewrite Hv. unfold ast_literal_eval.
  destruct (literal_eval v); [done|]. by intros [= <-].
Qed.

Lemma disableBuild_expected (o : ohpc_obs_tool) (package arch : string) (e : exn)
    (w : world) :
  disableBuild o package arch = inl e → expected_exception e w.
Proof.
  unfold disableBuild. destruct (NoBuildPatterns o !! arch) as [patterns|]; [|done].
  induction patterns as [|q patterns IH]; cbn; [done|].
  destruct (re_search q package) as [[|]|]; [done|exact IH|by intros [= <-]].
Qed.

Lemma getboolean_expected (c : ConfigParser) (section option : string) (fb : bool)
    (e : exn) (w : world) :
  configparser.getboolean c section option fb = inl e → expected_exception e w.
Proof. by intros [-> _]%getboolean_inl. Qed.

End Throws.

(** [throw] walks through a computation that is called as [main] calls
    it. *)
Ltac throw :=
  cbv beta iota zeta;
  lazymatch goal with
  | |- throws (bind (ret _) _) => apply throws_ret_bind; throw
  | |- throws (bind (bind (os_path_isfile _) _) _) =>
      apply throws_bind; [throw | intros ?; throw]
  | |- throws (bind (bind _ _) _) => apply throws_assoc; throw
  | |- throws (bind get_self _) =>
      let o := fresh "o" in let Ho := fresh "Ho" in
      apply throws_self; intros o Ho; throw
  | |- throws (bind (os_path_isfile ?p) (λ present,
                 bind (if present then open_read ?p else _) _)) =>
      apply throws_template; intros ?; throw
  | |- throws (bind (pct _ _) _) => apply throws_pct_bind; [reflexivity | throw]
  | |- throws (bind _ _) => apply throws_bind; [throw | intros ?; throw]
  | |- throws (ret _) => apply throws_ret
  | |- throws (emit _) => apply throws_emit
  | |- throws (logging_info _) => apply throws_emit
  | |- throws (logging_error _) => apply throws_emit
  | |- throws (ERROR _) => apply throws_ERROR
  | |- throws (subprocess_check_output _) => apply throws_check_output
  | |- throws (update _) => apply throws_update; intros ? ?; assumption
  | |- throws (raise AssertionError) => apply throws_raise; intros ?; exact Logic.I
  | |- throws (raise XMLParseError) => apply throws_raise; intros ?; exact Logic.I
  | |- throws (lift (configparser.getboolean _ _ _ _)) =>
      apply throws_lift; intros ? ? ?; eapply getboolean_expected; eassumption
  | |- throws (lift (disableBuild _ _ _)) =>
      apply throws_lift; intros ? ? ?; eapply disableBuild_expected; eassumption
  | |- throws (lift (ast_literal_eval (configparser.get _ _ _))) =>
      apply throws_lift; intros ? ? ?; eapply literal_eval_expected; [|eassumption];
      first [eassumption | unfold initialised in *; congruence]
  | |- throws (try_except _ _) =>
      apply throws_try_except;
      [respect ltac:(first [assumption | exact Logic.I | done]) | throw]
  | |- throws (for_each _ _) => apply throws_for_each; intros ?; throw
  | |- throws (os_path_isfile _) => unfold os_path_isfile; throw
  | |- throws (open_read _) => unfold open_read; throw
  | |- throws (NamedTemporaryFile _) => unfold NamedTemporaryFile; throw
  | |- throws (checkPackageGroup _) => unfold checkPackageGroup; throw
  | |- throws (addPackage_meta _ _) => unfold addPackage_meta; throw
  | |- throws (addPackage _ _ _ _ _ _) => unfold addPackage; throw
  | |- throws getParentCompiler => unfold getParentCompiler; throw
  | |- throws (queryCompilers _) => unfold queryCompilers; throw
  | |- throws (isStandalone _) => unfold isStandalone; throw
  | |- throws (isCompilerDep _) => unfold isCompilerDep; throw
  | |- throws (isMPIDep _) => unfold isMPIDep; throw
  | |- throws overrideDryRun => unfold overrideDryRun; throw
  | |- throws (log_families _) => unfold log_families; throw
  | |- throws (parseConfig _) => unfold parseConfig; throw
  | |- throws queryOBSPackages => unfold queryOBSPackages; throw
  | |- throws cancelNewBuilds => unfold cancelNewBuilds; throw
  | |- throws (main_standalone _ _) => unfold main_standalone; throw
  | |- throws (main_compiler_dep _ _) => unfold main_compiler_dep; throw
  | |- throws (main_mpi_dep _) => unfold main_mpi_dep; throw
  | |- throws main_unsupported => unfold main_unsupported; throw
  | |- throws (main_package _ _) => unfold main_package; throw
  | |- throws (main_reconcile _ _) => unfold main_reconcile; throw
  | |- throws (if ?b then _ else _) => destruct b eqn:?; throw
  | |- throws (match ?x with _ => _ end) => destruct x eqn:?; throw
  | |- _ => idtac
  end.

Section Exceptions.

Context `{Platform}.

Lemma after_init_throws (args : arguments) :
  throws (let* _ := parseConfig (Some configFile) in
          let* o := get_self in
          let components := query_components o in
          let* _ :=
            if negb (args_dryrun args) then
              let* _ := logging_info
                  ("--no-dryrun command line arg requested: will execute commands"
                     +:+ Py.nl, []) in
              overrideDryRun
            else ret tt in
          let* obsPackages := queryOBSPackages in
          main_reconcile components obsPackages).
Proof. throw. Qed.

Lemma init_returns (w : world) :
  ∃ w', init w = (Ret tt, w') ∧ initialised (self w').
Proof. unfold init. run. cbn [update ret bind emit]. eexists. split; reflexivity. Qed.

(** X21.  What [main] never ends in.  Whatever the installation, the
    configuration file and the registry, the exception [main] ends in,
    if any, is not an unbound local, a missing section or a missing
    option: the calls of [addPackage] that [main] makes bind every
    local they read, and the options read outside a [try] are tested
    first or have a fallback. *)
Theorem main_uncaught_exceptions (args : arguments) (w : world) (e : exn) :
  result (main args) w = Raise e →
  e ≠ UnboundLocalError ∧ e ≠ NoSectionError ∧ e ≠ NoOptionError.
Proof.
  destruct (init_returns w) as (w' & Hinit & HI).
  unfold result, main. rewrite (run_step _ _ _ _ _ Hinit).
  intros Hr. destruct (after_init_throws args w' HI) as [_ Hx].
  specialize (Hx e Hr).
  destruct e; cbn in Hx; try done; repeat split; discriminate.
Qed.

(** X22.  Where a [TypeError] of [main] comes from.  The values that
    [literal_eval] returns being lists of strings, [main] ends in a
    [TypeError] only through the error line of a missing template, whose
    format has no place for its argument: the last event is then the
    probe of a file that does not exist. *)
Theorem main_TypeError_source (args : arguments) (w : world) :
  result (main args) w = Raise TypeError →
  ∃ t path,
    trace (final (main args) w) = (t ++ [EIsFile path])%list ∧ isfile path = false.
Proof.
  destruct (init_returns w) as (w' & Hinit & HI).
  unfold result, final, main. rewrite (run_step _ _ _ _ _ Hinit).
  intros Hr. destruct (after_init_throws args w' HI) as [_ Hx].
  exact (Hx _ Hr).
Qed.

End Exceptions.

(** * The further properties on the concrete installation *)

Section FurtherWitnesses.

Import Scenario.

Lemma loaded_run :
  parseConfig (H:=sound) (Some configFile) (final init start) = (Ret tt, loaded sound).
Proof.
  assert (result init start = Ret tt) as Hi by (vm_compute; reflexivity).
  assert (result (parseConfig (H:=sound) (Some configFile)) (final init start) = Ret tt)
    as Hp by (vm_compute; reflexivity).
  unfold loaded. rewrite (run_step init _ start (final init start) tt).
  - cbv beta. rewrite (run_pair (parseConfig _)). rewrite Hp. cbn [snd]. reflexivity.
  - rewrite (run_pair init). rewrite Hi. reflexivity.
Qed.

Lemma parseConfig_global_settings_witness :
  let o := self (loaded sound) in
  dryRun o = true ∧ compilerFamilies o = ["gnu9"; "gnu10"; "intel"] ∧
  head (compilerFamilies o) = Some (parentCompiler o) ∧
  head (MPIFamilies o) = Some (parentMPI o).
Proof.
  intros o. split; [vm_compute; reflexivity|]. split; [vm_compute; reflexivity|].
  destruct (parseConfig_global_settings (H:=sound) (final init start) (loaded sound)
              configFile loaded_run eq_refl)
    as (_ & _ & _ & _ & _ & _ & _ & Hc & Hm & _). by split.
Defined.

Lemma parseConfig_settings_errors_witness :
  result (parseConfig (H:=unsettled) (Some configFile)) (final init start) = SystemExit None ∧
  last (trace (final (parseConfig (H:=unsettled) (Some configFile)) (final init start)))
    = Some settings_error.
Proof.
  destruct (parseConfig_settings_errors (H:=unsettled) (final init start) configFile bare)
    as [Hbad _]; [vm_compute; reflexivity..|].
  apply Hbad. intros (dry & service & link & compilers & mpis & _ & Hs & _).
  vm_compute in Hs. discriminate Hs.
Defined.

Lemma malformed_flag_ends_reconciliation_witness :
  let run := main_reconcile (H:=odd_flag) ["cmake"; "odd"; "widget"] listed in
  result run (loaded odd_flag) = Raise ValueError ∧
  created (events run (loaded odd_flag)) = [] ∧
  Forall no_lock (events run (loaded odd_flag)).
Proof.
  intros run.
  destruct (malformed_flag_ends_reconciliation (H:=odd_flag) (loaded odd_flag)
              ["cmake"] ["widget"] "odd" listed "compiler_dep" "maybe")
    as (Hr & He & Hl).
  - vm_compute. reflexivity.
  - by left.
  - vm_compute. reflexivity.
  - vm_compute. intros Hin.
    repeat (apply elem_of_cons in Hin as [?|Hin]; [discriminate|]).
    by apply elem_of_nil in Hin.
  - split; [exact Hr|]. split; [|exact Hl]. vm_compute. reflexivity.
Defined.



Lemma parseConfig_groups_witness :
  groups (self (loaded sound)) = [("dev-tools", ["cmake"]); ("libs", ["widget"; "blas"])] ∧
  Forall2 (λ group gm, gm.1 = group ∧
             ast_literal_eval (H:=sound)
               (configparser.get (buildConfig (self (loaded sound))) "groups" group)
               = inr gm.2)
          ["dev-tools"; "libs"] (groups (self (loaded sound))).
Proof.
  split; [vm_compute; reflexivity|].
  apply (parseConfig_groups (H:=sound) (final init start) (loaded sound) configFile
           ["dev-tools"; "libs"] loaded_run eq_refl).
  - vm_compute. reflexivity.
  - repeat constructor; cbn; intros Hin; repeat (apply elem_of_cons in Hin as [?|Hin];
      [discriminate|]); by apply elem_of_nil in Hin.
Defined.

Lemma addPackage_parent_uploads_witness :
  let w := in_mode false (loaded sound) in
  result (addPackage (H:=sound) "cmake" true false None None None) w = Ret tt ∧
  buildsToCancel (self (final (addPackage (H:=sound) "cmake" true false None None None) w))
    = ["cmake"].
Proof.
  intros w.
  destruct (addPackage_parent_uploads (H:=sound) w "cmake" false None None None "dev-tools"
              false false) as (Hr & Hs & _).
  - vm_compute. reflexivity.
  - vm_compute. reflexivity.
  - vm_compute. reflexivity.
  - vm_compute. reflexivity.
  - vm_compute. reflexivity.
  - intros t cmd. vm_compute. by eexists.
  - split; [exact Hr|]. rewrite Hs. vm_compute. reflexivity.
Defined.

Lemma addPackage_child_uploads_witness :
  let w := in_mode false (loaded sound) in
  let run := addPackage (H:=sound) "widget-gnu10" false true (Some "gnu10")
               (Some "widget-gnu9") None in
  result run w = Ret tt ∧
  last (omap deed (events run w))
    = Some (ECheckOutput
              (put_command (self w) "widget-gnu10"
                 (TmpName "<link project=OpenHPC:1.3:Update7:Factory package=widget-gnu9 compiler=gnu10/>")
                 "_link")).
Proof.
  intros w run.
  destruct (addPackage_child_uploads (H:=sound) w "widget-gnu10" "gnu10" "widget-gnu9" None
              false true) as (Hr & _ & Hd).
  - vm_compute. reflexivity.
  - vm_compute. reflexivity.
  - vm_compute. reflexivity.
  - vm_compute. reflexivity.
  - vm_compute. reflexivity.
  - intros t cmd. vm_compute. by eexists.
  - split; [exact Hr|]. subst run. rewrite Hd. vm_compute. reflexivity.
Defined.

Lemma dry_main_is_read_only_witness :
  Forall read_only (events (main (H:=sound) (Args None true)) start) ∧
  remote_calls (events (main (H:=sound) (Args None true)) start)
    = [listing_command (self (loaded sound))].
Proof.
  split; [|vm_compute; reflexivity].
  apply (dry_main_is_read_only (H:=sound) (Args None true) start config);
    vm_compute; reflexivity.
Defined.

Lemma unflagged_package_is_standalone_witness :
  expand (H:=sound) (self (loaded sound)) "cmake"
    = [AddPackage "cmake" true false None None None].
Proof.
  apply (unflagged_package_is_standalone (H:=sound) (loaded sound) ∅ "cmake"
           NoOptionError NoOptionError); vm_compute; reflexivity.
Defined.

Lemma parseConfig_file_errors_witness :
  let missing := parseConfig (H:=no_config) (Some configFile) in
  let twice := parseConfig (H:=duplicated) (Some configFile) in
  (result missing start = SystemExit None ∧ self (final missing start) = self start) ∧
  (result twice start = SystemExit None ∧
   self (final twice start)
     = set_buildConfig [("global", [("dry_run", "True")])] (self start)).
Proof.
  intros missing twice.
  destruct (parseConfig_file_errors (H:=no_config) start configFile) as (Hmissing & _ & _).
  destruct (parseConfig_file_errors (H:=duplicated) start configFile) as (_ & Htwice & _).
  unfold result, final. subst missing twice.
  rewrite Hmissing by reflexivity.
  rewrite (Htwice [("global", [("dry_run", "True")])]) by reflexivity.
  by repeat split.
Defined.

Lemma checkPackageGroup_first_group_witness :
  let w := World (set_groups [("first", ["x"]); ("second", ["x"; "y"])] (self start)) [] in
  checkPackageGroup "x" w = (Ret "first", w) ∧
  checkPackageGroup "y" w = (Ret "second", w) ∧
  result (checkPackageGroup "z") w = SystemExit None.
Proof.
  intros w.
  destruct (checkPackageGroup_first_group w "x") as (Hx & _ & _).
  destruct (checkPackageGroup_first_group w "y") as (Hy & _ & _).
  destruct (checkPackageGroup_first_group w "z") as (_ & Hz & _).
  split; [|split].
  - apply Hx. exists [], ["x"], [("second", ["x"; "y"])].
    split; [reflexivity|]. split; [by left|constructor].
  - apply Hy. exists [("first", ["x"])], ["x"; "y"], [].
    split; [reflexivity|]. split; [by right; left|].
    constructor; [|constructor]. cbn. by intros ?%list_elem_of_singleton.
  - unfold result. rewrite (proj2 Hz); [done|].
    repeat constructor; cbn; intros Hin;
      repeat (apply elem_of_cons in Hin as [?|Hin]; [discriminate|]);
      by apply elem_of_nil in Hin.
Defined.

Lemma queryOBSPackages_cases_witness :
  result (queryOBSPackages (H:=broken)) (loaded broken) = SystemExit None ∧
  last (trace (final (queryOBSPackages (H:=broken)) (loaded broken)))
    = Some (ELog ERROR_level ("Unable to queryPackages from obs", [])).
Proof.
  destruct (queryOBSPackages_cases (H:=broken) (loaded broken)) as (Hfail & _ & _).
  unfold result, final. rewrite Hfail by reflexivity. cbn [fst snd trace].
  split; [done|]. apply last_snoc.
Defined.

Lemma lock_list_follows_creations_witness :
  let run := main_reconcile (H:=sound) ["cmake"; "widget"] listed in
  buildsToCancel (self (final run (loaded sound))) = ["widget-gnu10"; "widget-intel"].
Proof.
  intros run.
  destruct (lock_list_follows_creations (H:=sound) (loaded sound)) as [_ Hrec].
  destruct (Hrec ["cmake"; "widget"] listed) as (locked & pending & Hb & Hc & _ & Hr).
  fold run in Hb, Hc, Hr. rewrite Hr, app_nil_r in Hc by (vm_compute; reflexivity).
  rewrite Hb, <- Hc. vm_compute. reflexivity.
Defined.

Lemma cancelNewBuilds_returns_witness :
  let w := two_pending sound in
  result (cancelNewBuilds (H:=sound)) w = Ret tt ∧
  remote_calls (events (cancelNewBuilds (H:=sound)) w)
    = [lock_command (self w) "cmake"; lock_command (self w) "widget-gnu9"].
Proof.
  intros w.
  destruct (cancelNewBuilds_returns (H:=sound) w) as (_ & _ & Hreal).
  assert (∀ t package, package ∈ buildsToCancel (self w) →
            is_Some (check_output (Platform:=sound) t (lock_command (self w) package))) as Hok
    by (intros t package _; vm_compute; by eexists).
  pose proof (Hreal ltac:(discriminate) eq_refl Hok) as E.
  unfold result, events, final. rewrite E. cbn [fst snd trace].
  split; [done|]. vm_compute. reflexivity.
Defined.

Lemma reconcile_creates_missing_witness :
  let run := main_reconcile (H:=sound) ["cmake"; "widget"; "fftw"] listed in
  created (events run (loaded sound))
    = [ AddPackage "widget-gnu10" false true (Some "gnu10") (Some "widget-gnu9") None;
        AddPackage "widget-intel" false true (Some "intel") (Some "widget-gnu9") None ].
Proof.
  intros run.
  destruct (reconcile_creates_missing (H:=sound) (loaded sound)
              ["cmake"; "widget"; "fftw"] listed) as [_ Hret].
  fold run in Hret. rewrite Hret by (vm_compute; reflexivity).
  vm_compute. reflexivity.
Defined.

Lemma addPackage_upload_failure_witness :
  let P := upload_fails "_meta" in
  let Q := upload_fails "_obs_config_ready_for_build" in
  let w := World (set_dryRun false (self (loaded sound))) [] in
  let meta := meta_text "OpenHPC:1.3:Update7:Factory" "cmake" false false in
  let put name text :=
    [Word "osc"; Word "api"; Word "-f"; TmpName text; Word "-X"; Word "PUT";
     Word ("/source/OpenHPC:1.3:Update7:Factory/cmake/" +:+ name)] in
  (result (addPackage (H:=P) "cmake" true false None None None) w = SystemExit None ∧
   remote_calls (events (addPackage (H:=P) "cmake" true false None None None) w)
     = [put "_meta" meta]) ∧
  (result (addPackage (H:=Q) "cmake" true false None None None) w = SystemExit None ∧
   remote_calls (events (addPackage (H:=Q) "cmake" true false None None None) w)
     = [put "_meta" meta; put "_obs_config_ready_for_build" EmptyString]).
Proof.
  intros P Q w meta put.
  destruct (addPackage_upload_failure (H:=P) w "cmake" true false None None None "dev-tools"
              false false)
    as [Hmeta _]; [vm_compute; reflexivity | vm_compute; reflexivity
                  | right; vm_compute; reflexivity
                  | vm_compute; reflexivity | vm_compute; reflexivity |].
  destruct (addPackage_upload_failure (H:=Q) w "cmake" true false None None None "dev-tools"
              false false)
    as [_ Hmarker]; [vm_compute; reflexivity | vm_compute; reflexivity
                    | right; vm_compute; reflexivity
                    | vm_compute; reflexivity | vm_compute; reflexivity |].
  split.
  - destruct Hmeta as (Hr & _ & Hc & _); [intros t; vm_compute; reflexivity|].
    split; [exact Hr|]. rewrite Hc. vm_compute. reflexivity.
  - destruct Hmarker as (Hr & _ & Hc & _);
      [intros t; vm_compute; by eexists | intros t; vm_compute; reflexivity|].
    split; [exact Hr|]. rewrite Hc. vm_compute. reflexivity.
Defined.

Lemma main_uncaught_exceptions_witness :
  result (main (H:=no_service) (Args None true)) start = Raise TypeError ∧
  TypeError ≠ UnboundLocalError ∧ TypeError ≠ NoSectionError ∧ TypeError ≠ NoOptionError.
Proof.
  assert (result (main (H:=no_service) (Args None true)) start = Raise TypeError) as Hr
    by (vm_compute; reflexivity).
  exact (conj Hr (main_uncaught_exceptions (H:=no_service) (Args None true) start TypeError Hr)).
Defined.

Lemma main_TypeError_source_witness :
  result (main (H:=no_link) (Args None true)) start = Raise TypeError ∧
  ∃ t path,
    trace (final (main (H:=no_link) (Args None true)) start) = (t ++ [EIsFile path])%list ∧
    isfile (Platform:=no_link) path = false.
Proof.
  assert (result (main (H:=no_link) (Args None true)) start = Raise TypeError) as Hr
    by (vm_compute; reflexivity).
  exact (conj Hr (main_TypeError_source (H:=no_link) (Args None true) start Hr)).
Defined.

End FurtherWitnesses.
